(** * SME website generator: job pipeline, normaliser, deployer and job store

    A shallow embedding of the Python backend
    ([backend/app/main.py], [services/*.py], [models/schemas.py]).

    Conventions.
    - Values decoded from JSON (AI answers, hosting API bodies, scraped
      payloads) are [json] trees; Python truthiness, [dict.get], iteration
      and the exceptions they raise on the wrong shape are written out.
    - Text is [string]; one [ascii] stands for one character.
    - A coroutine is a function in the monad [M]: it threads the process
      state (job objects, the store, what was pushed to subscribers, the
      outbound calls issued, the clock) and either returns or raises.
      State changes made before an exception is raised are kept, as in
      Python.
    - Job objects live in a heap and the store maps ids to object
      references: [process_job] and [deploy_job] mutate the very object the
      store hands out.
    - What the outside world answers (connectors, the AI backend, the
      hosting API) is an argument of each operation; a statement that
      quantifies over it covers every behaviour of those services.
    - A public operation is run from its start to its end. Between two
      points where the event loop can switch tasks, every change of a job
      is written back to the store and pushed, so the pushed snapshots are
      the states of the job another task can see. *)

From Stdlib Require Import ZArith QArith Ascii String.
From stdpp Require Import gmap strings list fin_maps pretty.

Set Warnings "-register-all".
Local Open Scope Z_scope.

(** ** Python values and exceptions *)

Module Py.

(** What [json.loads] and [response.json()] can produce. *)
Inductive json : Type :=
| JNull
| JBool (b : bool)
| JInt (n : Z)
| JFloat (q : Q)
| JStr (s : string)
| JArr (l : list json)
| JObj (kvs : list (string * json)).

(** An exception instance: its class name and [str(e)]. *)
Record exn : Type := Exn { exn_class : string; exn_msg : string }.

Inductive result (A : Type) : Type :=
| Ok (a : A)
| Raise (e : exn).
Arguments Ok {A} a.
Arguments Raise {A} e.

Definition AttributeError := Exn "AttributeError" "object has no attribute".
Definition TypeError := Exn "TypeError" "object is not iterable".
Definition KeyError (k : string) := Exn "KeyError" k.
Definition ValidationError := Exn "ValidationError" "validation error".
Definition JSONDecodeError := Exn "JSONDecodeError" "Expecting value".

(** [bool(v)] *)
Definition truthy (v : json) : bool :=
  match v with
  | JNull => false
  | JBool b => b
  | JInt n => negb (n =? 0)
  | JFloat q => negb (Qeq_bool q 0)
  | JStr s => negb (String.eqb s "")
  | JArr l => match l with [] => false | _ => true end
  | JObj kvs => match kvs with [] => false | _ => true end
  end.

(** Lookup in the key/value list of a dict. *)
Fixpoint assoc (k : string) (kvs : list (string * json)) : option json :=
  match kvs with
  | [] => None
  | (k', v) :: rest => if String.eqb k k' then Some v else assoc k rest
  end.

(** [v.get(k, default)]; raises AttributeError when [v] is not a dict
    (a str, list, number or None has no [get]). *)
Definition get_or (v : json) (k : string) (default : json) : result json :=
  match v with
  | JObj kvs => Ok (match assoc k kvs with Some x => x | None => default end)
  | _ => Raise AttributeError
  end.

(** [v.get(k)] *)
Definition get (v : json) (k : string) : result json := get_or v k JNull.

(** [v[k]] with a string key: KeyError on a dict without the key,
    TypeError on everything else (a list or str needs an integer index,
    a number or None is not subscriptable). *)
Definition getitem (v : json) (k : string) : result json :=
  match v with
  | JObj kvs => match assoc k kvs with
                | Some x => Ok x
                | None => Raise (KeyError k)
                end
  | _ => Raise TypeError
  end.

Fixpoint chars (s : string) : list json :=
  match s with
  | EmptyString => []
  | String c rest => JStr (String c EmptyString) :: chars rest
  end.

(** [for x in v]: a list yields its items, a str its characters, a dict
    its keys; None, a bool or a number is not iterable. *)
Definition iter (v : json) : result (list json) :=
  match v with
  | JArr l => Ok l
  | JStr s => Ok (chars s)
  | JObj kvs => Ok (map (λ kv, JStr kv.1) kvs)
  | _ => Raise TypeError
  end.

Definition is_dict (v : json) : bool :=
  match v with JObj _ => true | _ => false end.

(** [v == s] for a str literal [s]. *)
Definition eq_str (v : json) (s : string) : bool :=
  match v with JStr s' => String.eqb s' s | _ => false end.

(** Truthiness of an [Optional[str]] attribute. *)
Definition truthy_opt_str (o : option string) : bool :=
  match o with Some s => negb (String.eqb s "") | None => false end.

(** *** [str] methods used on AI answers *)

Fixpoint prefix (p s : string) : bool :=
  match p, s with
  | EmptyString, _ => true
  | String a p', String b s' => if Ascii.eqb a b then prefix p' s' else false
  | String _ _, EmptyString => false
  end.

Fixpoint find_from (pat s : string) (i : Z) : Z :=
  match s with
  | EmptyString => if prefix pat s then i else -1
  | String _ s' => if prefix pat s then i else find_from pat s' (i + 1)
  end.

Fixpoint drop (n : nat) (s : string) : string :=
  match n, s with
  | O, _ => s
  | S n', String _ s' => drop n' s'
  | S _, EmptyString => EmptyString
  end.

Fixpoint take (n : nat) (s : string) : string :=
  match n, s with
  | O, _ => EmptyString
  | S n', String c s' => String c (take n' s')
  | S _, EmptyString => EmptyString
  end.

Definition len (s : string) : Z := Z.of_nat (String.length s).

(** [s.find(pat, start)] for [0 <= start <= len(s)]; -1 when absent. *)
Definition find (s pat : string) (start : Z) : Z :=
  find_from pat (drop (Z.to_nat start) s) start.

(** [pat in s] *)
Definition contains (s pat : string) : bool := 0 <=? find s pat 0.

Fixpoint rfind_from (pat s : string) (i : Z) (best : Z) : Z :=
  match s with
  | EmptyString => if prefix pat s then i else best
  | String _ s' =>
      rfind_from pat s' (i + 1) (if prefix pat s then i else best)
  end.

(** [s.rfind(pat)]; -1 when absent. *)
Definition rfind (s pat : string) : Z := rfind_from pat s 0 (-1).

(** A slice bound as Python normalises it: negative bounds count from
    the end, then the bound is clamped to [0, len]. *)
Definition clamp (n i : Z) : Z :=
  let j := if i <? 0 then i + n else i in
  Z.max 0 (Z.min n j).

(** [s[start:stop]] *)
Definition slice (s : string) (start stop : Z) : string :=
  let a := clamp (len s) start in
  let b := clamp (len s) stop in
  take (Z.to_nat (b - a)) (drop (Z.to_nat a) s).

(** Characters [str.isspace] accepts, among the first 256 code points. *)
Definition isspace (c : ascii) : bool :=
  let n := Z.of_nat (nat_of_ascii c) in
  ((9 <=? n) && (n <=? 13)) || ((28 <=? n) && (n <=? 32))
  || (n =? 133) || (n =? 160).

Fixpoint lstrip (s : string) : string :=
  match s with
  | String c s' => if isspace c then lstrip s' else s
  | EmptyString => EmptyString
  end.

Fixpoint rstrip (s : string) : string :=
  match s with
  | EmptyString => EmptyString
  | String c s' =>
      match rstrip s' with
      | EmptyString => if isspace c then EmptyString else String c EmptyString
      | r => String c r
      end
  end.

(** [s.strip()] *)
Definition strip (s : string) : string := rstrip (lstrip s).

End Py.
Export Py.

(** ** Data model ([models/schemas.py]) *)

(** A [dict] with str keys, in insertion order. *)
Definition pydict (V : Type) : Type := list (string * V).

Fixpoint dict_get {V} (k : string) (d : pydict V) : option V :=
  match d with
  | [] => None
  | (k', v) :: rest => if String.eqb k k' then Some v else dict_get k rest
  end.

(** [d[k] = v]: replaces the value in place when the key exists, appends
    the key otherwise. *)
Fixpoint dict_set {V} (k : string) (v : V) (d : pydict V) : pydict V :=
  match d with
  | [] => [(k, v)]
  | (k', v') :: rest =>
      if String.eqb k k' then (k', v) :: rest else (k', v') :: dict_set k v rest
  end.

Definition dict_keys {V} (d : pydict V) : list string := map fst d.

Inductive JobStatus : Type :=
| PENDING | SCRAPING | EXTRACTING | GENERATING | DEPLOYING | COMPLETED | FAILED.

(** [a == b] on two statuses. *)
Definition JobStatus_eqb (a b : JobStatus) : bool :=
  match a, b with
  | PENDING, PENDING | SCRAPING, SCRAPING | EXTRACTING, EXTRACTING
  | GENERATING, GENERATING | DEPLOYING, DEPLOYING | COMPLETED, COMPLETED
  | FAILED, FAILED => true
  | _, _ => false
  end.

Definition all_statuses : list JobStatus :=
  [PENDING; SCRAPING; EXTRACTING; GENERATING; DEPLOYING; COMPLETED; FAILED].

Inductive BusinessType : Type :=
| RESTAURANT | TRADES | PROFESSIONAL | RETAIL | CREATIVE | HEALTH | GENERAL.

Module JobCreateRequest.
Record t : Type := mk {
  business_name : string;
  location : option string;
  website_url : option string;
  facebook_url : option string;
  instagram_url : option string;
  client_email : option string;
  template_preference : option string
}.
End JobCreateRequest.

Module DeployRequest.
Record t : Type := mk { custom_domain : option string }.
End DeployRequest.

Module ContactInfo.
Record t : Type := mk {
  phone : option string;
  email : option string;
  address : option string;
  website : option string
}.
Definition default : t := mk None None None None.
End ContactInfo.

Module SocialMedia.
Record t : Type := mk {
  facebook : option string;
  instagram : option string;
  twitter : option string;
  linkedin : option string;
  youtube : option string
}.
Definition default : t := mk None None None None None.
End SocialMedia.

Module Service.
Record t : Type := mk {
  name : string;
  description : option string;
  price : option string;
  icon : option string
}.
End Service.

Module Testimonial.
Record t : Type := mk {
  quote : string;
  author : string;
  rating : option Q;
  source : option string;
  date : option string
}.
End Testimonial.

Module BusinessHours.
Record t : Type := mk {
  monday : option string;
  tuesday : option string;
  wednesday : option string;
  thursday : option string;
  friday : option string;
  saturday : option string;
  sunday : option string
}.
End BusinessHours.

Module ExtractedBusinessData.
(** [tagline], the two descriptions and [unique_selling_points] are
    declared [Optional[str]] and [list[str]], but the model class does not
    validate on assignment and [_merge_gap_data] stores the decoded AI
    value as it is: these four attributes hold a [json] value. *)
Record t : Type := mk {
  business_name : string;
  tagline : json;
  description_short : json;
  description_long : json;
  business_type : BusinessType;
  year_established : option string;
  services : list Service.t;
  unique_selling_points : json;
  contact : ContactInfo.t;
  social_media : SocialMedia.t;
  hours : option BusinessHours.t;
  testimonials : list Testimonial.t;
  rating : option Q;
  review_count : option Z;
  images : list string;
  logo_url : option string;
  data_quality_score : Z;
  sources_used : list string;
  missing_fields : list string
}.

(** The class defaults, given the three attributes the code passes when
    it builds the minimal profile. *)
Definition minimal (name : string) (score : Z) (missing : list string) : t :=
  mk name JNull JNull JNull GENERAL None [] (JArr [])
     ContactInfo.default SocialMedia.default None [] None None [] None
     score [] missing.

Definition set_tagline (v : json) (d : t) : t :=
  mk (business_name d) v (description_short d) (description_long d)
     (business_type d) (year_established d) (services d)
     (unique_selling_points d) (contact d) (social_media d) (hours d)
     (testimonials d) (rating d) (review_count d) (images d) (logo_url d)
     (data_quality_score d) (sources_used d) (missing_fields d).

Definition set_description_short (v : json) (d : t) : t :=
  mk (business_name d) (tagline d) v (description_long d)
     (business_type d) (year_established d) (services d)
     (unique_selling_points d) (contact d) (social_media d) (hours d)
     (testimonials d) (rating d) (review_count d) (images d) (logo_url d)
     (data_quality_score d) (sources_used d) (missing_fields d).

Definition set_description_long (v : json) (d : t) : t :=
  mk (business_name d) (tagline d) (description_short d) v
     (business_type d) (year_established d) (services d)
     (unique_selling_points d) (contact d) (social_media d) (hours d)
     (testimonials d) (rating d) (review_count d) (images d) (logo_url d)
     (data_quality_score d) (sources_used d) (missing_fields d).

Definition set_services (v : list Service.t) (d : t) : t :=
  mk (business_name d) (tagline d) (description_short d) (description_long d)
     (business_type d) (year_established d) v
     (unique_selling_points d) (contact d) (social_media d) (hours d)
     (testimonials d) (rating d) (review_count d) (images d) (logo_url d)
     (data_quality_score d) (sources_used d) (missing_fields d).

Definition set_unique_selling_points (v : json) (d : t) : t :=
  mk (business_name d) (tagline d) (description_short d) (description_long d)
     (business_type d) (year_established d) (services d)
     v (contact d) (social_media d) (hours d)
     (testimonials d) (rating d) (review_count d) (images d) (logo_url d)
     (data_quality_score d) (sources_used d) (missing_fields d).

Definition set_data_quality_score (v : Z) (d : t) : t :=
  mk (business_name d) (tagline d) (description_short d) (description_long d)
     (business_type d) (year_established d) (services d)
     (unique_selling_points d) (contact d) (social_media d) (hours d)
     (testimonials d) (rating d) (review_count d) (images d) (logo_url d)
     v (sources_used d) (missing_fields d).

Definition set_missing_fields (v : list string) (d : t) : t :=
  mk (business_name d) (tagline d) (description_short d) (description_long d)
     (business_type d) (year_established d) (services d)
     (unique_selling_points d) (contact d) (social_media d) (hours d)
     (testimonials d) (rating d) (review_count d) (images d) (logo_url d)
     (data_quality_score d) (sources_used d) v.
End ExtractedBusinessData.

Module ScrapedSource.
Record t : Type := mk {
  source : string;
  success : bool;
  data : option (pydict json);
  error : option string
}.
End ScrapedSource.

Module ScrapeResult.
Record t : Type := mk {
  sources : list ScrapedSource.t;
  raw_data : pydict (pydict json)
}.
End ScrapeResult.

Module GeneratedSite.
Record t : Type := mk {
  html : string;
  css : option string;
  js : option string;
  assets : list string;
  template_used : string;
  sections_included : list string;
  generation_time_ms : Z
}.
End GeneratedSite.

Module DeploymentResult.
Record t : Type := mk {
  deployment_id : string;
  url : string;
  production_url : string;
  status : string;
  dns_records : option (list (pydict string))
}.
End DeploymentResult.

Module JobProgress.
Record t : Type := mk {
  stage : string;
  message : string;
  progress_percent : Z;
  timestamp : Z
}.
End JobProgress.

Module Job.
Record t : Type := mk {
  id : string;
  status : JobStatus;
  created_at : Z;
  updated_at : Z;
  request : JobCreateRequest.t;
  progress : list JobProgress.t;
  current_stage : option string;
  scrape_result : option ScrapeResult.t;
  extracted_data : option ExtractedBusinessData.t;
  generated_site : option GeneratedSite.t;
  deployment : option DeploymentResult.t;
  error : option string;
  error_details : option json
}.

Definition set_status (v : JobStatus) (j : t) : t :=
  mk (id j) v (created_at j) (updated_at j) (request j) (progress j)
     (current_stage j) (scrape_result j) (extracted_data j)
     (generated_site j) (deployment j) (error j) (error_details j).

Definition set_updated_at (v : Z) (j : t) : t :=
  mk (id j) (status j) (created_at j) v (request j) (progress j)
     (current_stage j) (scrape_result j) (extracted_data j)
     (generated_site j) (deployment j) (error j) (error_details j).

Definition set_progress (v : list JobProgress.t) (j : t) : t :=
  mk (id j) (status j) (created_at j) (updated_at j) (request j) v
     (current_stage j) (scrape_result j) (extracted_data j)
     (generated_site j) (deployment j) (error j) (error_details j).

Definition set_current_stage (v : option string) (j : t) : t :=
  mk (id j) (status j) (created_at j) (updated_at j) (request j) (progress j)
     v (scrape_result j) (extracted_data j)
     (generated_site j) (deployment j) (error j) (error_details j).

Definition set_scrape_result (v : option ScrapeResult.t) (j : t) : t :=
  mk (id j) (status j) (created_at j) (updated_at j) (request j) (progress j)
     (current_stage j) v (extracted_data j)
     (generated_site j) (deployment j) (error j) (error_details j).

Definition set_extracted_data (v : option ExtractedBusinessData.t) (j : t) : t :=
  mk (id j) (status j) (created_at j) (updated_at j) (request j) (progress j)
     (current_stage j) (scrape_result j) v
     (generated_site j) (deployment j) (error j) (error_details j).

Definition set_generated_site (v : option GeneratedSite.t) (j : t) : t :=
  mk (id j) (status j) (created_at j) (updated_at j) (request j) (progress j)
     (current_stage j) (scrape_result j) (extracted_data j)
     v (deployment j) (error j) (error_details j).

Definition set_deployment (v : option DeploymentResult.t) (j : t) : t :=
  mk (id j) (status j) (created_at j) (updated_at j) (request j) (progress j)
     (current_stage j) (scrape_result j) (extracted_data j)
     (generated_site j) v (error j) (error_details j).

Definition set_error (v : option string) (j : t) : t :=
  mk (id j) (status j) (created_at j) (updated_at j) (request j) (progress j)
     (current_stage j) (scrape_result j) (extracted_data j)
     (generated_site j) (deployment j) v (error_details j).
End Job.

(** ** Process state and the coroutine monad *)

(** An outbound call, as far as the control flow distinguishes them. *)
Inductive Call : Type :=
| CallConnector (source : string)
| CallAnthropic (purpose : string)
| CallVercel (endpoint : string).

(** [heap]: the Job objects by identity. [jobs]: [job_store._jobs], from
    job id to object. [notified]: every (job id, snapshot) handed to
    [notify_job_update], oldest first, which is what a subscriber of that
    job receives. [calls]: the outbound calls issued, oldest first.
    [clock]: what [datetime.utcnow()] returns next. *)
Record State : Type := mkState {
  heap : gmap nat Job.t;
  next_ref : nat;
  jobs : gmap string nat;
  notified : list (string * Job.t);
  calls : list Call;
  clock : Z
}.

Definition set_heap (h : gmap nat Job.t) (st : State) : State :=
  mkState h (next_ref st) (jobs st) (notified st) (calls st) (clock st).
Definition set_jobs (m : gmap string nat) (st : State) : State :=
  mkState (heap st) (next_ref st) m (notified st) (calls st) (clock st).
Definition set_notified (l : list (string * Job.t)) (st : State) : State :=
  mkState (heap st) (next_ref st) (jobs st) l (calls st) (clock st).
Definition set_calls (l : list Call) (st : State) : State :=
  mkState (heap st) (next_ref st) (jobs st) (notified st) l (clock st).
Definition set_clock (c : Z) (st : State) : State :=
  mkState (heap st) (next_ref st) (jobs st) (notified st) (calls st) c.

Definition init_state : State := mkState ∅ 0%nat ∅ [] [] 0.

(** The record a reader of the store sees under [job_id]. *)
Definition stored (st : State) (job_id : string) : option Job.t :=
  match jobs st !! job_id with
  | Some r => heap st !! r
  | None => None
  end.

Definition M (A : Type) : Type := State → result A * State.

Definition ret {A} (a : A) : M A := λ st, (Ok a, st).

Definition bind {A B} (c : M A) (k : A → M B) : M B :=
  λ st, match c st with
        | (Ok a, st') => k a st'
        | (Raise e, st') => (Raise e, st')
        end.

Definition raise {A} (e : exn) : M A := λ st, (Raise e, st).

(** [try: c  except Exception as e: h e] *)
Definition try_except {A} (c : M A) (h : exn → M A) : M A :=
  λ st, match c st with
        | (Ok a, st') => (Ok a, st')
        | (Raise e, st') => h e st'
        end.

(** A pure computation that may raise. *)
Definition lift {A} (r : result A) : M A := λ st, (r, st).

Declare Scope py_scope.
Delimit Scope py_scope with py.
Notation "'let!' x := c 'in' k" := (bind c (λ x, k))
  (at level 10, x name, c at level 100, k at level 200,
   format "'[v' 'let!'  x  :=  c  'in' '/' k ']'") : py_scope.
Notation "'let!' ' p := c 'in' k" := (bind c (λ p, k))
  (at level 10, p pattern, c at level 100, k at level 200,
   format "'[v' 'let!'  ' p  :=  c  'in' '/' k ']'") : py_scope.
Notation "'do!' c 'in' k" := (bind c (λ _, k))
  (at level 10, c at level 100, k at level 200,
   format "'[v' 'do!'  c  'in' '/' k ']'") : py_scope.
Local Open Scope py_scope.

(** The same sequencing for pure computations that may raise. *)
Definition rbind {A B} (r : result A) (k : A → result B) : result B :=
  match r with Ok a => k a | Raise e => Raise e end.
Notation "'let?' x := c 'in' k" := (rbind c (λ x, k))
  (at level 10, x name, c at level 100, k at level 200,
   format "'[v' 'let?'  x  :=  c  'in' '/' k ']'") : py_scope.

Fixpoint rmapM {A B} (f : A → result B) (l : list A) : result (list B) :=
  match l with
  | [] => Ok []
  | x :: rest =>
      let? y := f x in
      let? ys := rmapM f rest in
      Ok (y :: ys)
  end.

(** [datetime.utcnow()]: time only moves forward. *)
Definition utcnow : M Z :=
  λ st, (Ok (clock st), set_clock (clock st + 1) st).

Definition issue (c : Call) : M unit :=
  λ st, (Ok tt, set_calls (calls st ++ [c]) st).

(** Allocation of a Job object. *)
Definition new_job (j : Job.t) : M nat :=
  λ st, (Ok (next_ref st),
         mkState (<[next_ref st := j]> (heap st)) (S (next_ref st))
                 (jobs st) (notified st) (calls st) (clock st)).

(** Attribute read and write through a reference. Every reference the
    program holds comes from [new_job]; reading through any other number
    gives a blank record, which nothing observes. *)
Definition blank_job : Job.t :=
  Job.mk "" PENDING 0 0 (JobCreateRequest.mk "" None None None None None None)
         [] None None None None None None None.

Definition deref (r : nat) : M Job.t :=
  λ st, (Ok (default blank_job (heap st !! r)), st).

Definition setattr (r : nat) (f : Job.t → Job.t) : M unit :=
  λ st, (Ok tt, set_heap (alter f r (heap st)) st).

(** A progress callback [on_progress(stage, message, percent)]. *)
Definition ProgressCallback : Type := string → string → Z → M unit.

(** [if on_progress: await on_progress(...)] *)
Definition report (cb : option ProgressCallback)
    (stage message : string) (percent : Z) : M unit :=
  match cb with
  | Some f => f stage message percent
  | None => ret tt
  end.

(** ** Job store ([services/job_store.py]) *)

Module JobStore.

(** [self._jobs[job.id] = job; return job] *)
Definition create (job : nat) : M nat :=
  let! j := deref job in
  λ st, (Ok job, set_jobs (<[Job.id j := job]> (jobs st)) st).

(** [self._jobs.get(job_id)] *)
Definition get (job_id : string) : M (option nat) :=
  λ st, (Ok (jobs st !! job_id), st).

Definition update (job : nat) : M nat :=
  let! now := utcnow in
  do! setattr job (Job.set_updated_at now) in
  let! j := deref job in
  λ st, (Ok job, set_jobs (<[Job.id j := job]> (jobs st)) st).

Definition delete (job_id : string) : M bool :=
  λ st, match jobs st !! job_id with
        | Some _ => (Ok true, set_jobs (base.delete job_id (jobs st)) st)
        | None => (Ok false, st)
        end.

(** [self._jobs.values()], as the objects behind the references. *)
Definition values (st : State) : list Job.t :=
  map (λ kv, default blank_job (heap st !! kv.2)) (map_to_list (jobs st)).

(** [count]: every status is a non-empty str, hence truthy, so a given
    status always selects the filtered branch. *)
Definition count (status : option JobStatus) : M Z :=
  λ st,
    match status with
    | Some s =>
        (Ok (Z.of_nat (length (List.filter
                                 (λ j, JobStatus_eqb (Job.status j) s)
                                 (values st)))), st)
    | None => (Ok (Z.of_nat (size (jobs st))), st)
    end.

End JobStore.

(** ** The outside world *)

(** How one connector run ends, retries included: it returns a record
    (every [return] of a connector builds a [ScrapedSource] carrying the
    connector's own tag) or an exception escapes it. *)
Inductive ConnOutcome : Type :=
| Returned (success : bool) (data : option (pydict json)) (error : option string)
| Raised (e : exn).

(** What the services answer during one pipeline run. An AI answer is
    [response.content[0].text], or the exception the call or that
    expression raises. [w_schedule] is the order in which the event loop
    happens to run the four connector coroutines. *)
Record PipelineWorld : Type := mkPipelineWorld {
  w_schedule : list nat;
  w_google : ConnOutcome;
  w_website : ConnOutcome;
  w_facebook : ConnOutcome;
  w_instagram : ConnOutcome;
  w_extract : result string;
  w_gap_fill : result string;
  w_21st_dev : result string;
  w_template : result string;
  twentyfirst_api_key : option string
}.

(** ** Scraper ([services/scraper.py]) *)

Module ScraperService.

(** A connector coroutine, given how its run ends. *)
Definition connector (tag : string) (o : ConnOutcome) : M ScrapedSource.t :=
  do! issue (CallConnector tag) in
  match o with
  | Returned ok d err => ret (ScrapedSource.mk tag ok d err)
  | Raised e => raise e
  end.

Definition _scrape_google_places (w : PipelineWorld) := connector "google" (w_google w).
Definition _scrape_website (w : PipelineWorld) := connector "website" (w_website w).
Definition _scrape_facebook (w : PipelineWorld) := connector "facebook" (w_facebook w).
Definition _scrape_instagram (w : PipelineWorld) := connector "instagram" (w_instagram w).

Definition _empty_result (source : string) : M ScrapedSource.t :=
  ret (ScrapedSource.mk source false None (Some "Not provided")).

(** Runs the tasks the schedule names, in that order and once each,
    keeping every outcome under the task's position. *)
Fixpoint run_scheduled {A} (tasks : list (M A)) (order : list nat)
    (done : gmap nat (result A)) (st : State) : gmap nat (result A) * State :=
  match order with
  | [] => (done, st)
  | i :: rest =>
      match done !! i, tasks !! i with
      | None, Some t =>
          let '(r, st') := t st in
          run_scheduled tasks rest (<[i := r]> done) st'
      | _, _ => run_scheduled tasks rest done st
      end
  end.

(** [asyncio.gather] with [return_exceptions=True]: every task runs to
    its end, in the order the event loop picks; the outcomes come back in
    the order of the arguments. *)
Definition gather {A} (tasks : list (M A)) (order : list nat)
  : M (list (result A)) :=
  λ st,
    let n := length tasks in
    let '(done, st') := run_scheduled tasks (order ++ seq 0 n) ∅ st in
    (Ok (omap (λ i, done !! i) (seq 0 n)), st').

Definition source_names : list string :=
  ["google"; "website"; "facebook"; "instagram"].

Definition data_truthy (d : option (pydict json)) : bool :=
  match d with Some (_ :: _) => true | _ => false end.

(** One turn of the loop over [zip(source_names, results)]. *)
Definition fan_in_step (acc : list ScrapedSource.t * pydict (pydict json))
    (item : string * result ScrapedSource.t)
  : list ScrapedSource.t * pydict (pydict json) :=
  let '(sources, raw_data) := acc in
  let '(name, result) := item in
  match result with
  | Raise e =>
      (sources ++ [ScrapedSource.mk name false None (Some (exn_msg e))], raw_data)
  | Ok r =>
      (sources ++ [r],
       if ScrapedSource.success r && data_truthy (ScrapedSource.data r)
       then match ScrapedSource.data r with
            | Some d => dict_set name d raw_data
            | None => raw_data
            end
       else raw_data)
  end.

Definition fan_in (results : list (result ScrapedSource.t))
  : list ScrapedSource.t * pydict (pydict json) :=
  fold_left fan_in_step (zip source_names results) ([], []).

Definition count_successful (sources : list ScrapedSource.t) : nat :=
  length (List.filter ScrapedSource.success sources).

Definition scrape_all (w : PipelineWorld) (request : JobCreateRequest.t)
    (on_progress : option ProgressCallback) : M ScrapeResult.t :=
  let tasks :=
    [ if truthy_opt_str (JobCreateRequest.location request)
      then _scrape_google_places w else _empty_result "google";
      if bool_decide (is_Some (JobCreateRequest.website_url request))
      then _scrape_website w else _empty_result "website";
      if bool_decide (is_Some (JobCreateRequest.facebook_url request))
      then _scrape_facebook w else _empty_result "facebook";
      if truthy_opt_str (JobCreateRequest.instagram_url request)
      then _scrape_instagram w else _empty_result "instagram" ] in
  do! report on_progress "scraping" "Scraping data sources..." 10 in
  let! results := gather tasks (w_schedule w) in
  let '(sources, raw_data) := fan_in results in
  do! report on_progress "scraping"
        ("Scraped " +:+ pretty (count_successful sources) +:+ "/"
         +:+ pretty (length sources) +:+ " sources") 30 in
  ret (ScrapeResult.mk sources raw_data).

End ScraperService.

(** ** Library behaviour the code relies on

    [json.loads] and pydantic's numeric coercion are not part of the
    repository: they are taken as an interface. [json_loads] is [None]
    where the decoder raises JSONDecodeError. [v_int] and [v_float] are
    pydantic's validation of an [int] and a [float] field, [None] where it
    rejects; a JSON integer is a valid [int] and a JSON float a valid
    [float], the rest of the coercion table is left open.
    [inherited_attr] tells whether [getattr(model, name, None)] is truthy
    for a name that is not a declared field (a method of the model base
    class, say). [py_str] is [str(v)], as an f-string formats a value; a
    str formats as itself. *)
Class Runtime : Type := {
  json_loads : string → option json;
  v_int : json → option Z;
  v_float : json → option Q;
  inherited_attr : string → bool;
  py_str : json → string;
  v_int_JInt : ∀ n, v_int (JInt n) = Some n;
  v_float_JFloat : ∀ q, v_float (JFloat q) = Some q;
  py_str_JStr : ∀ s, py_str (JStr s) = s
}.

(** pydantic validation of the other field types met in the models. A
    [str] field takes a str only. *)
Module Validate.

Definition orfail {A} (o : option A) : result A :=
  match o with Some a => Ok a | None => Raise ValidationError end.

Definition str (v : json) : result string :=
  match v with JStr s => Ok s | _ => Raise ValidationError end.

(** [Optional[T]] *)
Definition optional {A} (f : json → result A) (v : json) : result (option A) :=
  match v with
  | JNull => Ok None
  | _ => let? a := f v in Ok (Some a)
  end.

(** [list[str]] *)
Definition list_str (v : json) : result (list string) :=
  match v with
  | JArr l => rmapM str l
  | _ => Raise ValidationError
  end.

(** An [Optional[str]] attribute kept as the value it validates to. *)
Definition optional_str_value (v : json) : result json :=
  match v with
  | JNull => Ok JNull
  | JStr s => Ok (JStr s)
  | _ => Raise ValidationError
  end.

(** A [list[str]] attribute kept as the value it validates to. *)
Definition list_str_value (v : json) : result json :=
  let? l := list_str v in Ok (JArr (map JStr l)).

End Validate.

(** ** AI engine ([services/ai_engine.py]) *)

Module AIEngineService.
Section WithRuntime.
Context `{Runtime}.

(** The fenced-block extraction shared by the JSON and the HTML
    clean-up: [fence] is the opening marker looked for first. *)
Definition unfence (fence : string) (content : string) : string :=
  if contains content fence then
    let start := find content fence 0 + len fence in
    let end_ := find content "```" start in
    strip (slice content start end_)
  else if contains content "```" then
    let start := find content "```" 0 + 3 in
    let end_ := find content "```" start in
    strip (slice content start end_)
  else content.

Definition _parse_json_response (content : string) : json :=
  let content := unfence "```json" content in
  let content := strip content in
  match json_loads content with
  | Some v => v
  | None =>
      let last_brace := rfind content "}" in
      if 0 <? last_brace then
        match json_loads (slice content 0 (last_brace + 1)) with
        | Some v => v
        | None => JObj []
        end
      else JObj []
  end.

(** [BusinessType(value)], [None] where it raises ValueError. *)
Definition BusinessType_of (v : json) : option BusinessType :=
  match v with
  | JStr s =>
      if String.eqb s "restaurant" then Some RESTAURANT
      else if String.eqb s "trades" then Some TRADES
      else if String.eqb s "professional" then Some PROFESSIONAL
      else if String.eqb s "retail" then Some RETAIL
      else if String.eqb s "creative" then Some CREATIVE
      else if String.eqb s "health" then Some HEALTH
      else if String.eqb s "general" then Some GENERAL
      else None
  | _ => None
  end.

(** [Service(name=s.get("name", "Service"), description=s.get("description"),
    icon=s.get("icon"))] *)
Definition service_of_dict (s : json) : result Service.t :=
  let? name := get_or s "name" (JStr "Service") in
  let? description := get s "description" in
  let? icon := get s "icon" in
  let? name := Validate.str name in
  let? description := Validate.optional Validate.str description in
  let? icon := Validate.optional Validate.str icon in
  Ok (Service.mk name description None icon).

Fixpoint parse_services (items : list json) : result (list Service.t) :=
  match items with
  | [] => Ok []
  | s :: rest =>
      match s with
      | JObj _ =>
          let? x := service_of_dict s in
          let? xs := parse_services rest in
          Ok (x :: xs)
      | JStr name =>
          let? xs := parse_services rest in
          Ok (Service.mk name None None None :: xs)
      | _ => parse_services rest
      end
  end.

Definition testimonial_of_dict (t : json) : result Testimonial.t :=
  let? text := get_or t "text" (JStr "") in
  let? quote := get_or t "quote" text in
  let? author_name := get_or t "author_name" (JStr "Customer") in
  let? author := get_or t "author" author_name in
  let? rating := get t "rating" in
  let? source := get t "source" in
  let? quote := Validate.str quote in
  let? author := Validate.str author in
  let? rating := Validate.optional (λ v, Validate.orfail (v_float v)) rating in
  let? source := Validate.optional Validate.str source in
  Ok (Testimonial.mk quote author rating source None).

Fixpoint parse_testimonials (items : list json) : result (list Testimonial.t) :=
  match items with
  | [] => Ok []
  | t :: rest =>
      match t with
      | JObj _ =>
          let? x := testimonial_of_dict t in
          let? xs := parse_testimonials rest in
          Ok (x :: xs)
      | _ => parse_testimonials rest
      end
  end.

Definition opt_str_field (d : json) (k : string) : result (option string) :=
  let? v := get d k in Validate.optional Validate.str v.

(** [BusinessHours] built from [hours_data] unpacked as keyword
    arguments: this needs a mapping; unknown keys are ignored by the
    model. *)
Definition business_hours_of (hours_data : json) : result BusinessHours.t :=
  match hours_data with
  | JObj _ =>
      let? monday := opt_str_field hours_data "monday" in
      let? tuesday := opt_str_field hours_data "tuesday" in
      let? wednesday := opt_str_field hours_data "wednesday" in
      let? thursday := opt_str_field hours_data "thursday" in
      let? friday := opt_str_field hours_data "friday" in
      let? saturday := opt_str_field hours_data "saturday" in
      let? sunday := opt_str_field hours_data "sunday" in
      Ok (BusinessHours.mk monday tuesday wednesday thursday friday
                           saturday sunday)
  | _ => Raise TypeError
  end.

Definition _to_business_data (extracted : json) (scrape_result : ScrapeResult.t)
  : result ExtractedBusinessData.t :=
  (* Parse business type *)
  let? bt := get extracted "business_type" in
  let business_type :=
    if truthy bt then
      match BusinessType_of bt with Some b => b | None => GENERAL end
    else GENERAL in
  (* Parse services *)
  let? sv := get_or extracted "services" (JArr []) in
  let? items := iter sv in
  let? services := parse_services items in
  (* Parse testimonials *)
  let? tv := get_or extracted "testimonials" (JArr []) in
  let? items := iter tv in
  let? testimonials := parse_testimonials items in
  (* Parse contact *)
  let? contact_data := get_or extracted "contact" (JObj []) in
  let? phone := get contact_data "phone" in
  let? email := get contact_data "email" in
  let? address := get contact_data "address" in
  let? website := get contact_data "website" in
  let? phone := Validate.optional Validate.str phone in
  let? email := Validate.optional Validate.str email in
  let? address := Validate.optional Validate.str address in
  let? website := Validate.optional Validate.str website in
  let contact := ContactInfo.mk phone email address website in
  (* Parse social media *)
  let? social_data := get_or extracted "social_media" (JObj []) in
  let? facebook := get social_data "facebook" in
  let? instagram := get social_data "instagram" in
  let? twitter := get social_data "twitter" in
  let? linkedin := get social_data "linkedin" in
  let? facebook := Validate.optional Validate.str facebook in
  let? instagram := Validate.optional Validate.str instagram in
  let? twitter := Validate.optional Validate.str twitter in
  let? linkedin := Validate.optional Validate.str linkedin in
  let social_media := SocialMedia.mk facebook instagram twitter linkedin None in
  (* Parse hours *)
  let? hours_data := get_or extracted "hours" (JObj []) in
  let? hours :=
    (if truthy hours_data
     then let? h := business_hours_of hours_data in Ok (Some h)
     else Ok None) in
  let? business_name := get_or extracted "business_name" (JStr "Business") in
  let? tagline := get extracted "tagline" in
  let? description_short := get extracted "description_short" in
  let? description_long := get extracted "description_long" in
  let? year_established := get extracted "year_established" in
  let? usps := get_or extracted "unique_selling_points" (JArr []) in
  let? rating := get extracted "rating" in
  let? review_count := get extracted "review_count" in
  let? score := get_or extracted "data_quality_score" (JInt 50) in
  let? sources_used :=
    get_or extracted "sources_used"
      (JArr (map JStr (dict_keys (ScrapeResult.raw_data scrape_result)))) in
  let? missing_fields := get_or extracted "missing_fields" (JArr []) in
  let? business_name := Validate.str business_name in
  let? tagline := Validate.optional_str_value tagline in
  let? description_short := Validate.optional_str_value description_short in
  let? description_long := Validate.optional_str_value description_long in
  let? year_established := Validate.optional Validate.str year_established in
  let? usps := Validate.list_str_value usps in
  let? rating := Validate.optional (λ v, Validate.orfail (v_float v)) rating in
  let? review_count :=
    Validate.optional (λ v, Validate.orfail (v_int v)) review_count in
  let? score := Validate.orfail (v_int score) in
  let? sources_used := Validate.list_str sources_used in
  let? missing_fields := Validate.list_str missing_fields in
  Ok (ExtractedBusinessData.mk business_name tagline description_short
        description_long business_type year_established services usps
        contact social_media hours testimonials rating review_count
        [] None score sources_used missing_fields).

(** The gap-filled services: one [Service] per dict item, other items
    are skipped. *)
Fixpoint gap_services_of (items : list json) : result (list Service.t) :=
  match items with
  | [] => Ok []
  | s :: rest =>
      match s with
      | JObj _ =>
          let? x := service_of_dict s in
          let? xs := gap_services_of rest in
          Ok (x :: xs)
      | _ => gap_services_of rest
      end
  end.

(** [bool(l)] for a list *)
Definition nonempty {A} (l : list A) : bool :=
  match l with [] => false | _ => true end.

(** [bool(getattr(data, f, None))] *)
Definition getattr_truthy (data : ExtractedBusinessData.t) (f : string) : bool :=
  let named s := String.eqb f s in
  if named "business_name" then
    negb (String.eqb (ExtractedBusinessData.business_name data) "")
  else if named "tagline" then truthy (ExtractedBusinessData.tagline data)
  else if named "description_short" then
    truthy (ExtractedBusinessData.description_short data)
  else if named "description_long" then
    truthy (ExtractedBusinessData.description_long data)
  else if named "business_type" then true
  else if named "year_established" then
    truthy_opt_str (ExtractedBusinessData.year_established data)
  else if named "services" then nonempty (ExtractedBusinessData.services data)
  else if named "unique_selling_points" then
    truthy (ExtractedBusinessData.unique_selling_points data)
  else if named "contact" then true
  else if named "social_media" then true
  else if named "hours" then
    match ExtractedBusinessData.hours data with Some _ => true | None => false end
  else if named "testimonials" then nonempty (ExtractedBusinessData.testimonials data)
  else if named "rating" then
    match ExtractedBusinessData.rating data with
    | Some q => negb (Qeq_bool q 0)
    | None => false
    end
  else if named "review_count" then
    match ExtractedBusinessData.review_count data with
    | Some n => negb (n =? 0)
    | None => false
    end
  else if named "images" then nonempty (ExtractedBusinessData.images data)
  else if named "logo_url" then truthy_opt_str (ExtractedBusinessData.logo_url data)
  else if named "data_quality_score" then
    negb (ExtractedBusinessData.data_quality_score data =? 0)
  else if named "sources_used" then nonempty (ExtractedBusinessData.sources_used data)
  else if named "missing_fields" then nonempty (ExtractedBusinessData.missing_fields data)
  else inherited_attr f.

(** The statements of [_merge_gap_data], one per step. Each either
    raises before it assigns anything or completes. *)

(** [if gap_data.get(key) and not data.<key>: data.<key> = gap_data[key]] *)
Definition fill_if_missing (key : string)
    (current : ExtractedBusinessData.t → json)
    (assign : json → ExtractedBusinessData.t → ExtractedBusinessData.t)
    (gap_data : json) (data : ExtractedBusinessData.t)
  : result ExtractedBusinessData.t :=
  let? v := get gap_data key in
  if truthy v && negb (truthy (current data)) then
    let? v := getitem gap_data key in
    Ok (assign v data)
  else Ok data.

Definition merge_services (gap_data : json) (data : ExtractedBusinessData.t)
  : result ExtractedBusinessData.t :=
  let? v := get gap_data "services" in
  if truthy v then
    let? v := getitem gap_data "services" in
    let? items := iter v in
    let? gap_services := gap_services_of items in
    if (length (ExtractedBusinessData.services data) <? length gap_services)%nat
    then Ok (ExtractedBusinessData.set_services gap_services data)
    else Ok data
  else Ok data.

(** [data.data_quality_score = min(100, data.data_quality_score + 15)] *)
Definition bump_score (data : ExtractedBusinessData.t) : ExtractedBusinessData.t :=
  ExtractedBusinessData.set_data_quality_score
    (Z.min 100 (ExtractedBusinessData.data_quality_score data + 15)) data.

(** [data.missing_fields = [f for f in data.missing_fields if getattr(data, f, None)]] *)
Definition recompute_missing (data : ExtractedBusinessData.t)
  : ExtractedBusinessData.t :=
  ExtractedBusinessData.set_missing_fields
    (List.filter (getattr_truthy data) (ExtractedBusinessData.missing_fields data))
    data.

Definition merge_steps (gap_data : json)
  : list (ExtractedBusinessData.t → result ExtractedBusinessData.t) :=
  [ fill_if_missing "tagline" ExtractedBusinessData.tagline
      ExtractedBusinessData.set_tagline gap_data;
    fill_if_missing "description_short" ExtractedBusinessData.description_short
      ExtractedBusinessData.set_description_short gap_data;
    fill_if_missing "description_long" ExtractedBusinessData.description_long
      ExtractedBusinessData.set_description_long gap_data;
    merge_services gap_data;
    fill_if_missing "unique_selling_points"
      ExtractedBusinessData.unique_selling_points
      ExtractedBusinessData.set_unique_selling_points gap_data;
    λ data, Ok (bump_score data);
    λ data, Ok (recompute_missing data) ].

(** Runs the statements on the object: the first component is the
    object as the statements left it, the second tells whether the
    function returned or raised. *)
Fixpoint run_steps (steps : list (ExtractedBusinessData.t → result ExtractedBusinessData.t))
    (data : ExtractedBusinessData.t) : ExtractedBusinessData.t * result unit :=
  match steps with
  | [] => (data, Ok tt)
  | step :: rest =>
      match step data with
      | Ok data' => run_steps rest data'
      | Raise e => (data, Raise e)
      end
  end.

(** [_merge_gap_data] mutates [data] in place and returns it. *)
Definition _merge_gap_data (data : ExtractedBusinessData.t) (gap_data : json)
  : ExtractedBusinessData.t * result unit :=
  run_steps (merge_steps gap_data) data.

(** The prompts are text handed to the AI backend; building the two
    prompts of this service formats decoded values and raises nothing, so
    only the call they lead to is modelled. *)
Definition extract_business_data (w : PipelineWorld)
    (scrape_result : ScrapeResult.t) (business_name : string)
    (on_progress : option ProgressCallback) : M ExtractedBusinessData.t :=
  do! report on_progress "extracting" "Analyzing scraped data with AI..." 40 in
  try_except
    (do! issue (CallAnthropic "extract") in
     let! content := lift (w_extract w) in
     let extracted := _parse_json_response content in
     do! report on_progress "extracting" "Data extracted successfully" 50 in
     lift (_to_business_data extracted scrape_result))
    (λ _, ret (ExtractedBusinessData.minimal business_name 0 ["all"])).

(** The [try] block of [fill_gaps] works on the caller's object: what
    the [except] branch returns is that object as the block left it. *)
Definition fill_gaps (w : PipelineWorld) (data : ExtractedBusinessData.t)
    (on_progress : option ProgressCallback) : M ExtractedBusinessData.t :=
  if (70 <=? ExtractedBusinessData.data_quality_score data)
     && match ExtractedBusinessData.missing_fields data with
        | [] => true | _ => false end
  then ret data
  else
    do! report on_progress "extracting" "Filling data gaps with AI..." 55 in
    try_except
      (do! issue (CallAnthropic "gap_fill") in
       let! content := lift (w_gap_fill w) in
       let gap_data := _parse_json_response content in
       let '(data', outcome) := _merge_gap_data data gap_data in
       match outcome with
       | Raise _ => ret data'
       | Ok _ =>
           try_except
             (do! report on_progress "extracting" "Data gaps filled" 60 in
              ret data')
             (λ _, ret data')
       end)
      (λ _, ret data).

End WithRuntime.
End AIEngineService.

(** ** Site renderer ([services/website_generator.py]) *)

Module WebsiteGeneratorService.
Section WithRuntime.
Context `{Runtime}.

(** [l.insert(i, x)] *)
Definition list_insert_at {A} (i : nat) (x : A) (l : list A) : list A :=
  firstn i l ++ x :: skipn i l.

Definition _determine_sections (data : ExtractedBusinessData.t) : list string :=
  let sections := ["navigation"; "hero"; "services"; "about"; "contact"; "footer"] in
  let sections :=
    if AIEngineService.nonempty (ExtractedBusinessData.testimonials data)
    then list_insert_at 4 "testimonials" sections else sections in
  let sections :=
    if truthy (ExtractedBusinessData.unique_selling_points data)
    then list_insert_at 2 "features" sections else sections in
  sections.

(** Building the template prompt formats every attribute into text; the
    one step that can raise is the loop over the selling points in
    [_generate_usps_html], when the attribute holds a truthy value that
    is not iterable. The text itself is not modelled. *)
Definition _build_generation_prompt (data : ExtractedBusinessData.t)
  : result unit :=
  let usps := ExtractedBusinessData.unique_selling_points data in
  if truthy usps then let? _ := iter usps in Ok tt else Ok tt.

(** The markdown clean-up applied to the model's answer. *)
Definition clean_html (html : string) : string :=
  AIEngineService.unfence "```html" html.

Definition _generate_with_claude (w : PipelineWorld)
    (data : ExtractedBusinessData.t) (sections : list string) : M string :=
  let! _ := lift (_build_generation_prompt data) in
  do! issue (CallAnthropic "template") in
  let! html := lift (w_template w) in
  ret (clean_html html).

Definition _generate_with_21st_dev (w : PipelineWorld)
    (data : ExtractedBusinessData.t) (sections : list string) : M string :=
  try_except
    (do! issue (CallAnthropic "21st_dev") in
     let! html := lift (w_21st_dev w) in
     ret (clean_html html))
    (λ _, _generate_with_claude w data sections).

Definition generate (w : PipelineWorld) (data : ExtractedBusinessData.t)
    (on_progress : option ProgressCallback) : M GeneratedSite.t :=
  let! start_time := utcnow in
  do! report on_progress "generating" "Generating website design..." 65 in
  let sections := _determine_sections data in
  let premium := truthy_opt_str (twentyfirst_api_key w) in
  let! html :=
    (if premium then _generate_with_21st_dev w data sections
     else _generate_with_claude w data sections) in
  do! report on_progress "generating" "Website generated!" 90 in
  let! end_time := utcnow in
  ret (GeneratedSite.mk html None None []
         (if premium then "21st_dev" else "tailwind_modern")
         sections ((end_time - start_time) * 1000)).

End WithRuntime.
End WebsiteGeneratorService.

(** ** Orchestrator ([services/orchestrator.py]) *)

Module OrchestrationResult.
Record t : Type := mk {
  scrape_result : ScrapeResult.t;
  extracted_data : ExtractedBusinessData.t;
  generated_site : GeneratedSite.t
}.
End OrchestrationResult.

Module WebsiteGeneratorOrchestrator.
Section WithRuntime.
Context `{Runtime}.

Definition run (w : PipelineWorld) (request : JobCreateRequest.t)
    (on_progress : option ProgressCallback) : M OrchestrationResult.t :=
  (* Default progress callback: it only logs *)
  let on_progress : ProgressCallback :=
    match on_progress with
    | Some f => f
    | None => λ _ _ _, ret tt
    end in
  (* Step 1: Scrape all sources *)
  do! on_progress "scraping" "Starting data collection..." 5 in
  let! scrape_result :=
    ScraperService.scrape_all w request (Some on_progress) in
  (* Step 2: Extract & normalize data *)
  do! on_progress "extracting" "Analyzing data with AI..." 35 in
  let! extracted_data :=
    AIEngineService.extract_business_data w scrape_result
      (JobCreateRequest.business_name request) (Some on_progress) in
  (* Step 3: Fill gaps if needed *)
  let! extracted_data :=
    (if (ExtractedBusinessData.data_quality_score extracted_data <? 70)
        || AIEngineService.nonempty
             (ExtractedBusinessData.missing_fields extracted_data)
     then
       do! on_progress "extracting" "Enhancing data..." 55 in
       AIEngineService.fill_gaps w extracted_data (Some on_progress)
     else ret extracted_data) in
  (* Step 4: Generate website *)
  do! on_progress "generating" "Creating website design..." 65 in
  let! generated_site :=
    WebsiteGeneratorService.generate w extracted_data (Some on_progress) in
  do! on_progress "completed" "Website ready!" 100 in
  ret (OrchestrationResult.mk scrape_result extracted_data generated_site).

End WithRuntime.
End WebsiteGeneratorOrchestrator.

(** ** Deployer ([services/deployer.py]) *)

(** How one request to the hosting API ends: a response with its status
    code, its text and what [response.json()] gives ([None] where it
    raises), or a transport error raised by the client. *)
Inductive HttpOutcome : Type :=
| Response (status_code : Z) (text : string) (body : option json)
| TransportError (e : exn).

(** What the hosting API answers during one deployment; [d_status n] is
    the answer to the status poll number [n], counted from 0. *)
Record DeployWorld : Type := mkDeployWorld {
  d_create_project : HttpOutcome;
  d_get_project : HttpOutcome;
  d_create_deployment : HttpOutcome;
  d_status : nat → HttpOutcome;
  d_add_domain : HttpOutcome
}.

Module VercelDeployer.
Section WithRuntime.
Context `{Runtime}.

(** [await client.post(...)] or [await client.get(...)] *)
Definition request (endpoint : string) (o : HttpOutcome) : M (Z * string * option json) :=
  do! issue (CallVercel endpoint) in
  match o with
  | Response code text body => ret (code, text, body)
  | TransportError e => raise e
  end.

(** [response.json()] *)
Definition json_of (body : option json) : M json :=
  match body with
  | Some v => ret v
  | None => raise JSONDecodeError
  end.

Definition lower_char (c : ascii) : ascii :=
  let n := nat_of_ascii c in
  if (65 <=? n)%nat && (n <=? 90)%nat then ascii_of_nat (n + 32) else c.

Definition is_slug_char (c : ascii) : bool :=
  let n := nat_of_ascii c in
  ((97 <=? n)%nat && (n <=? 122)%nat) || ((48 <=? n)%nat && (n <=? 57)%nat).

Fixpoint lower (s : string) : string :=
  match s with
  | EmptyString => EmptyString
  | String c s' => String (lower_char c) (lower s')
  end.

(** [re.sub(r"[^a-z0-9]+", "-", slug)]; [in_run] tells that the previous
    character was already replaced. *)
Fixpoint collapse (s : string) (in_run : bool) : string :=
  match s with
  | EmptyString => EmptyString
  | String c s' =>
      if is_slug_char c then String c (collapse s' false)
      else if in_run then collapse s' true
      else String "-" (collapse s' true)
  end.

Fixpoint drop_last_dash (s : string) : string :=
  match s with
  | EmptyString => EmptyString
  | String c EmptyString =>
      if Ascii.eqb c "-" then EmptyString else s
  | String c s' => String c (drop_last_dash s')
  end.

(** [re.sub(r"^-|-$", "", slug)] *)
Definition trim_dashes (s : string) : string :=
  match s with
  | String c s' => if Ascii.eqb c "-" then drop_last_dash s' else drop_last_dash s
  | EmptyString => EmptyString
  end.

Definition _slugify (name : string) : string :=
  let slug := lower name in
  let slug := collapse slug false in
  let slug := trim_dashes slug in
  slice slug 0 50.

Definition _ensure_project (dw : DeployWorld) (project_slug : string) : M json :=
  let! '(code, _, body) := request "POST /v9/projects" (d_create_project dw) in
  let! data := json_of body in
  if code =? 200 then
    let! _ := lift (get data "id") in
    lift (getitem data "id")
  else
    let! err := lift (get_or data "error" (JObj [])) in
    let! err_code := lift (get err "code") in
    let fallback := ret (JStr project_slug) in
    if eq_str err_code "project_already_exists" then
      let! '(code, _, body) := request "GET /v9/projects/{slug}" (d_get_project dw) in
      if code =? 200 then
        let! project_data := json_of body in
        let! _ := lift (get project_data "id") in
        lift (getitem project_data "id")
      else fallback
    else fallback.

(** The names of the packaged files; hashing and encoding of their
    content are left to the libraries. *)
Definition _prepare_files (html : string) (project_slug : string) : list string :=
  ["index.html"; "vercel.json"; "robots.txt"; "sitemap.xml"].

Definition _create_deployment (dw : DeployWorld) (project_slug : string)
    (project_id : json) (files : list string) : M json :=
  let! '(code, _, body) := request "POST /v13/deployments" (d_create_deployment dw) in
  if negb ((code =? 200) || (code =? 201)) then
    let! error := json_of body in
    raise (Exn "Exception" ("Deployment failed: " +:+ py_str error))
  else json_of body.

(** [await asyncio.sleep(seconds)] *)
Definition sleep (seconds : Z) : M unit :=
  λ st, (Ok tt, set_clock (clock st + seconds) st).

(** The polling loop: [remaining] turns are left, [attempt] is the
    number of the next poll. *)
Fixpoint poll (dw : DeployWorld) (remaining : nat) (attempt : nat) : M json :=
  match remaining with
  | O => raise (Exn "Exception" "Deployment timed out")
  | S remaining' =>
      let! '(code, text, body) :=
        request "GET /v13/deployments/{id}" (d_status dw attempt) in
      if negb (code =? 200) then
        raise (Exn "Exception" ("Failed to check deployment status: " +:+ text))
      else
        let! data := json_of body in
        let! state := lift (get data "readyState") in
        if eq_str state "READY" then ret data
        else if eq_str state "ERROR" then
          let! msg := lift (get_or data "errorMessage" (JStr "Unknown error")) in
          raise (Exn "Exception" ("Deployment failed: " +:+ py_str msg))
        else
          do! sleep 2 in
          poll dw remaining' (S attempt)
  end.

Definition _wait_for_ready (dw : DeployWorld) (deployment_id : json)
    (max_attempts : nat) : M json :=
  poll dw max_attempts 0.

Definition dns_records_for_user : list (pydict string) :=
  [ [("type", "A"); ("name", "@"); ("value", "76.76.21.21")];
    [("type", "CNAME"); ("name", "www"); ("value", "cname.vercel-dns.com")] ].

Definition _configure_domain (dw : DeployWorld) (project_id : json)
    (domain : string) : M (option (list (pydict string))) :=
  let! '(code, _, body) :=
    request "POST /v10/projects/{id}/domains" (d_add_domain dw) in
  let! data := json_of body in
  if negb ((code =? 200) || (code =? 201)) then ret None
  else ret (Some dns_records_for_user).

Definition deploy (dw : DeployWorld) (html : string) (project_name : string)
    (custom_domain : option string) : M DeploymentResult.t :=
  (* Generate project slug *)
  let project_slug := _slugify project_name in
  (* Step 1: Create or get project *)
  let! project_id := _ensure_project dw project_slug in
  (* Step 2: Prepare files *)
  let files := _prepare_files html project_slug in
  (* Step 3: Create deployment *)
  let! deployment := _create_deployment dw project_slug project_id files in
  (* Step 4: Wait for deployment to be ready *)
  let! deployment_id := lift (getitem deployment "id") in
  let! deployment := _wait_for_ready dw deployment_id 60 in
  (* Step 5: Configure custom domain if provided *)
  let! dns_records :=
    (if truthy_opt_str custom_domain
     then _configure_domain dw project_id (default "" custom_domain)
     else ret None) in
  let! _ := lift (get deployment "url") in
  let! _ := lift (get deployment "id") in
  let! deployment_id := lift (getitem deployment "id") in
  let! url := lift (get_or deployment "url" (JStr "")) in
  let! status := lift (get_or deployment "readyState" (JStr "READY")) in
  let! deployment_id := lift (Validate.str deployment_id) in
  let! status := lift (Validate.str status) in
  ret (DeploymentResult.mk deployment_id
         ("https://" +:+ py_str url)
         ("https://" +:+ project_slug +:+ ".vercel.app")
         status dns_records).

End WithRuntime.
End VercelDeployer.

(** ** Application entry points ([main.py]) *)

(** What a route gives back: its response, or the HTTPException it
    raises. *)
Inductive Reply (A : Type) : Type :=
| Replied (a : A)
| HTTPException (status_code : Z) (detail : string).
Arguments Replied {A} a.
Arguments HTTPException {A} status_code detail.

Module JobResponse.
Record t : Type := mk { job : Job.t; message : string }.
End JobResponse.

Module Main.
Section WithRuntime.
Context `{Runtime}.

(** The snapshot of the job goes to the sockets registered for
    [job_id]; a failing send is ignored. *)
Definition notify_job_update (job_id : string) (job : nat) : M unit :=
  let! j := deref job in
  λ st, (Ok tt, set_notified (notified st ++ [(job_id, j)]) st).

(** The closure [on_progress] of [process_job]. *)
Definition on_progress (job_id : string) (job : nat) : ProgressCallback :=
  λ stage message percent,
    do! setattr job (Job.set_current_stage (Some stage)) in
    let! timestamp := utcnow in
    do! setattr job (λ j, Job.set_progress
          (Job.progress j ++ [JobProgress.mk stage message percent timestamp]) j) in
    let! now := utcnow in
    do! setattr job (Job.set_updated_at now) in
    let! _ := JobStore.update job in
    notify_job_update job_id job.

Definition process_job (w : PipelineWorld) (job_id : string) : M unit :=
  let! found := JobStore.get job_id in
  match found with
  | None => ret tt
  | Some job =>
      do! try_except
            (let! j := deref job in
             (* Run the orchestrator *)
             let! result :=
               WebsiteGeneratorOrchestrator.run w (Job.request j)
                 (Some (on_progress job_id job)) in
             (* Update job with results *)
             do! setattr job (Job.set_scrape_result
                   (Some (OrchestrationResult.scrape_result result))) in
             do! setattr job (Job.set_extracted_data
                   (Some (OrchestrationResult.extracted_data result))) in
             do! setattr job (Job.set_generated_site
                   (Some (OrchestrationResult.generated_site result))) in
             do! setattr job (Job.set_status COMPLETED) in
             let! now := utcnow in
             do! setattr job (Job.set_updated_at now) in
             on_progress job_id job "completed" "Website generated successfully!" 100)
            (λ e,
               do! setattr job (Job.set_status FAILED) in
               do! setattr job (Job.set_error (Some (exn_msg e))) in
               let! now := utcnow in
               setattr job (Job.set_updated_at now)) in
      let! _ := JobStore.update job in
      notify_job_update job_id job
  end.

(** [job_id] is the fresh uuid. The background task is [process_job],
    run later. *)
Definition create_job (request : JobCreateRequest.t) (job_id : string)
  : M JobResponse.t :=
  let! now := utcnow in
  let! job := new_job (Job.mk job_id PENDING now now request [] None
                         None None None None None None) in
  let! _ := JobStore.create job in
  let! j := deref job in
  ret (JobResponse.mk j "Job created successfully").

Definition get_job (job_id : string) : M (Reply JobResponse.t) :=
  let! found := JobStore.get job_id in
  match found with
  | None => ret (HTTPException 404 "Job not found")
  | Some job =>
      let! j := deref job in
      ret (Replied (JobResponse.mk j "Success"))
  end.

Definition get_job_preview (job_id : string) : M (Reply string) :=
  let! found := JobStore.get job_id in
  match found with
  | None => ret (HTTPException 404 "Job not found")
  | Some job =>
      let! j := deref job in
      match Job.generated_site j with
      | None => ret (HTTPException 400 "Website not yet generated")
      | Some site => ret (Replied (GeneratedSite.html site))
      end
  end.

Definition deploy_job (dw : DeployWorld) (job_id : string)
    (request : DeployRequest.t) : M (Reply JobResponse.t) :=
  let! found := JobStore.get job_id in
  match found with
  | None => ret (HTTPException 404 "Job not found")
  | Some job =>
      let! j := deref job in
      match Job.generated_site j, Job.deployment j with
      | None, _ => ret (HTTPException 400 "Website not yet generated")
      | Some _, Some _ => ret (HTTPException 400 "Already deployed")
      | Some site, None =>
          let! failure :=
            try_except
              (do! setattr job (Job.set_status DEPLOYING) in
               let! _ := JobStore.update job in
               do! notify_job_update job_id job in
               let! deployment :=
                 VercelDeployer.deploy dw (GeneratedSite.html site)
                   (JobCreateRequest.business_name (Job.request j))
                   (DeployRequest.custom_domain request) in
               do! setattr job (Job.set_deployment (Some deployment)) in
               do! setattr job (Job.set_status COMPLETED) in
               let! now := utcnow in
               do! setattr job (Job.set_updated_at now) in
               let! _ := JobStore.update job in
               do! notify_job_update job_id job in
               ret None)
              (λ e,
                 do! setattr job (Job.set_status FAILED) in
                 do! setattr job (Job.set_error
                       (Some ("Deployment failed: " +:+ exn_msg e))) in
                 let! _ := JobStore.update job in
                 do! notify_job_update job_id job in
                 ret (Some (exn_msg e))) in
          match failure with
          | Some detail => ret (HTTPException 500 detail)
          | None =>
              let! j := deref job in
              ret (Replied (JobResponse.mk j "Deployed successfully"))
          end
      end
  end.

End WithRuntime.
End Main.

(** ** A reference runtime

    An instance of [Runtime] to run the model on concrete inputs: a
    decoder for JSON without string escapes, fractions and exponents
    (it rejects them), pydantic's validators restricted to the values that
    need no coercion, and [str] with a float shown as a fraction. *)

Module Reference.

Definition dquote : ascii := ascii_of_nat 34.

Definition is_ws (c : ascii) : bool :=
  let n := nat_of_ascii c in
  (n =? 32)%nat || (n =? 9)%nat || (n =? 10)%nat || (n =? 13)%nat.

Fixpoint skip_ws (s : string) : string :=
  match s with
  | String c s' => if is_ws c then skip_ws s' else s
  | EmptyString => EmptyString
  end.

Definition is_digit (c : ascii) : bool :=
  let n := nat_of_ascii c in (48 <=? n)%nat && (n <=? 57)%nat.

(** The characters of a string literal up to its closing quote. *)
Fixpoint string_body (s : string) : option (string * string) :=
  match s with
  | EmptyString => None
  | String c s' =>
      if Ascii.eqb c dquote then Some (EmptyString, s')
      else if Ascii.eqb c "\" then None
      else match string_body s' with
           | Some (x, r) => Some (String c x, r)
           | None => None
           end
  end.

Fixpoint digits (s : string) (acc : Z) : Z * string :=
  match s with
  | String c s' =>
      if is_digit c
      then digits s' (10 * acc + Z.of_nat (nat_of_ascii c - 48))
      else (acc, s)
  | EmptyString => (acc, s)
  end.

Definition ends_number (s : string) : bool :=
  match s with
  | String c _ =>
      negb (Ascii.eqb c "." || Ascii.eqb c "e" || Ascii.eqb c "E")
  | EmptyString => true
  end.

Definition number (s : string) : option (json * string) :=
  let '(neg, s) :=
    match s with
    | String c s' => if Ascii.eqb c "-" then (true, s') else (false, s)
    | EmptyString => (false, s)
    end in
  match s with
  | String c s' =>
      if is_digit c then
        if Ascii.eqb c "0" && match s' with
                              | String c' _ => is_digit c'
                              | EmptyString => false
                              end
        then None
        else
          let '(n, r) := digits s 0 in
          if ends_number r then Some (JInt (if neg then - n else n), r)
          else None
      else None
  | EmptyString => None
  end.

Definition literal (word : string) (v : json) (s : string)
  : option (json * string) :=
  if prefix word s then Some (v, drop (String.length word) s) else None.

Fixpoint value (fuel : nat) (s : string) : option (json * string) :=
  match fuel with
  | O => None
  | S fuel =>
      let s := skip_ws s in
      match s with
      | EmptyString => None
      | String c r =>
          if Ascii.eqb c "n" then literal "null" JNull s
          else if Ascii.eqb c "t" then literal "true" (JBool true) s
          else if Ascii.eqb c "f" then literal "false" (JBool false) s
          else if Ascii.eqb c dquote then
            match string_body r with
            | Some (x, r') => Some (JStr x, r')
            | None => None
            end
          else if Ascii.eqb c "[" then
            match skip_ws r with
            | String c' r' =>
                if Ascii.eqb c' "]" then Some (JArr [], r')
                else elements fuel r []
            | EmptyString => None
            end
          else if Ascii.eqb c "{" then
            match skip_ws r with
            | String c' r' =>
                if Ascii.eqb c' "}" then Some (JObj [], r')
                else members fuel r []
            | EmptyString => None
            end
          else number s
      end
  end
with elements (fuel : nat) (s : string) (acc : list json)
  : option (json * string) :=
  match fuel with
  | O => None
  | S fuel =>
      match value fuel s with
      | Some (v, r) =>
          match skip_ws r with
          | String c r' =>
              if Ascii.eqb c "," then elements fuel r' (acc ++ [v])
              else if Ascii.eqb c "]" then Some (JArr (acc ++ [v]), r')
              else None
          | EmptyString => None
          end
      | None => None
      end
  end
with members (fuel : nat) (s : string) (acc : list (string * json))
  : option (json * string) :=
  match fuel with
  | O => None
  | S fuel =>
      match skip_ws s with
      | String c r =>
          if Ascii.eqb c dquote then
            match string_body r with
            | Some (k, r) =>
                match skip_ws r with
                | String c r =>
                    if Ascii.eqb c ":" then
                      match value fuel r with
                      | Some (v, r) =>
                          match skip_ws r with
                          | String c r' =>
                              if Ascii.eqb c "," then
                                members fuel r' (acc ++ [(k, v)])
                              else if Ascii.eqb c "}" then
                                Some (JObj (acc ++ [(k, v)]), r')
                              else None
                          | EmptyString => None
                          end
                      | None => None
                      end
                    else None
                | EmptyString => None
                end
            | None => None
            end
          else None
      | EmptyString => None
      end
  end.

(** A later duplicate of a key replaces the earlier value, as in a
    Python dict. *)
Fixpoint dedup (v : json) : json :=
  match v with
  | JArr l => JArr (map dedup l)
  | JObj kvs =>
      JObj (fold_left (λ acc kv, let '(k, x) := kv in dict_set k (dedup x) acc)
                      kvs [])
  | _ => v
  end.

Definition loads (s : string) : option json :=
  match value (2 * String.length s + 2) s with
  | Some (v, r) =>
      match skip_ws r with
      | EmptyString => Some (dedup v)
      | _ => None
      end
  | None => None
  end.

Definition int_field (v : json) : option Z :=
  match v with JInt n => Some n | _ => None end.

Definition float_field (v : json) : option Q :=
  match v with
  | JFloat q => Some q
  | JInt n => Some (inject_Z n)
  | _ => None
  end.

(** Attributes every model instance inherits from its base class. *)
Definition base_attr (name : string) : bool :=
  bool_decide (name ∈ ["model_dump"; "model_dump_json"; "model_copy";
                       "model_fields"; "copy"; "dict"; "json"]).

Definition join (sep : string) (l : list string) : string :=
  match l with
  | [] => ""
  | x :: rest => fold_left (λ acc y, acc +:+ sep +:+ y) rest x
  end.

Fixpoint repr (v : json) : string :=
  match v with
  | JNull => "None"
  | JBool true => "True"
  | JBool false => "False"
  | JInt n => pretty n
  | JFloat q => pretty (Qnum q) +:+ "/" +:+ pretty (Zpos (Qden q))
  | JStr s => "'" +:+ s +:+ "'"
  | JArr l => "[" +:+ join ", " (map repr l) +:+ "]"
  | JObj kvs =>
      "{" +:+ join ", " (map (λ kv, let '(k, x) := kv in
                                    "'" +:+ k +:+ "': " +:+ repr x) kvs)
      +:+ "}"
  end.

Definition to_str (v : json) : string :=
  match v with JStr s => s | _ => repr v end.

End Reference.

Definition reference_runtime : Runtime := {|
  json_loads := Reference.loads;
  v_int := Reference.int_field;
  v_float := Reference.float_field;
  inherited_attr := Reference.base_attr;
  py_str := Reference.to_str;
  v_int_JInt := λ n, eq_refl;
  v_float_JFloat := λ q, eq_refl;
  py_str_JStr := λ s, eq_refl
|}.

(** ** Notions used in the statements *)

(** A progress callback that returns on every call. *)
Definition returns (cb : ProgressCallback) : Prop :=
  ∀ stage message percent st, ∃ st', cb stage message percent st = (Ok tt, st').

Definition quiet (cb : option ProgressCallback) : Prop :=
  match cb with Some f => returns f | None => True end.

(** The snapshots pushed for [job_id], oldest first. *)
Definition pushed (job_id : string) (l : list (string * Job.t)) : list Job.t :=
  map snd (List.filter (λ x, String.eqb x.1 job_id) l).

(** Sample request and job; in [state_with_duplicate] the store holds a
    job under ["job-1"] and a second job object with the same id has been
    built but not stored yet. *)
Definition sample_request : JobCreateRequest.t :=
  JobCreateRequest.mk "Acme Coffee" (Some "SF") None None None None None.

Definition sample_job (now : Z) : Job.t :=
  Job.mk "job-1" PENDING now now sample_request [] None None None None None
         None None.

Definition state_with_duplicate : State :=
  (bind (new_job (sample_job 0)) (λ a,
   bind (JobStore.create a) (λ _, new_job (sample_job 7))) init_state).2.

(** An AI answer from which [_parse_json_response] recovers nothing:
    after the fence and whitespace clean-up the decoder rejects the text,
    and it rejects the text cut after its last closing brace as well. *)
Definition cleaned (content : string) : string :=
  strip (AIEngineService.unfence "```json" content).

Definition unparseable `{Runtime} (content : string) : Prop :=
  json_loads (cleaned content) = None
  ∧ ((0 <? rfind (cleaned content) "}") = true →
     json_loads (slice (cleaned content) 0 (rfind (cleaned content) "}" + 1))
     = None).

(** What [_to_business_data] builds from an empty dict. *)
Definition default_profile (scrape_result : ScrapeResult.t)
  : ExtractedBusinessData.t :=
  ExtractedBusinessData.mk "Business" JNull JNull JNull GENERAL None []
    (JArr []) ContactInfo.default SocialMedia.default None [] None None [] None
    50 (dict_keys (ScrapeResult.raw_data scrape_result)) [].

(** Sample inputs of the normaliser. *)
Definition sample_scrape : ScrapeResult.t :=
  ScrapeResult.mk
    [ScrapedSource.mk "google" true (Some [("name", JStr "Acme Coffee")]) None;
     ScrapedSource.mk "website" false None (Some "Not provided");
     ScrapedSource.mk "facebook" false None (Some "Not provided");
     ScrapedSource.mk "instagram" false None (Some "Not provided")]
    [("google", [("name", JStr "Acme Coffee")])].

Definition sample_world (extract gap_fill : result string) : PipelineWorld :=
  mkPipelineWorld [] (Returned true (Some [("name", JStr "Acme Coffee")]) None)
    (Raised (Exn "ConnectError" "unreachable"))
    (Raised (Exn "ConnectError" "unreachable"))
    (Raised (Exn "ConnectError" "unreachable"))
    extract gap_fill
    (Raise (Exn "APIError" "overloaded"))
    (Ok "<html><body>Acme Coffee</body></html>") None.

Definition apology : string := "I could not find any data for this business.".

Definition weak_profile : ExtractedBusinessData.t :=
  ExtractedBusinessData.minimal "Acme Coffee" 40 ["tagline"; "description_short"].

Definition complete_profile : ExtractedBusinessData.t :=
  ExtractedBusinessData.minimal "Acme Coffee" 85 [].

Definition tagline_only : json := JObj [("tagline", JStr "Fresh coffee daily")].

(** How each of the four connector slots ends for a request: the
    connector runs when its input is present, otherwise the slot holds the
    "Not provided" record. *)
Definition conn_result (tag : string) (o : ConnOutcome) : result ScrapedSource.t :=
  match o with
  | Returned ok d err => Ok (ScrapedSource.mk tag ok d err)
  | Raised e => Raise e
  end.

Definition not_provided (tag : string) : ScrapedSource.t :=
  ScrapedSource.mk tag false None (Some "Not provided").

Definition outcomes (w : PipelineWorld) (request : JobCreateRequest.t)
  : list (result ScrapedSource.t) :=
  [ if truthy_opt_str (JobCreateRequest.location request)
    then conn_result "google" (w_google w) else Ok (not_provided "google");
    if bool_decide (is_Some (JobCreateRequest.website_url request))
    then conn_result "website" (w_website w) else Ok (not_provided "website");
    if bool_decide (is_Some (JobCreateRequest.facebook_url request))
    then conn_result "facebook" (w_facebook w) else Ok (not_provided "facebook");
    if truthy_opt_str (JobCreateRequest.instagram_url request)
    then conn_result "instagram" (w_instagram w)
    else Ok (not_provided "instagram") ].

(** The entry of [sources] for a slot. *)
Definition source_entry (item : string * result ScrapedSource.t) : ScrapedSource.t :=
  match item.2 with
  | Ok s => s
  | Raise e => ScrapedSource.mk item.1 false None (Some (exn_msg e))
  end.

Definition full_request : JobCreateRequest.t :=
  JobCreateRequest.mk "Acme Coffee" (Some "SF") (Some "https://acme.example/")
    (Some "https://facebook.com/acme") (Some "@acme") None None.

Definition mixed_world : PipelineWorld :=
  mkPipelineWorld [3; 1; 0; 2]%nat
    (Returned true (Some [("name", JStr "Acme Coffee")]) None)
    (Returned true (Some []) None)
    (Raised (Exn "RetryError" "RetryError[ConnectTimeout]"))
    (Returned false None (Some "No data returned from Instagram scrape"))
    (Ok "{}") (Ok "{}") (Raise (Exn "APIError" "overloaded"))
    (Ok "<html><body>Acme Coffee</body></html>") None.

(** A task whose outcome does not depend on the state it runs in. *)
Definition yields {A} (t : M A) (r : result A) : Prop := ∀ st, (t st).1 = r.

(** What a slot contributes to [raw_data]: the payload of a record that
    reports success and carries a non-empty payload. *)
Definition written (item : string * result ScrapedSource.t)
  : option (string * pydict json) :=
  match item.2 with
  | Ok s =>
      match ScrapedSource.data s with
      | Some (x :: d) =>
          if ScrapedSource.success s then Some (item.1, x :: d) else None
      | _ => None
      end
  | Raise _ => None
  end.

(** Sample states and hosting answers. [fresh_state] holds one job just
    created; in [generated_state] its pipeline has run to the end. *)
Definition fresh_state : State :=
  (Main.create_job sample_request "job-1" init_state).2.

Definition generated_state : State :=
  (Main.process_job (H := reference_runtime)
     (sample_world (Ok "{}") (Ok "{}")) "job-1" fresh_state).2.

Definition vercel_ok (fields : list (string * json)) : HttpOutcome :=
  Response 200 "" (Some (JObj fields)).

(** The hosting API accepts everything; the deployment is ready at the
    third poll; [domain] is the answer to the domain registration. *)
Definition healthy_hosting (domain : HttpOutcome) : DeployWorld :=
  mkDeployWorld
    (vercel_ok [("id", JStr "prj_1")])
    (vercel_ok [("id", JStr "prj_1")])
    (vercel_ok [("id", JStr "dpl_1")])
    (λ n, vercel_ok [("id", JStr "dpl_1"); ("url", JStr "acme-coffee-x1.vercel.app");
                     ("readyState",
                      JStr (if (n <? 2)%nat then "BUILDING" else "READY"))])
    domain.

(** The build fails: the first poll reports the error state. *)
Definition failing_build : DeployWorld :=
  mkDeployWorld
    (vercel_ok [("id", JStr "prj_1")])
    (vercel_ok [("id", JStr "prj_1")])
    (vercel_ok [("id", JStr "dpl_1")])
    (λ n, vercel_ok [("id", JStr "dpl_1"); ("readyState", JStr "ERROR");
                     ("errorMessage", JStr "Build failed")])
    (vercel_ok []).

Definition connection_reset : HttpOutcome :=
  TransportError (Exn "ConnectError" "connection reset").

(** In [deployed_state] the site of the sample job has been deployed. *)
Definition deployed_state : State :=
  (Main.deploy_job (H := reference_runtime) (healthy_hosting (vercel_ok []))
     "job-1" (DeployRequest.mk None) generated_state).2.

Definition deployed_job : Job.t :=
  default blank_job (stored deployed_state "job-1").

(** A step that leaves the job objects, the store and the pushed
    snapshots alone (it may issue calls and let time pass), and a
    computation all of whose runs are such steps. *)
Definition quiet_step (st st' : State) : Prop :=
  heap st' = heap st ∧ jobs st' = jobs st ∧ notified st' = notified st.

Definition silent {A} (c : M A) : Prop := ∀ st, quiet_step st (c st).2.

(** The state [JobStore.update] leaves, for the object [j] behind the
    reference. *)
Definition updated (job : nat) (j : Job.t) (st : State) : State :=
  set_jobs (<[Job.id j := job]> (jobs st))
    (set_heap (alter (Job.set_updated_at (clock st)) job (heap st))
       (set_clock (clock st + 1) st)).

(** The sample job after a failed build, and after a second deploy
    request that succeeds. *)
Definition failed_deploy_state : State :=
  (Main.deploy_job (H := reference_runtime) failing_build "job-1"
     (DeployRequest.mk None) generated_state).2.

Definition redeployed_state : State :=
  (Main.deploy_job (H := reference_runtime) (healthy_hosting (vercel_ok []))
     "job-1" (DeployRequest.mk None) failed_deploy_state).2.

(** The position of a stage tag in the pipeline. *)
Definition rank (stage : string) : nat :=
  if String.eqb stage "scraping" then 0
  else if String.eqb stage "extracting" then 1
  else if String.eqb stage "generating" then 2
  else if String.eqb stage "completed" then 3
  else 4.

(** A sequence of stage tags that never steps back. *)
Fixpoint forward (l : list string) : Prop :=
  match l with
  | [] => True
  | s :: rest => Forall (λ s', (rank s <= rank s')%nat) rest ∧ forward rest
  end.

(** The stage tags of a sequence of snapshots. *)
Definition stages (l : list Job.t) : list string := omap Job.current_stage l.

(** Two snapshots of a job that differ at most in the progress log, the
    current stage and the update time. *)
Definition same_core (j j' : Job.t) : Prop :=
  Job.id j' = Job.id j
  ∧ Job.status j' = Job.status j
  ∧ Job.request j' = Job.request j
  ∧ Job.scrape_result j' = Job.scrape_result j
  ∧ Job.extracted_data j' = Job.extracted_data j
  ∧ Job.generated_site j' = Job.generated_site j
  ∧ Job.deployment j' = Job.deployment j
  ∧ Job.error j' = Job.error j.

(** [trace_step job_id job l st st']: [st'] is reached from [st] by quiet
    steps and by calls of the progress callback of [process_job], whose
    stage tags are [l] in order. *)
Inductive trace_step (job_id : string) (job : nat)
  : list string → State → State → Prop :=
| trace_done st : trace_step job_id job [] st st
| trace_quiet st st' st'' l :
    quiet_step st st' →
    trace_step job_id job l st' st'' →
    trace_step job_id job l st st''
| trace_progress st stage message percent st'' l :
    trace_step job_id job l
      (Main.on_progress job_id job stage message percent st).2 st'' →
    trace_step job_id job (stage :: l) st st''.

(** A computation that reports progress under the stage tag [s] only. *)
Definition emits {A} (job_id : string) (job : nat) (s : string) (c : M A) : Prop :=
  ∀ st, ∃ l, trace_step job_id job l st (c st).2 ∧ Forall (eq s) l.

(** [good job_id job r need c]: every run of [c] reports progress through
    the callback of [process_job] with stage tags that never step back and
    are all at or after position [r]; a run that returns has reported each
    tag of [need]. *)
Definition good {A} (job_id : string) (job : nat) (r : nat) (need : list string)
    (c : M A) : Prop :=
  ∀ st, ∃ l,
    trace_step job_id job l st (c st).2
    ∧ forward l
    ∧ Forall (λ s, (r <= rank s)%nat) l
    ∧ (∀ a, (c st).1 = Ok a → Forall (λ s, s ∈ l) need).

(** What the first five statements of the merge leave alone. *)
Definition same_meta (d d' : ExtractedBusinessData.t) : Prop :=
  ExtractedBusinessData.data_quality_score d'
  = ExtractedBusinessData.data_quality_score d
  ∧ ExtractedBusinessData.missing_fields d'
    = ExtractedBusinessData.missing_fields d.

(** Whether the request carries the input of a source. *)
Definition provided (request : JobCreateRequest.t) (tag : string) : bool :=
  if String.eqb tag "google" then
    truthy_opt_str (JobCreateRequest.location request)
  else if String.eqb tag "website" then
    bool_decide (is_Some (JobCreateRequest.website_url request))
  else if String.eqb tag "facebook" then
    bool_decide (is_Some (JobCreateRequest.facebook_url request))
  else if String.eqb tag "instagram" then
    truthy_opt_str (JobCreateRequest.instagram_url request)
  else false.

(** A world in which all four connectors find something. *)
Definition rich_world : PipelineWorld :=
  mkPipelineWorld [2; 0; 3; 1]%nat
    (Returned true (Some [("name", JStr "Acme Coffee")]) None)
    (Returned true (Some [("markdown", JStr "Welcome")]) None)
    (Returned true (Some [("likes", JInt 120)]) None)
    (Returned true (Some [("followers", JInt 450)]) None)
    (Ok "{}") (Ok "{}") (Raise (Exn "APIError" "overloaded"))
    (Ok "<html><body>Acme Coffee</body></html>") None.

(** A task that appends exactly the calls [cs] to the log of outbound
    calls, in whatever state it runs. *)
Definition issues {A} (t : M A) (cs : list Call) : Prop :=
  ∀ st, calls (t st).2 = calls st ++ cs.

(** A progress callback that issues no outbound call. *)
Definition call_free (cb : option ProgressCallback) : Prop :=
  ∀ stage message percent st,
    calls (report cb stage message percent st).2 = calls st.

(** The attributes that say who the business is, how to reach it and
    what its customers said: gap filling is meant to leave them alone. *)
Definition same_facts (d d' : ExtractedBusinessData.t) : Prop :=
  ExtractedBusinessData.business_name d' = ExtractedBusinessData.business_name d
  ∧ ExtractedBusinessData.business_type d' = ExtractedBusinessData.business_type d
  ∧ ExtractedBusinessData.year_established d'
    = ExtractedBusinessData.year_established d
  ∧ ExtractedBusinessData.contact d' = ExtractedBusinessData.contact d
  ∧ ExtractedBusinessData.social_media d' = ExtractedBusinessData.social_media d
  ∧ ExtractedBusinessData.hours d' = ExtractedBusinessData.hours d
  ∧ ExtractedBusinessData.testimonials d' = ExtractedBusinessData.testimonials d
  ∧ ExtractedBusinessData.rating d' = ExtractedBusinessData.rating d
  ∧ ExtractedBusinessData.review_count d' = ExtractedBusinessData.review_count d
  ∧ ExtractedBusinessData.images d' = ExtractedBusinessData.images d
  ∧ ExtractedBusinessData.logo_url d' = ExtractedBusinessData.logo_url d
  ∧ ExtractedBusinessData.sources_used d' = ExtractedBusinessData.sources_used d.

(** The marketing texts that are present in [d] are the same in [d'],
    and [d'] lists at least as many services. *)
Definition keeps_content (d d' : ExtractedBusinessData.t) : Prop :=
  (truthy (ExtractedBusinessData.tagline d) = true →
   ExtractedBusinessData.tagline d' = ExtractedBusinessData.tagline d)
  ∧ (truthy (ExtractedBusinessData.description_short d) = true →
     ExtractedBusinessData.description_short d'
     = ExtractedBusinessData.description_short d)
  ∧ (truthy (ExtractedBusinessData.description_long d) = true →
     ExtractedBusinessData.description_long d'
     = ExtractedBusinessData.description_long d)
  ∧ (truthy (ExtractedBusinessData.unique_selling_points d) = true →
     ExtractedBusinessData.unique_selling_points d'
     = ExtractedBusinessData.unique_selling_points d)
  ∧ (length (ExtractedBusinessData.services d)
     ≤ length (ExtractedBusinessData.services d'))%nat.

(** A decoded AI answer that carries images, a logo, a YouTube link, a
    priced service and a dated testimonial. *)
Definition rich_answer : json :=
  JObj [("business_name", JStr "Acme Coffee");
        ("business_type", JStr "restaurant");
        ("images", JArr [JStr "https://acme.example/front.jpg"]);
        ("logo_url", JStr "https://acme.example/logo.png");
        ("services",
         JArr [JObj [("name", JStr "Espresso"); ("price", JStr "3.50")];
               JStr "Catering"]);
        ("social_media",
         JObj [("youtube", JStr "https://youtube.com/@acme")]);
        ("testimonials",
         JArr [JObj [("quote", JStr "Great coffee"); ("author", JStr "Sam");
                     ("date", JStr "2024-05-01")]])].

(** The eight section names in page order, and whether a profile calls
    for a section. *)
Definition page_order : list string :=
  ["navigation"; "hero"; "features"; "services"; "about"; "testimonials";
   "contact"; "footer"].

Definition section_wanted (data : ExtractedBusinessData.t) (s : string) : bool :=
  if String.eqb s "features" then
    truthy (ExtractedBusinessData.unique_selling_points data)
  else if String.eqb s "testimonials" then
    AIEngineService.nonempty (ExtractedBusinessData.testimonials data)
  else true.

(** A world whose premium backend is configured but overloaded, and one
    whose template backend is down. *)
Definition premium_down_world : PipelineWorld :=
  mkPipelineWorld []
    (Returned true (Some [("name", JStr "Acme Coffee")]) None)
    (Raised (Exn "ConnectError" "unreachable"))
    (Raised (Exn "ConnectError" "unreachable"))
    (Raised (Exn "ConnectError" "unreachable"))
    (Ok "{}") (Ok "{}")
    (Raise (Exn "APIError" "overloaded"))
    (Ok "<html><body>Acme Coffee</body></html>") (Some "key-21st").

Definition template_down_world : PipelineWorld :=
  mkPipelineWorld []
    (Returned true (Some [("name", JStr "Acme Coffee")]) None)
    (Raised (Exn "ConnectError" "unreachable"))
    (Raised (Exn "ConnectError" "unreachable"))
    (Raised (Exn "ConnectError" "unreachable"))
    (Ok "{}") (Ok "{}")
    (Raise (Exn "APIError" "overloaded"))
    (Raise (Exn "APIError" "overloaded")) None.

(** The shape of a project slug: only lower-case letters, digits and
    dashes; no dash next to a dash ([after_dash] tells that the character
    before the string is a dash); empty, or beginning with a letter or a
    digit. [has_alnum] tells whether a name holds a letter or a digit. *)
Fixpoint slug_chars (s : string) : bool :=
  match s with
  | EmptyString => true
  | String c s' =>
      (VercelDeployer.is_slug_char c || Ascii.eqb c "-") && slug_chars s'
  end.

Fixpoint dashes_apart (after_dash : bool) (s : string) : bool :=
  match s with
  | EmptyString => true
  | String c s' =>
      if Ascii.eqb c "-" then negb after_dash && dashes_apart true s'
      else dashes_apart false s'
  end.

Definition starts_clean (s : string) : bool :=
  match s with
  | EmptyString => true
  | String c _ => VercelDeployer.is_slug_char c
  end.

Fixpoint has_alnum (s : string) : bool :=
  match s with
  | EmptyString => false
  | String c s' =>
      VercelDeployer.is_slug_char (VercelDeployer.lower_char c) || has_alnum s'
  end.

(** The answers to a status poll. [building]: HTTP 200 with a dict whose
    [readyState] is neither READY nor ERROR (also absent); [ready]: HTTP
    200 with the dict [data], whose [readyState] is READY. *)
Definition building (o : HttpOutcome) : Prop :=
  ∃ text data state,
    o = Response 200 text (Some data)
    ∧ get data "readyState" = Ok state
    ∧ eq_str state "READY" = false
    ∧ eq_str state "ERROR" = false.

Definition ready (o : HttpOutcome) (data : json) : Prop :=
  ∃ text state,
    o = Response 200 text (Some data)
    ∧ get data "readyState" = Ok state
    ∧ eq_str state "READY" = true.

Definition status_poll : Call := CallVercel "GET /v13/deployments/{id}".

(** A hosting API whose builds never finish, and the result of the
    sample deployment. *)
Definition stuck_build : DeployWorld :=
  mkDeployWorld
    (vercel_ok [("id", JStr "prj_1")])
    (vercel_ok [("id", JStr "prj_1")])
    (vercel_ok [("id", JStr "dpl_1")])
    (λ n, vercel_ok [("id", JStr "dpl_1"); ("readyState", JStr "BUILDING")])
    (vercel_ok []).

Definition sample_deployment : DeploymentResult.t :=
  DeploymentResult.mk "dpl_1" "https://acme-coffee-x1.vercel.app"
    "https://acme-coffee.vercel.app" "READY" None.

(** [log_step job_id job l st st']: [st'] is reached from [st] by quiet
    steps and by calls of the progress callback of [process_job], whose
    percentages are [l] in order. *)
Inductive log_step (job_id : string) (job : nat)
  : list Z → State → State → Prop :=
| log_done st : log_step job_id job [] st st
| log_quiet st st' st'' l :
    quiet_step st st' →
    log_step job_id job l st' st'' →
    log_step job_id job l st st''
| log_progress st stage message percent st'' l :
    log_step job_id job l
      (Main.on_progress job_id job stage message percent st).2 st'' →
    log_step job_id job (percent :: l) st st''.

(** A sequence of percentages that never goes back. *)
Fixpoint rising (l : list Z) : Prop :=
  match l with
  | [] => True
  | p :: rest => Forall (λ q, p ≤ q) rest ∧ rising rest
  end.

(** A computation whose every run reports, through the callback of
    [process_job], percentages that never go back and lie between [lo]
    and [hi]. *)
Definition reports {A} (job_id : string) (job : nat) (lo hi : Z) (c : M A)
  : Prop :=
  ∀ st, ∃ l,
    log_step job_id job l st (c st).2
    ∧ rising l
    ∧ Forall (λ p, lo ≤ p ≤ hi) l.

(** The four stage tags of the pipeline, and a computation that reports
    progress under tags of [tags] only. *)
Definition pipeline_stages : list string :=
  ["scraping"; "extracting"; "generating"; "completed"].

Definition emits_among {A} (job_id : string) (job : nat) (tags : list string)
    (c : M A) : Prop :=
  ∀ st, ∃ l, trace_step job_id job l st (c st).2 ∧ Forall (λ s, s ∈ tags) l.

(** * Properties *)

(** ** Job store *)

Lemma filter_none {A} (P : A → Prop) `{∀ x, Decision (P x)} (l : list A) :
  (∀ x, x ∈ l → ¬ P x) → filter P l = [].
Proof.
  induction l as [|a l IH]; intros Hl; [done|].
  rewrite filter_cons. destruct (decide (P a)) as [Hp|_].
  - exfalso. apply (Hl a); [left | done].
  - apply IH. intros x Hx. apply Hl. by right.
Qed.

Lemma map_to_list_insert_key {V} (m : gmap string V) (k : string) (v : V) :
  filter (λ kv, kv.1 = k) (map_to_list (<[k := v]> m)) = [(k, v)].
Proof.
  apply Permutation_singleton_r.
  rewrite <- insert_delete_eq.
  rewrite map_to_list_insert by apply lookup_delete_eq.
  rewrite filter_cons. simpl. destruct (decide (k = k)); [|done].
  rewrite filter_none; [done|].
  intros [k' v'] Hin Hk. simpl in Hk. subst k'.
  apply elem_of_map_to_list in Hin. by rewrite lookup_delete_eq in Hin.
Qed.

(** C10. [JobStore.create] never rejects a duplicate id: when the id of the
    job is already in the store, [create] returns normally, the store has
    the same number of records, exactly one of them under that id, which is
    the new job, and [get] on that id returns the new job. *)
Theorem JobStore_create_overwrites_duplicate
    (st : State) (job old : nat) (j : Job.t) :
  heap st !! job = Some j →
  jobs st !! Job.id j = Some old →
  ∃ st',
    JobStore.create job st = (Ok job, st')
    ∧ size (jobs st') = size (jobs st)
    ∧ filter (λ kv, kv.1 = Job.id j) (map_to_list (jobs st')) = [(Job.id j, job)]
    ∧ JobStore.get (Job.id j) st' = (Ok (Some job), st')
    ∧ stored st' (Job.id j) = Some j
    ∧ (∀ k, k ≠ Job.id j → jobs st' !! k = jobs st !! k).
Proof.
  intros Hj Hold.
  exists (set_jobs (<[Job.id j := job]> (jobs st)) st).
  unfold JobStore.create, JobStore.get, bind, deref, stored. rewrite Hj. simpl.
  repeat split.
  - apply map_size_insert_Some. by exists old.
  - apply map_to_list_insert_key.
  - by rewrite lookup_insert_eq.
  - by rewrite lookup_insert_eq.
  - intros k Hk. by rewrite lookup_insert_ne.
Qed.

Lemma JobStore_create_overwrites_duplicate_witness :
  ∃ st',
    JobStore.create 1%nat state_with_duplicate = (Ok 1%nat, st')
    ∧ size (jobs st') = size (jobs state_with_duplicate)
    ∧ filter (λ kv, kv.1 = Job.id (sample_job 7)) (map_to_list (jobs st'))
      = [(Job.id (sample_job 7), 1%nat)]
    ∧ JobStore.get (Job.id (sample_job 7)) st' = (Ok (Some 1%nat), st')
    ∧ stored st' (Job.id (sample_job 7)) = Some (sample_job 7)
    ∧ (∀ k, k ≠ Job.id (sample_job 7) →
            jobs st' !! k = jobs state_with_duplicate !! k).
Proof.
  apply (JobStore_create_overwrites_duplicate state_with_duplicate 1%nat 0%nat
           (sample_job 7)); reflexivity.
Defined.

(** ** Gap filling *)

Lemma report_quiet (cb : option ProgressCallback) :
  quiet cb → ∀ stage message percent st,
  ∃ st', report cb stage message percent st = (Ok tt, st').
Proof.
  destruct cb as [f|]; simpl; intros Hq stage message percent st.
  - apply Hq.
  - by exists st.
Qed.

Section MergeFacts.
Context `{Runtime}.

Lemma fill_if_missing_meta key current assign gap_data d d' :
  (∀ v x, same_meta x (assign v x)) →
  AIEngineService.fill_if_missing key current assign gap_data d = Ok d' →
  same_meta d d'.
Proof.
  intros Hassign. unfold AIEngineService.fill_if_missing, rbind.
  destruct (get gap_data key) as [v|]; [|done].
  destruct (truthy v && negb (truthy (current d))).
  - destruct (getitem gap_data key) as [x|]; [|done].
    intros [= <-]. apply Hassign.
  - intros [= <-]. by split.
Qed.

Lemma merge_services_meta gap_data d d' :
  AIEngineService.merge_services gap_data d = Ok d' → same_meta d d'.
Proof.
  unfold AIEngineService.merge_services, rbind.
  destruct (get gap_data "services") as [v|]; [|done].
  destruct (truthy v); [|by intros [= <-]; split].
  destruct (getitem gap_data "services") as [x|]; [|done].
  destruct (iter x) as [items|]; [|done].
  destruct (AIEngineService.gap_services_of items) as [gs|]; [|done].
  destruct (_ <? _)%nat; intros [= <-]; by split.
Qed.

Lemma same_meta_trans d1 d2 d3 :
  same_meta d1 d2 → same_meta d2 d3 → same_meta d1 d3.
Proof. intros [? ?] [? ?]. split; congruence. Qed.

(** The merge either completes, and then it is the five guarded
    assignments followed by the score bonus and the recomputation of
    [missing_fields], or it raises in one of the five, and then score
    and [missing_fields] are as they were. *)
Lemma merge_gap_data_cases data gap_data d' outcome :
  AIEngineService._merge_gap_data data gap_data = (d', outcome) →
  (outcome = Ok tt
   ∧ ∃ d1, same_meta data d1
           ∧ d' = AIEngineService.recompute_missing
                    (AIEngineService.bump_score d1))
  ∨ ((∃ e, outcome = Raise e) ∧ same_meta data d').
Proof.
  unfold AIEngineService._merge_gap_data, AIEngineService.merge_steps.
  cbn [AIEngineService.run_steps].
  destruct (AIEngineService.fill_if_missing "tagline" _ _ _ data)
    as [d1|e1] eqn:E1;
    [apply fill_if_missing_meta in E1; [|by split]
    |intros [= <- <-]; right; split; [by eexists|by split]].
  destruct (AIEngineService.fill_if_missing "description_short" _ _ _ d1)
    as [d2|e2] eqn:E2;
    [apply fill_if_missing_meta in E2; [|by split]
    |intros [= <- <-]; right; split; [by eexists|done]].
  destruct (AIEngineService.fill_if_missing "description_long" _ _ _ d2)
    as [d3|e3] eqn:E3;
    [apply fill_if_missing_meta in E3; [|by split]
    |intros [= <- <-]; right; split;
     [by eexists|by eapply same_meta_trans]].
  destruct (AIEngineService.merge_services gap_data d3)
    as [d4|e4] eqn:E4;
    [apply merge_services_meta in E4
    |intros [= <- <-]; right; split;
     [by eexists|eauto using same_meta_trans]].
  destruct (AIEngineService.fill_if_missing "unique_selling_points" _ _ _ d4)
    as [d5|e5] eqn:E5;
    [apply fill_if_missing_meta in E5; [|by split]
    |intros [= <- <-]; right; split;
     [by eexists|eauto using same_meta_trans]].
  intros [= <- <-]. left. split; [done|].
  exists d5. split; [eauto using same_meta_trans|done].
Qed.

Lemma getattr_truthy_set_missing l d f :
  f ≠ "missing_fields" →
  AIEngineService.getattr_truthy (ExtractedBusinessData.set_missing_fields l d) f
  = AIEngineService.getattr_truthy d f.
Proof.
  intros Hf. unfold AIEngineService.getattr_truthy.
  repeat (match goal with
          | |- context [String.eqb f ?s] =>
              destruct (String.eqb_spec f s); [try done; subst; try done|]
          end).
  done.
Qed.

(** After a merge that completes, a previously-missing name stays in
    [missing_fields] exactly when its attribute is truthy. *)
Lemma merge_gap_data_keeps_truthy data gap_data d' f :
  AIEngineService._merge_gap_data data gap_data = (d', Ok tt) →
  f ≠ "missing_fields" →
  (In f (ExtractedBusinessData.missing_fields d')
   ↔ In f (ExtractedBusinessData.missing_fields data)
     ∧ AIEngineService.getattr_truthy d' f = true).
Proof.
  intros Hm Hf.
  destruct (merge_gap_data_cases _ _ _ _ Hm) as [[_ (d1 & [Hs Hmf] & ->)]|[[e ?] _]];
    [|done].
  unfold AIEngineService.recompute_missing.
  rewrite getattr_truthy_set_missing by done.
  change (ExtractedBusinessData.missing_fields
            (ExtractedBusinessData.set_missing_fields ?l ?d)) with l.
  rewrite filter_In.
  change (ExtractedBusinessData.missing_fields (AIEngineService.bump_score d1))
    with (ExtractedBusinessData.missing_fields d1).
  by rewrite Hmf.
Qed.

(** The merge never takes a name into [missing_fields]. *)
Lemma merge_gap_data_subset data gap_data d' outcome f :
  AIEngineService._merge_gap_data data gap_data = (d', outcome) →
  In f (ExtractedBusinessData.missing_fields d') →
  In f (ExtractedBusinessData.missing_fields data).
Proof.
  intros Hm.
  destruct (merge_gap_data_cases _ _ _ _ Hm)
    as [[_ (d1 & [_ Hmf] & ->)]|[_ [_ Hmf]]].
  - unfold AIEngineService.recompute_missing. simpl.
    rewrite filter_In, Hmf. tauto.
  - by rewrite Hmf.
Qed.

Lemma merge_gap_data_score data gap_data d' outcome :
  AIEngineService._merge_gap_data data gap_data = (d', outcome) →
  ExtractedBusinessData.data_quality_score d'
  = ExtractedBusinessData.data_quality_score data
  ∨ ExtractedBusinessData.data_quality_score d'
    = Z.min 100 (ExtractedBusinessData.data_quality_score data + 15).
Proof.
  intros Hm.
  destruct (merge_gap_data_cases _ _ _ _ Hm)
    as [[_ (d1 & [Hs _] & ->)]|[_ [Hs _]]].
  - right. simpl. by rewrite Hs.
  - by left.
Qed.

End MergeFacts.

(** C8. With a quality score of at least 70 and no missing field,
    [fill_gaps] returns its argument and leaves the process state as it
    was (no AI call, no progress event), whatever the AI backend would
    answer; so applying it again gives the same value. *)
Theorem fill_gaps_short_circuit `{Runtime}
    (w : PipelineWorld) (data : ExtractedBusinessData.t)
    (cb : option ProgressCallback) (st : State) :
  70 ≤ ExtractedBusinessData.data_quality_score data →
  ExtractedBusinessData.missing_fields data = [] →
  AIEngineService.fill_gaps w data cb st = (Ok data, st)
  ∧ ∀ w' cb',
      bind (AIEngineService.fill_gaps w data cb)
           (λ d, AIEngineService.fill_gaps w' d cb') st = (Ok data, st).
Proof.
  intros Hscore Hmissing.
  assert (∀ w0 cb0, AIEngineService.fill_gaps w0 data cb0 st = (Ok data, st))
    as Hskip.
  { intros w0 cb0. unfold AIEngineService.fill_gaps.
    rewrite Hmissing. apply Z.leb_le in Hscore. by rewrite Hscore. }
  split; [apply Hskip|].
  intros w' cb'. unfold bind. rewrite Hskip. apply Hskip.
Qed.

Lemma fill_gaps_short_circuit_witness :
  AIEngineService.fill_gaps (H := reference_runtime)
    (sample_world (Ok apology) (Ok apology)) complete_profile None init_state
  = (Ok complete_profile, init_state)
  ∧ ∀ w' cb',
      bind (AIEngineService.fill_gaps (H := reference_runtime)
              (sample_world (Ok apology) (Ok apology)) complete_profile None)
           (λ d, AIEngineService.fill_gaps (H := reference_runtime) w' d cb')
           init_state
      = (Ok complete_profile, init_state).
Proof.
  apply (fill_gaps_short_circuit (H := reference_runtime)
           (sample_world (Ok apology) (Ok apology)) complete_profile None
           init_state).
  - simpl. lia.
  - reflexivity.
Defined.

(** C7. For an input whose quality score is between 0 and 100, [fill_gaps]
    returns, and the score of its result is at least the input's and at
    most 100: on the short-circuit, after a merge, and when the AI call or
    the merge fails. *)
Theorem fill_gaps_score_bounds `{Runtime}
    (w : PipelineWorld) (data : ExtractedBusinessData.t)
    (cb : option ProgressCallback) (st : State) :
  0 ≤ ExtractedBusinessData.data_quality_score data ≤ 100 →
  quiet cb →
  ∃ data' st',
    AIEngineService.fill_gaps w data cb st = (Ok data', st')
    ∧ ExtractedBusinessData.data_quality_score data
      ≤ ExtractedBusinessData.data_quality_score data' ≤ 100.
Proof.
  intros Hrange Hq. unfold AIEngineService.fill_gaps.
  destruct (_ && _); [exists data, st; split; [done|lia]|].
  unfold bind at 1.
  destruct (report_quiet cb Hq "extracting" "Filling data gaps with AI..." 55 st)
    as [st1 ->].
  unfold try_except at 1, bind, issue, lift.
  destruct (w_gap_fill w) as [content|e]; [|eexists _, _; split; [done|lia]].
  destruct (AIEngineService._merge_gap_data data _) as [d' outcome] eqn:Hm.
  apply merge_gap_data_score in Hm.
  destruct outcome as [[]|e].
  - unfold try_except.
    destruct (report_quiet cb Hq "extracting" "Data gaps filled" 60
                (set_calls (calls st1 ++ [CallAnthropic "gap_fill"]) st1))
      as [st2 ->].
    eexists _, _; split; [done|lia].
  - eexists _, _; split; [done|lia].
Qed.

Lemma fill_gaps_score_bounds_witness :
  ∃ data' st',
    AIEngineService.fill_gaps (H := reference_runtime)
      (sample_world (Ok apology) (Ok "{}")) weak_profile None init_state
    = (Ok data', st')
    ∧ ExtractedBusinessData.data_quality_score weak_profile
      ≤ ExtractedBusinessData.data_quality_score data' ≤ 100.
Proof.
  apply (fill_gaps_score_bounds (H := reference_runtime)
           (sample_world (Ok apology) (Ok "{}")) weak_profile None init_state).
  - simpl. lia.
  - exact I.
Defined.

(** C3, evaluated. The profile misses [tagline] and [description_short];
    the gap-fill answer supplies a tagline only. The merge completes, the
    tagline is filled and the short description is still empty, yet
    [missing_fields] becomes [["tagline"]]: the name of the field that was
    just filled is kept and the name of the field that is still missing is
    dropped. *)
Theorem merge_gap_data_keeps_the_filled_name `{Runtime} :
  ∃ d',
    AIEngineService._merge_gap_data weak_profile tagline_only = (d', Ok tt)
    ∧ ExtractedBusinessData.tagline d' = JStr "Fresh coffee daily"
    ∧ ExtractedBusinessData.description_short d' = JNull
    ∧ ExtractedBusinessData.missing_fields d' = ["tagline"].
Proof. eexists. repeat split; reflexivity. Qed.

(** ** Extraction *)

Section ExtractionFacts.
Context `{Runtime}.

Lemma parse_unparseable content :
  unparseable content → AIEngineService._parse_json_response content = JObj [].
Proof.
  intros [Hfirst Hsalvage]. unfold AIEngineService._parse_json_response.
  fold (cleaned content). rewrite Hfirst.
  destruct (0 <? rfind (cleaned content) "}") eqn:Hb; [|done].
  by rewrite Hsalvage.
Qed.

Lemma list_str_of_strings (l : list string) :
  Validate.list_str (JArr (map JStr l)) = Ok l.
Proof.
  simpl. induction l as [|s l IH]; [done|].
  simpl. by rewrite IH.
Qed.

Lemma to_business_data_empty scrape_result :
  AIEngineService._to_business_data (JObj []) scrape_result
  = Ok (default_profile scrape_result).
Proof.
  unfold AIEngineService._to_business_data. cbn -[Validate.list_str].
  rewrite v_int_JInt. cbn -[Validate.list_str].
  rewrite list_str_of_strings. done.
Qed.

(** Whatever the AI backend does, [extract_business_data] returns. *)
Lemma extract_business_data_returns w scrape_result name cb st :
  quiet cb →
  ∃ d st',
    AIEngineService.extract_business_data w scrape_result name cb st
    = (Ok d, st').
Proof.
  intros Hq. unfold AIEngineService.extract_business_data, bind at 1.
  destruct (report_quiet cb Hq "extracting"
              "Analyzing scraped data with AI..." 40 st) as [st1 ->].
  unfold try_except.
  destruct (bind _ _ st1) as [[d|e] st2]; by eexists _, _.
Qed.

(** The sibling path: when the AI call itself fails, the result is the
    minimal profile. *)
Lemma extract_call_failure_minimal w scrape_result name cb st e :
  w_extract w = Raise e →
  quiet cb →
  ∃ st',
    AIEngineService.extract_business_data w scrape_result name cb st
    = (Ok (ExtractedBusinessData.minimal name 0 ["all"]), st').
Proof.
  intros Hw Hq. unfold AIEngineService.extract_business_data, bind at 1.
  destruct (report_quiet cb Hq "extracting"
              "Analyzing scraped data with AI..." 40 st) as [st1 ->].
  unfold try_except, bind, issue, lift. rewrite Hw. by eexists.
Qed.

(** An answer that decodes to something other than a dict makes the
    conversion raise, and the result is the minimal profile as well. *)
Lemma extract_not_a_dict_minimal w scrape_result name cb st content :
  w_extract w = Ok content →
  is_dict (AIEngineService._parse_json_response content) = false →
  quiet cb →
  ∃ st',
    AIEngineService.extract_business_data w scrape_result name cb st
    = (Ok (ExtractedBusinessData.minimal name 0 ["all"]), st').
Proof.
  intros Hw Hd Hq. unfold AIEngineService.extract_business_data, bind at 1.
  destruct (report_quiet cb Hq "extracting"
              "Analyzing scraped data with AI..." 40 st) as [st1 ->].
  unfold try_except, bind, issue, lift. rewrite Hw.
  destruct (report_quiet cb Hq "extracting" "Data extracted successfully" 50
              (set_calls (calls st1 ++ [CallAnthropic "extract"]) st1))
    as [st2 ->].
  unfold AIEngineService._to_business_data.
  destruct (AIEngineService._parse_json_response content); try done;
    by eexists.
Qed.

End ExtractionFacts.

(** C2, evaluated. When the AI call succeeds and its answer cannot be
    decoded, [extract_business_data] returns, but what it returns is the
    profile built from an empty dict: name ["Business"] instead of the
    business name, quality score 50 instead of 0, and an empty
    [missing_fields] instead of [["all"]]. *)
Theorem extract_unparseable_answer_not_minimal `{Runtime}
    (w : PipelineWorld) (scrape_result : ScrapeResult.t) (name : string)
    (cb : option ProgressCallback) (st : State) (content : string) :
  w_extract w = Ok content →
  unparseable content →
  quiet cb →
  ∃ d st',
    AIEngineService.extract_business_data w scrape_result name cb st = (Ok d, st')
    ∧ d = default_profile scrape_result
    ∧ ExtractedBusinessData.business_name d = "Business"
    ∧ ExtractedBusinessData.data_quality_score d = 50
    ∧ ExtractedBusinessData.missing_fields d = []
    ∧ d ≠ ExtractedBusinessData.minimal name 0 ["all"].
Proof.
  intros Hw Hu Hq. unfold AIEngineService.extract_business_data, bind at 1.
  destruct (report_quiet cb Hq "extracting"
              "Analyzing scraped data with AI..." 40 st) as [st1 ->].
  unfold try_except, bind, issue, lift. rewrite Hw.
  destruct (report_quiet cb Hq "extracting" "Data extracted successfully" 50
              (set_calls (calls st1 ++ [CallAnthropic "extract"]) st1))
    as [st2 ->].
  rewrite (parse_unparseable _ Hu), to_business_data_empty.
  eexists _, _. repeat split. intros Heq.
  by apply (f_equal ExtractedBusinessData.data_quality_score) in Heq.
Qed.

Lemma extract_unparseable_answer_not_minimal_witness :
  ∃ d st',
    AIEngineService.extract_business_data (H := reference_runtime)
      (sample_world (Ok apology) (Ok apology)) sample_scrape "Acme Coffee"
      None init_state = (Ok d, st')
    ∧ d = default_profile sample_scrape
    ∧ ExtractedBusinessData.business_name d = "Business"
    ∧ ExtractedBusinessData.data_quality_score d = 50
    ∧ ExtractedBusinessData.missing_fields d = []
    ∧ d ≠ ExtractedBusinessData.minimal "Acme Coffee" 0 ["all"].
Proof.
  apply (extract_unparseable_answer_not_minimal (H := reference_runtime)
           (sample_world (Ok apology) (Ok apology)) sample_scrape "Acme Coffee"
           None init_state apology).
  - reflexivity.
  - split; [vm_compute; reflexivity | intros _; vm_compute; reflexivity].
  - exact I.
Defined.

(** ** Scrape stage *)

Section GatherFacts.
Context {A : Type}.

Lemma run_scheduled_spec (tasks : list (M A)) (rs : list (result A))
    (order : list nat) :
  Forall2 yields tasks rs →
  ∀ done st,
    (∀ i r, done !! i = Some r → rs !! i = Some r) →
    let done' := (ScraperService.run_scheduled tasks order done st).1 in
    (∀ i r, done' !! i = Some r → rs !! i = Some r)
    ∧ (∀ i, is_Some (done !! i) → is_Some (done' !! i))
    ∧ (∀ i, i ∈ order → (i < length tasks)%nat → is_Some (done' !! i)).
Proof.
  intros Hy. induction order as [|i order IH]; intros done st Hdone; simpl.
  - split; [done|]. split; [done|]. intros i Hi. by apply elem_of_nil in Hi.
  - destruct (done !! i) as [r0|] eqn:Hi.
    + destruct (IH done st Hdone) as (H1 & H2 & H3).
      split; [done|]. split; [done|].
      intros k Hk Hlt. apply elem_of_cons in Hk as [->|Hk]; [|by apply H3].
      apply H2. by rewrite Hi.
    + destruct (tasks !! i) as [t|] eqn:Ht.
      * destruct (t st) as [r st1] eqn:Hrun.
        assert (rs !! i = Some r) as Hr.
        { destruct (Forall2_lookup_l _ _ _ _ _ Hy Ht) as (r' & Hr' & Hyr).
          specialize (Hyr st). rewrite Hrun in Hyr. simpl in Hyr. by subst. }
        destruct (IH (<[i := r]> done) st1) as (H1 & H2 & H3).
        { intros k r' Hk. destruct (decide (i = k)) as [->|Hne].
          - rewrite lookup_insert_eq in Hk. congruence.
          - rewrite lookup_insert_ne in Hk by done. by apply Hdone. }
        split; [done|]. split.
        -- intros k Hk. apply H2. destruct (decide (i = k)) as [->|Hne].
           ++ by rewrite lookup_insert_eq.
           ++ by rewrite lookup_insert_ne.
        -- intros k Hk Hlt. apply elem_of_cons in Hk as [->|Hk]; [|by apply H3].
           apply H2. by rewrite lookup_insert_eq.
      * destruct (IH done st Hdone) as (H1 & H2 & H3).
        split; [done|]. split; [done|].
        intros k Hk Hlt. apply elem_of_cons in Hk as [->|Hk]; [|by apply H3].
        apply lookup_ge_None in Ht. exfalso.
        exact (proj1 (Nat.lt_nge _ _) Hlt Ht).
Qed.

Lemma omap_lookup_seq (done : gmap nat (result A)) (rs : list (result A)) :
  (∀ i r, done !! i = Some r → rs !! i = Some r) →
  (∀ i, (i < length rs)%nat → is_Some (done !! i)) →
  omap (λ i, done !! i) (seq 0 (length rs)) = rs.
Proof.
  intros Hsound Hall.
  assert (∀ k l, (∀ i r, done !! (k + i)%nat = Some r → l !! i = Some r) →
                 (∀ i, (i < length l)%nat → is_Some (done !! (k + i)%nat)) →
                 omap (λ i, done !! i) (seq k (length l)) = l) as Hgen.
  { intros k l. revert k. induction l as [|x l IH]; intros k Hs Ha; [done|].
    simpl. destruct (Ha 0%nat) as [r Hr]; [simpl; lia|].
    rewrite Nat.add_0_r in Hr. rewrite Hr.
    assert (x = r) as ->.
    { specialize (Hs 0%nat r). rewrite Nat.add_0_r in Hs.
      specialize (Hs Hr). by injection Hs. }
    f_equal. apply IH.
    - intros i r' Hi. apply (Hs (S i)). by rewrite Nat.add_succ_r.
    - intros i Hi. specialize (Ha (S i)). rewrite Nat.add_succ_r in Ha.
      apply Ha. simpl. lia. }
  apply (Hgen 0%nat rs); simpl; done.
Qed.

(** Whatever the schedule, [gather] returns the outcomes in the order of
    its arguments. *)
Lemma gather_yields (tasks : list (M A)) (rs : list (result A))
    (order : list nat) (st : State) :
  Forall2 yields tasks rs →
  (ScraperService.gather tasks order st).1 = Ok rs.
Proof.
  intros Hy. unfold ScraperService.gather.
  pose proof (run_scheduled_spec tasks rs (order ++ seq 0 (length tasks)) Hy
                ∅ st) as Hspec.
  destruct (ScraperService.run_scheduled tasks _ ∅ st) as [done' st'] eqn:Hrun.
  simpl in *. destruct Hspec as (H1 & _ & H3); [by intros i r; rewrite lookup_empty|].
  f_equal. rewrite (Forall2_length _ _ _ Hy). apply omap_lookup_seq; [done|].
  intros i Hi. rewrite <- (Forall2_length _ _ _ Hy) in Hi. apply H3; [|done].
  apply elem_of_app. right. apply elem_of_seq. lia.
Qed.

End GatherFacts.

Lemma dict_get_set_eq {V} (k : string) (v : V) (d : pydict V) :
  dict_get k (dict_set k v d) = Some v.
Proof.
  induction d as [|[k' v'] d IH]; simpl.
  - by rewrite String.eqb_refl.
  - destruct (String.eqb k k') eqn:E; simpl; rewrite E; [done|apply IH].
Qed.

Lemma dict_get_set_ne {V} (k k' : string) (v : V) (d : pydict V) :
  k ≠ k' → dict_get k (dict_set k' v d) = dict_get k d.
Proof.
  intros Hne. induction d as [|[k0 v0] d IH]; simpl.
  - destruct (String.eqb_spec k k'); [done|done].
  - destruct (String.eqb_spec k' k0) as [->|Hk0]; simpl.
    + destruct (String.eqb_spec k k0); [done|done].
    + destruct (String.eqb_spec k k0); [done|apply IH].
Qed.

Lemma data_truthy_spec (o : option (pydict json)) :
  ScraperService.data_truthy o = true ↔ ∃ d, o = Some d ∧ d ≠ [].
Proof.
  destruct o as [[|x d]|]; simpl; split; try done.
  - by intros (d & [= <-] & ?).
  - intros _. by eexists.
  - by intros (d & ? & ?).
Qed.

Lemma fan_in_sources items acc :
  (fold_left ScraperService.fan_in_step items acc).1
  = acc.1 ++ map source_entry items.
Proof.
  revert acc. induction items as [|[name o] items IH]; intros [sources raw]; simpl.
  - by rewrite app_nil_r.
  - rewrite IH. destruct o as [r|e]; simpl; by rewrite <- app_assoc.
Qed.

Lemma written_spec item name d :
  written item = Some (name, d)
  ↔ ∃ s, item = (name, Ok s) ∧ ScrapedSource.success s = true
         ∧ ScrapedSource.data s = Some d ∧ d ≠ [].
Proof.
  destruct item as [n [s|e]]; unfold written; simpl.
  - split.
    + destruct (ScrapedSource.data s) as [[|x d0]|] eqn:Hd; try done.
      destruct (ScrapedSource.success s) eqn:Hs; [|done].
      intros [= Hn Hd0]. subst. by exists s.
    + intros (s' & [= Hn Hs'] & Hok & Hd & Hne). subst s' n.
      rewrite Hd, Hok. by destruct d.
  - split; [done|]. by intros (s & [= ] & _).
Qed.

Lemma fan_in_step_raw acc item :
  (ScraperService.fan_in_step acc item).2
  = match written item with
    | Some (n, d) => dict_set n d acc.2
    | None => acc.2
    end.
Proof.
  destruct acc as [sources raw], item as [n [s|e]]; unfold written; simpl; [|done].
  destruct (ScrapedSource.success s), (ScrapedSource.data s) as [[|x d]|]; done.
Qed.

Lemma fan_in_raw_data items acc name d :
  NoDup (map fst items) →
  dict_get name (fold_left ScraperService.fan_in_step items acc).2 = Some d
  ↔ (∃ item, item ∈ items ∧ written item = Some (name, d))
    ∨ ((∀ item d', item ∈ items → written item ≠ Some (name, d'))
       ∧ dict_get name acc.2 = Some d).
Proof.
  revert acc. induction items as [|x items IH]; intros acc Hnd.
  - simpl. split.
    + intros Hg. right. split; [|done]. intros item d' Hin.
      by apply elem_of_nil in Hin.
    + intros [(item & Hin & _)|[_ Hg]]; [by apply elem_of_nil in Hin|done].
  - simpl in Hnd. apply NoDup_cons in Hnd as [Hx Hnd].
    cbn [fold_left]. rewrite IH by done. clear IH.
    rewrite fan_in_step_raw.
    assert (∀ item d', item ∈ items → written item = Some (x.1, d') → False)
      as Hfresh.
    { intros item d' Hin Hw. apply Hx. apply list_elem_of_fmap.
      exists item. split; [|done].
      destruct item as [n [s|e]]; unfold written in Hw; simpl in *; [|done].
      destruct (ScrapedSource.data s) as [[|? ?]|]; try done.
      destruct (ScrapedSource.success s); [|done]. by injection Hw. }
    destruct (written x) as [[n d0]|] eqn:Hw.
    + assert (n = x.1) as ->.
      { destruct x as [n' [s|e]]; unfold written in Hw; simpl in *; [|done].
        destruct (ScrapedSource.data s) as [[|? ?]|]; try done.
        destruct (ScrapedSource.success s); [|done]. by injection Hw. }
      destruct (decide (name = x.1)) as [->|Hne].
      * rewrite dict_get_set_eq. split.
        -- intros [(item & Hin & Hi)|[_ [= <-]]].
           ++ by destruct (Hfresh item d Hin Hi).
           ++ left. exists x. split; [by left|done].
        -- intros [(item & Hin & Hi)|[Hno _]].
           ++ apply elem_of_cons in Hin as [->|Hin].
              ** right. split; [|congruence].
                 intros item d' Hin'. intros Hi'. by destruct (Hfresh item d' Hin' Hi').
              ** by destruct (Hfresh item d Hin Hi).
           ++ destruct (Hno x d0); [by left|done].
      * rewrite dict_get_set_ne by done. split.
        -- intros [(item & Hin & Hi)|[Hno Hg]].
           ++ left. exists item. split; [by right|done].
           ++ right. split; [|done]. intros item d' Hin.
              apply elem_of_cons in Hin as [->|Hin]; [|by apply Hno].
              rewrite Hw. by intros [= Heq _].
        -- intros [(item & Hin & Hi)|[Hno Hg]].
           ++ apply elem_of_cons in Hin as [->|Hin].
              ** rewrite Hw in Hi. by injection Hi as Heq _.
              ** left. by exists item.
           ++ right. split; [|done]. intros item d' Hin. apply Hno. by right.
    + split.
      * intros [(item & Hin & Hi)|[Hno Hg]].
        -- left. exists item. split; [by right|done].
        -- right. split; [|done]. intros item d' Hin.
           apply elem_of_cons in Hin as [->|Hin]; [by rewrite Hw|by apply Hno].
      * intros [(item & Hin & Hi)|[Hno Hg]].
        -- apply elem_of_cons in Hin as [->|Hin]; [by rewrite Hw in Hi|].
           left. by exists item.
        -- right. split; [|done]. intros item d' Hin. apply Hno. by right.
Qed.

Lemma connector_yields tag o :
  yields (ScraperService.connector tag o) (conn_result tag o).
Proof. intros st. unfold ScraperService.connector, bind, issue. by destruct o. Qed.

Lemma tasks_yield (w : PipelineWorld) (request : JobCreateRequest.t) :
  Forall2 yields
    [ if truthy_opt_str (JobCreateRequest.location request)
      then ScraperService._scrape_google_places w
      else ScraperService._empty_result "google";
      if bool_decide (is_Some (JobCreateRequest.website_url request))
      then ScraperService._scrape_website w
      else ScraperService._empty_result "website";
      if bool_decide (is_Some (JobCreateRequest.facebook_url request))
      then ScraperService._scrape_facebook w
      else ScraperService._empty_result "facebook";
      if truthy_opt_str (JobCreateRequest.instagram_url request)
      then ScraperService._scrape_instagram w
      else ScraperService._empty_result "instagram" ]
    (outcomes w request).
Proof.
  unfold outcomes.
  repeat (apply Forall2_cons; split;
          [destruct (_ : bool); [apply connector_yields|by intros st]|]).
  apply Forall2_nil_2.
Qed.

Lemma source_entry_tag (w : PipelineWorld) (request : JobCreateRequest.t) :
  map ScrapedSource.source
      (map source_entry (zip ScraperService.source_names (outcomes w request)))
  = ScraperService.source_names.
Proof.
  unfold outcomes, ScraperService.source_names, source_entry, conn_result.
  destruct (truthy_opt_str (JobCreateRequest.location request)),
    (bool_decide (is_Some (JobCreateRequest.website_url request))),
    (bool_decide (is_Some (JobCreateRequest.facebook_url request))),
    (truthy_opt_str (JobCreateRequest.instagram_url request));
    destruct (w_google w), (w_website w), (w_facebook w), (w_instagram w);
    reflexivity.
Qed.

(** C5. For every request, every way the four connectors end and every
    order in which they complete, [scrape_all] returns a result whose
    [sources] holds one entry per source in the order google, website,
    facebook, instagram (the record the connector returned, or a failure
    record when it raised), and whose [raw_data] maps a tag to a payload
    exactly when the record of that source reports success and carries
    that payload, non-empty. *)
Theorem scrape_all_fan_in
    (w : PipelineWorld) (request : JobCreateRequest.t)
    (cb : option ProgressCallback) (st : State) :
  quiet cb →
  ∃ r st',
    ScraperService.scrape_all w request cb st = (Ok r, st')
    ∧ ScrapeResult.sources r
      = map source_entry (zip ScraperService.source_names (outcomes w request))
    ∧ map ScrapedSource.source (ScrapeResult.sources r)
      = ["google"; "website"; "facebook"; "instagram"]
    ∧ ∀ name d,
        dict_get name (ScrapeResult.raw_data r) = Some d
        ↔ ∃ s, (name, Ok s) ∈ zip ScraperService.source_names (outcomes w request)
               ∧ ScrapedSource.success s = true
               ∧ ScrapedSource.data s = Some d ∧ d ≠ [].
Proof.
  intros Hq. unfold ScraperService.scrape_all.
  unfold bind at 1.
  destruct (report_quiet cb Hq "scraping" "Scraping data sources..." 10 st)
    as [st1 ->].
  unfold bind at 1.
  pose proof (gather_yields _ _ (w_schedule w) st1 (tasks_yield w request)) as Hg.
  destruct (ScraperService.gather _ _ st1) as [results st2]. simpl in Hg. subst.
  pose proof (fan_in_sources
                (zip ScraperService.source_names (outcomes w request)) ([], []))
    as Hsrc.
  pose proof (λ name d, fan_in_raw_data
                (zip ScraperService.source_names (outcomes w request)) ([], [])
                name d) as Hraw.
  fold (ScraperService.fan_in (outcomes w request)) in Hsrc, Hraw.
  destruct (ScraperService.fan_in (outcomes w request)) as [sources raw_data].
  simpl in Hsrc, Hraw. unfold bind.
  destruct (report_quiet cb Hq "scraping"
              ("Scraped " +:+ pretty (ScraperService.count_successful sources)
               +:+ "/" +:+ pretty (length sources) +:+ " sources") 30 st2)
    as [st3 ->].
  eexists _, _. split; [done|]. simpl. split; [done|]. split.
  - rewrite Hsrc. apply source_entry_tag.
  - intros name d. rewrite Hraw.
    + split.
      * intros [(item & Hin & Hw)|[_ ?]]; [|done].
        apply written_spec in Hw as (s & -> & Hs). by exists s.
      * intros (s & Hin & Hs). left. exists (name, Ok s). split; [done|].
        apply written_spec. by exists s.
    + unfold outcomes, ScraperService.source_names. simpl.
      apply (bool_decide_unpack _). by vm_compute.
Qed.

Lemma scrape_all_fan_in_witness :
  ∃ r st',
    ScraperService.scrape_all mixed_world full_request None init_state
    = (Ok r, st')
    ∧ ScrapeResult.sources r
      = map source_entry
            (zip ScraperService.source_names (outcomes mixed_world full_request))
    ∧ map ScrapedSource.source (ScrapeResult.sources r)
      = ["google"; "website"; "facebook"; "instagram"]
    ∧ ∀ name d,
        dict_get name (ScrapeResult.raw_data r) = Some d
        ↔ ∃ s, (name, Ok s)
                 ∈ zip ScraperService.source_names
                       (outcomes mixed_world full_request)
               ∧ ScrapedSource.success s = true
               ∧ ScrapedSource.data s = Some d ∧ d ≠ [].
Proof.
  apply (scrape_all_fan_in mixed_world full_request None init_state). exact I.
Defined.

(** ** Preview and deploy guards *)

(** C6. For a stored job without a generated site, the preview and the
    deploy request are both rejected (status 400); for a stored job that
    already carries a deployment, a deploy request is rejected (status 400,
    detail "Already deployed" when the site exists). Each rejection leaves
    the process state as it was, whatever the hosting API would answer: no
    remote call is issued and the job keeps its one deployment. *)
Theorem preview_and_deploy_guards `{Runtime}
    (st : State) (job_id : string) (job : nat) (j : Job.t) :
  jobs st !! job_id = Some job →
  heap st !! job = Some j →
  (Job.generated_site j = None →
     Main.get_job_preview job_id st
     = (Ok (HTTPException 400 "Website not yet generated"), st)
     ∧ ∀ dw request,
         Main.deploy_job dw job_id request st
         = (Ok (HTTPException 400 "Website not yet generated"), st))
  ∧ (is_Some (Job.deployment j) →
     ∀ dw request,
       ∃ detail,
         Main.deploy_job dw job_id request st
         = (Ok (HTTPException 400 detail), st)
         ∧ calls (Main.deploy_job dw job_id request st).2 = calls st
         ∧ (is_Some (Job.generated_site j) → detail = "Already deployed")).
Proof.
  intros Hjob Hj. split.
  - intros Hsite. split.
    + unfold Main.get_job_preview, bind, JobStore.get, deref.
      rewrite Hjob, Hj. simpl. by rewrite Hsite.
    + intros dw request.
      unfold Main.deploy_job, bind at 1, JobStore.get. rewrite Hjob.
      unfold bind at 1, deref. rewrite Hj. simpl. by rewrite Hsite.
  - intros [d Hd] dw request.
    exists (match Job.generated_site j with
            | Some _ => "Already deployed"
            | None => "Website not yet generated"
            end).
    assert (Main.deploy_job dw job_id request st
            = (Ok (HTTPException 400
                     (match Job.generated_site j with
                      | Some _ => "Already deployed"
                      | None => "Website not yet generated"
                      end)), st)) as Heq.
    { unfold Main.deploy_job, bind at 1, JobStore.get. rewrite Hjob.
      unfold bind at 1, deref. rewrite Hj. simpl. rewrite Hd.
      by destruct (Job.generated_site j). }
    rewrite Heq. split; [done|]. split; [done|].
    intros [site Hsite]. by rewrite Hsite.
Qed.

Lemma preview_and_deploy_guards_witness :
  (Main.get_job_preview "job-1" fresh_state
   = (Ok (HTTPException 400 "Website not yet generated"), fresh_state)
   ∧ ∀ dw request,
       Main.deploy_job (H := reference_runtime) dw "job-1" request fresh_state
       = (Ok (HTTPException 400 "Website not yet generated"), fresh_state))
  ∧ (∀ dw request,
       ∃ detail,
         Main.deploy_job (H := reference_runtime) dw "job-1" request
           deployed_state
         = (Ok (HTTPException 400 detail), deployed_state)
         ∧ calls (Main.deploy_job (H := reference_runtime) dw "job-1" request
                    deployed_state).2 = calls deployed_state
         ∧ (is_Some (Job.generated_site deployed_job) →
            detail = "Already deployed")).
Proof.
  split.
  - apply (preview_and_deploy_guards (H := reference_runtime) fresh_state
             "job-1" 0%nat (sample_job 0)); reflexivity.
  - apply (preview_and_deploy_guards (H := reference_runtime) deployed_state
             "job-1" 0%nat deployed_job);
      [vm_compute; reflexivity|vm_compute; reflexivity|].
    vm_compute. eexists. reflexivity.
Defined.

(** ** Deployment *)

Lemma quiet_step_refl st : quiet_step st st.
Proof. by repeat split. Qed.

Lemma quiet_step_trans st1 st2 st3 :
  quiet_step st1 st2 → quiet_step st2 st3 → quiet_step st1 st3.
Proof. intros (? & ? & ?) (? & ? & ?). repeat split; congruence. Qed.

Lemma silent_ret {A} (a : A) : silent (ret a).
Proof. intros st. apply quiet_step_refl. Qed.

Lemma silent_raise {A} (e : exn) : silent (raise (A := A) e).
Proof. intros st. apply quiet_step_refl. Qed.

Lemma silent_lift {A} (r : result A) : silent (lift r).
Proof. intros st. apply quiet_step_refl. Qed.

Lemma silent_issue c : silent (issue c).
Proof. intros st. by repeat split. Qed.

Lemma silent_utcnow : silent utcnow.
Proof. intros st. by repeat split. Qed.

Lemma silent_bind {A B} (c : M A) (k : A → M B) :
  silent c → (∀ a, silent (k a)) → silent (bind c k).
Proof.
  intros Hc Hk st. unfold bind. specialize (Hc st).
  destruct (c st) as [[a|e] st1]; simpl in *; [|done].
  eapply quiet_step_trans; [done|apply Hk].
Qed.

Lemma silent_try_except {A} (c : M A) (h : exn → M A) :
  silent c → (∀ e, silent (h e)) → silent (try_except c h).
Proof.
  intros Hc Hh st. unfold try_except. specialize (Hc st).
  destruct (c st) as [[a|e] st1]; simpl in *; [done|].
  eapply quiet_step_trans; [done|apply Hh].
Qed.

Create HintDb silent.
#[export] Hint Resolve silent_ret silent_raise silent_lift silent_issue
  silent_utcnow : silent.

(** Descends through the sequencing and the case distinctions of a
    computation down to its primitive steps. *)
Ltac silent_step :=
  first
    [ solve [auto with silent]
    | match goal with
      | |- silent (bind _ _) => apply silent_bind; [|intros ?]
      | |- silent (try_except _ _) => apply silent_try_except; [|intros ?]
      | |- silent (match ?x with _ => _ end) => destruct x
      | |- silent (if ?b then _ else _) => destruct b
      | |- silent (let _ := _ in _) => cbv zeta
      end ].

Section DeployFacts.
Context `{Runtime}.

Lemma silent_request endpoint o : silent (VercelDeployer.request endpoint o).
Proof. unfold VercelDeployer.request. repeat silent_step. Qed.

Lemma silent_json_of body : silent (VercelDeployer.json_of body).
Proof. unfold VercelDeployer.json_of. repeat silent_step. Qed.

Lemma silent_sleep seconds : silent (VercelDeployer.sleep seconds).
Proof. intros st. by repeat split. Qed.

Hint Resolve silent_request silent_json_of silent_sleep : silent.

Lemma silent_poll dw remaining attempt :
  silent (VercelDeployer.poll dw remaining attempt).
Proof.
  revert attempt. induction remaining as [|n IH]; intros attempt; simpl.
  - auto with silent.
  - repeat silent_step.
Qed.

Lemma silent_ensure_project dw slug :
  silent (VercelDeployer._ensure_project dw slug).
Proof. unfold VercelDeployer._ensure_project. repeat silent_step. Qed.

Lemma silent_create_deployment dw slug project_id files :
  silent (VercelDeployer._create_deployment dw slug project_id files).
Proof. unfold VercelDeployer._create_deployment. repeat silent_step. Qed.

Lemma silent_configure_domain dw project_id domain :
  silent (VercelDeployer._configure_domain dw project_id domain).
Proof. unfold VercelDeployer._configure_domain. repeat silent_step. Qed.

Hint Resolve silent_poll silent_ensure_project silent_create_deployment
  silent_configure_domain : silent.

(** A deployment touches neither the job objects nor the store. *)
Lemma silent_deploy dw html name custom_domain :
  silent (VercelDeployer.deploy dw html name custom_domain).
Proof.
  unfold VercelDeployer.deploy, VercelDeployer._wait_for_ready.
  repeat silent_step.
Qed.

End DeployFacts.

(** *** The primitive steps on a job object *)

Lemma setattr_eq job f st :
  setattr job f st = (Ok tt, set_heap (alter f job (heap st)) st).
Proof. reflexivity. Qed.

Lemma update_eq job j st :
  heap st !! job = Some j →
  JobStore.update job st = (Ok job, updated job j st).
Proof.
  intros Hj. unfold JobStore.update, bind, utcnow, setattr, deref, updated.
  simpl. rewrite lookup_alter_eq, Hj. reflexivity.
Qed.

Lemma notify_eq job_id job j st :
  heap st !! job = Some j →
  Main.notify_job_update job_id job st
  = (Ok tt, set_notified (notified st ++ [(job_id, j)]) st).
Proof.
  intros Hj. unfold Main.notify_job_update, bind, deref. by rewrite Hj.
Qed.

Lemma lookup_insert_same {V} (m : gmap string V) (k k' : string) (v : V) :
  m !! k = Some v → <[k' := v]> m !! k = Some v.
Proof.
  intros Hk. destruct (decide (k' = k)) as [->|Hne].
  - apply lookup_insert_eq.
  - by rewrite lookup_insert_ne.
Qed.

(** Looks a job up in a heap built by the primitive steps. *)
Ltac heap_lookup :=
  repeat (progress
            (simpl; repeat rewrite lookup_alter_eq;
             try match goal with
                 | H : heap ?s !! _ = Some _ |- context [heap ?s !! _] =>
                     rewrite H
                 | H : heap ?s = heap _ |- context [heap ?s] => rewrite H
                 end));
  try reflexivity.

(** What a deploy request does to a job that has a site and no
    deployment: it pushes a snapshot with status deploying, then one with
    status completed (and the deployment recorded) or failed (and the error
    recorded). The error recorded before the request is never cleared. *)
Lemma deploy_job_transition `{Runtime}
    (dw : DeployWorld) (job_id : string) (request : DeployRequest.t)
    (st : State) (job : nat) (j : Job.t) (site : GeneratedSite.t) :
  jobs st !! job_id = Some job →
  heap st !! job = Some j →
  Job.generated_site j = Some site →
  Job.deployment j = None →
  ∃ reply st' j1 j2,
    Main.deploy_job dw job_id request st = (Ok reply, st')
    ∧ notified st' = notified st ++ [(job_id, j1); (job_id, j2)]
    ∧ heap st' !! job = Some j2
    ∧ jobs st' !! job_id = Some job
    ∧ Job.status j1 = DEPLOYING ∧ Job.error j1 = Job.error j
    ∧ Job.generated_site j2 = Some site
    ∧ ((∃ d, reply = Replied (JobResponse.mk j2 "Deployed successfully")
             ∧ Job.status j2 = COMPLETED ∧ Job.deployment j2 = Some d
             ∧ Job.error j2 = Job.error j)
       ∨ (∃ detail, reply = HTTPException 500 detail
                    ∧ Job.status j2 = FAILED
                    ∧ Job.error j2 = Some ("Deployment failed: " +:+ detail)
                    ∧ Job.deployment j2 = None)).
Proof.
  intros Hjob Hj Hsite Hdep.
  unfold Main.deploy_job, bind at 1, JobStore.get. rewrite Hjob.
  unfold bind at 1, deref. rewrite Hj.
  change (default blank_job (Some j)) with j. rewrite Hsite, Hdep.
  unfold bind at 1, try_except.
  unfold bind at 1. rewrite setattr_eq.
  unfold bind at 1.
  rewrite (update_eq job (Job.set_status DEPLOYING j)) by heap_lookup.
  unfold bind at 1.
  set (j1 := Job.set_updated_at (clock st) (Job.set_status DEPLOYING j)).
  rewrite (notify_eq job_id job j1) by (subst j1; heap_lookup).
  unfold bind at 1.
  match goal with
  | |- context [VercelDeployer.deploy ?a ?b ?c ?d ?s] =>
      pose proof (silent_deploy a b c d s) as Hq;
      destruct (VercelDeployer.deploy a b c d s) as [[d0|e] sB]
  end; simpl in Hq; destruct Hq as (Hh & Hjb & Hn).
  - assert (heap sB !! job = Some j1) as HjB by (rewrite Hh; subst j1; heap_lookup).
    unfold bind at 1. rewrite setattr_eq.
    unfold bind at 1. rewrite setattr_eq.
    unfold bind at 1. unfold utcnow at 1. cbn [fst snd].
    unfold bind at 1. rewrite setattr_eq.
    set (j2a := Job.set_updated_at (clock sB)
                  (Job.set_status COMPLETED
                     (Job.set_deployment (Some d0) j1))).
    unfold bind at 1.
    rewrite (update_eq job j2a) by (subst j2a; heap_lookup).
    set (j2 := Job.set_updated_at (clock sB + 1) j2a).
    unfold bind at 1.
    rewrite (notify_eq job_id job j2) by (subst j2 j2a; heap_lookup).
    unfold ret at 1. unfold bind, deref, ret.
    eexists _, _, j1, j2. split.
    { reflexivity. }
    split. { simpl. rewrite Hn. simpl. by rewrite <- app_assoc. }
    split. { subst j2 j2a. heap_lookup. }
    split. { simpl. apply lookup_insert_same. rewrite Hjb. simpl.
             by apply lookup_insert_same. }
    split; [done|]. split; [done|]. split; [done|].
    left. exists d0. split; [|by repeat split].
    do 2 f_equal. subst j2 j2a. heap_lookup.
  - assert (heap sB !! job = Some j1) as HjB by (rewrite Hh; subst j1; heap_lookup).
    unfold bind at 1. rewrite setattr_eq.
    unfold bind at 1. rewrite setattr_eq.
    set (j2a := Job.set_error (Some ("Deployment failed: " +:+ exn_msg e))
                  (Job.set_status FAILED j1)).
    unfold bind at 1.
    rewrite (update_eq job j2a) by (subst j2a; heap_lookup).
    set (j2 := Job.set_updated_at (clock sB) j2a).
    unfold bind at 1.
    rewrite (notify_eq job_id job j2) by (subst j2 j2a; heap_lookup).
    unfold ret.
    eexists _, _, j1, j2. split; [reflexivity|].
    split. { simpl. rewrite Hn. simpl. by rewrite <- app_assoc. }
    split. { subst j2 j2a. heap_lookup. }
    split. { simpl. apply lookup_insert_same. rewrite Hjb. simpl.
             by apply lookup_insert_same. }
    split; [done|]. split; [done|]. split; [done|].
    right. exists (exn_msg e). by repeat split.
Qed.

(** ** Pipeline traces *)

Lemma trace_step_app job_id job l1 l2 st1 st2 st3 :
  trace_step job_id job l1 st1 st2 →
  trace_step job_id job l2 st2 st3 →
  trace_step job_id job (l1 ++ l2) st1 st3.
Proof.
  induction 1 as [st|st st' st'' l Hq _ IH|st stage m p st'' l _ IH];
    intros H2; simpl.
  - done.
  - eapply trace_quiet; [done|by apply IH].
  - apply trace_progress with m p. by apply IH.
Qed.

Lemma trace_step_quiet job_id job st st' :
  quiet_step st st' → trace_step job_id job [] st st'.
Proof. intros Hq. eapply trace_quiet; [done|apply trace_done]. Qed.

Lemma emits_silent {A} job_id job s (c : M A) :
  silent c → emits job_id job s c.
Proof.
  intros Hc st. exists []. split; [|done]. apply trace_step_quiet, Hc.
Qed.

Lemma emits_bind {A B} job_id job s (c : M A) (k : A → M B) :
  emits job_id job s c → (∀ a, emits job_id job s (k a)) →
  emits job_id job s (bind c k).
Proof.
  intros Hc Hk st. unfold bind. destruct (Hc st) as (l1 & Ht1 & Hl1).
  destruct (c st) as [[a|e] st1]; simpl in *; [|by exists l1].
  destruct (Hk a st1) as (l2 & Ht2 & Hl2).
  exists (l1 ++ l2). split; [by eapply trace_step_app|by apply Forall_app].
Qed.

Lemma emits_try_except {A} job_id job s (c : M A) (h : exn → M A) :
  emits job_id job s c → (∀ e, emits job_id job s (h e)) →
  emits job_id job s (try_except c h).
Proof.
  intros Hc Hh st. unfold try_except. destruct (Hc st) as (l1 & Ht1 & Hl1).
  destruct (c st) as [[a|e] st1]; simpl in *; [by exists l1|].
  destruct (Hh e st1) as (l2 & Ht2 & Hl2).
  exists (l1 ++ l2). split; [by eapply trace_step_app|by apply Forall_app].
Qed.

Lemma emits_on_progress job_id job s message percent :
  emits job_id job s (Main.on_progress job_id job s message percent).
Proof.
  intros st. exists [s]. split; [|by repeat constructor].
  apply trace_progress with message percent. apply trace_done.
Qed.

Lemma emits_report job_id job s message percent :
  emits job_id job s
    (report (Some (Main.on_progress job_id job)) s message percent).
Proof. apply emits_on_progress. Qed.

Create HintDb emits.
#[export] Hint Resolve emits_on_progress emits_report : emits.

Ltac emits_step :=
  first
    [ solve [auto with emits]
    | solve [apply emits_silent; auto with silent]
    | match goal with
      | |- emits _ _ _ (bind _ _) => apply emits_bind; [|intros ?]
      | |- emits _ _ _ (try_except _ _) => apply emits_try_except; [|intros ?]
      | |- emits _ _ _ (match ?x with _ => _ end) => destruct x
      | |- emits _ _ _ (if ?b then _ else _) => destruct b
      | |- emits _ _ _ (let _ := _ in _) => cbv zeta
      end ].

Lemma silent_run_scheduled {A} (tasks : list (M A)) order done st :
  Forall silent tasks →
  quiet_step st (ScraperService.run_scheduled tasks order done st).2.
Proof.
  intros Hs. revert done st.
  induction order as [|i order IH]; intros done st; simpl.
  - apply quiet_step_refl.
  - destruct (done !! i); [apply IH|].
    destruct (tasks !! i) as [t|] eqn:Ht; [|apply IH].
    pose proof (Forall_lookup_1 _ _ _ _ Hs Ht st) as Hq.
    destruct (t st) as [r st1]. simpl in Hq.
    eapply quiet_step_trans; [done|apply IH].
Qed.

Lemma silent_gather {A} (tasks : list (M A)) order :
  Forall silent tasks → silent (ScraperService.gather tasks order).
Proof.
  intros Hs st. unfold ScraperService.gather.
  pose proof (silent_run_scheduled tasks (order ++ seq 0 (length tasks)) ∅ st Hs)
    as Hq.
  by destruct (ScraperService.run_scheduled tasks _ ∅ st).
Qed.

Lemma silent_connector tag o : silent (ScraperService.connector tag o).
Proof. unfold ScraperService.connector. repeat silent_step. Qed.

Lemma silent_empty_result tag : silent (ScraperService._empty_result tag).
Proof. apply silent_ret. Qed.

Section StageFacts.
Context `{Runtime}.
Variables (job_id : string) (job : nat).

Lemma emits_scrape_all w request :
  emits job_id job "scraping"
    (ScraperService.scrape_all w request (Some (Main.on_progress job_id job))).
Proof.
  unfold ScraperService.scrape_all. cbv zeta.
  apply emits_bind; [auto with emits|intros _].
  apply emits_bind.
  - apply emits_silent, silent_gather.
    repeat (apply Forall_cons; split;
            [destruct (_ : bool);
             [apply silent_connector|apply silent_empty_result]|]).
    apply Forall_nil_2.
  - intros results. destruct (ScraperService.fan_in results).
    repeat emits_step.
Qed.

Lemma emits_extract w scrape_result name :
  emits job_id job "extracting"
    (AIEngineService.extract_business_data w scrape_result name
       (Some (Main.on_progress job_id job))).
Proof. unfold AIEngineService.extract_business_data. repeat emits_step. Qed.

Lemma emits_fill_gaps w data :
  emits job_id job "extracting"
    (AIEngineService.fill_gaps w data (Some (Main.on_progress job_id job))).
Proof. unfold AIEngineService.fill_gaps. repeat emits_step. Qed.

Lemma emits_generate w data :
  emits job_id job "generating"
    (WebsiteGeneratorService.generate w data
       (Some (Main.on_progress job_id job))).
Proof.
  unfold WebsiteGeneratorService.generate,
    WebsiteGeneratorService._generate_with_21st_dev,
    WebsiteGeneratorService._generate_with_claude.
  repeat emits_step.
Qed.

End StageFacts.

Lemma forward_block s l : Forall (eq s) l → forward l.
Proof.
  induction 1 as [|x l <- Hl IH]; simpl; [done|]. split; [|done].
  eapply Forall_impl; [exact Hl|]. by intros ? <-.
Qed.

Lemma forward_block_app s l1 l2 :
  Forall (eq s) l1 → forward l2 → Forall (λ x, (rank s <= rank x)%nat) l2 →
  forward (l1 ++ l2).
Proof.
  intros H1 H2 Hr. induction H1 as [|x l <- Hl IH]; simpl; [done|].
  split; [|done]. apply Forall_app. split; [|done].
  eapply Forall_impl; [exact Hl|]. by intros ? <-.
Qed.

Section GoodFacts.
Context {A B : Type} (job_id : string) (job : nat).

Lemma good_ret r (a : A) : good job_id job r [] (ret a).
Proof.
  intros st. exists []. split; [apply trace_done|]. by repeat split.
Qed.

Lemma good_bind_emits r s need (c : M A) (k : A → M B) :
  emits job_id job s c →
  (r <= rank s)%nat →
  (∀ a, good job_id job (rank s) need (k a)) →
  good job_id job r need (bind c k).
Proof.
  intros Hc Hr Hk st. unfold bind. destruct (Hc st) as (l1 & Ht1 & Hl1).
  destruct (c st) as [[a|e] st1]; simpl in *.
  - destruct (Hk a st1) as (l2 & Ht2 & Hf2 & Hr2 & Hn2).
    exists (l1 ++ l2). split; [by eapply trace_step_app|].
    split; [by eapply forward_block_app|]. split.
    + apply Forall_app. split.
      * eapply Forall_impl; [exact Hl1|]. by intros ? <-.
      * eapply Forall_impl; [exact Hr2|]. intros x Hx. simpl in Hx. lia.
    + intros b Hb. eapply Forall_impl; [by apply (Hn2 b)|].
      intros x Hx. simpl in Hx. apply elem_of_app. by right.
  - exists l1. split; [done|]. split; [by eapply forward_block|]. split.
    + eapply Forall_impl; [exact Hl1|]. by intros ? <-.
    + by intros b.
Qed.

Lemma good_bind_progress r s need message percent (k : unit → M B) :
  (r <= rank s)%nat →
  (∀ a, good job_id job (rank s) need (k a)) →
  good job_id job r (s :: need)
    (bind (Main.on_progress job_id job s message percent) k).
Proof.
  intros Hr Hk st. unfold bind.
  destruct (Main.on_progress job_id job s message percent st)
    as [[[]|e] st1] eqn:Hrun.
  - destruct (Hk tt st1) as (l2 & Ht2 & Hf2 & Hr2 & Hn2).
    exists (s :: l2). split.
    { apply trace_progress with message percent. by rewrite Hrun. }
    split; [by split|]. split.
    + apply Forall_cons. split; [done|].
      eapply Forall_impl; [exact Hr2|]. intros x Hx. simpl in Hx. lia.
    + intros b Hb. apply Forall_cons. split; [by left|].
      eapply Forall_impl; [by apply (Hn2 b)|].
      intros x Hx. simpl in Hx. by right.
  - exists [s]. split.
    { apply trace_progress with message percent. rewrite Hrun. apply trace_done. }
    split; [by split|]. split; [by repeat constructor|by intros b].
Qed.

End GoodFacts.

(** The orchestrator reports the stages in pipeline order, and a run that
    returns has reported each of them. *)
Lemma good_run `{Runtime} job_id job w request :
  good job_id job 0 ["scraping"; "extracting"; "generating"; "completed"]
    (WebsiteGeneratorOrchestrator.run w request
       (Some (Main.on_progress job_id job))).
Proof.
  unfold WebsiteGeneratorOrchestrator.run. cbv zeta.
  apply good_bind_progress; [vm_compute; lia|intros _].
  apply good_bind_emits with "scraping";
    [apply emits_scrape_all|vm_compute; lia|intros scrape_result].
  apply good_bind_progress; [vm_compute; lia|intros _].
  apply good_bind_emits with "extracting";
    [apply emits_extract|vm_compute; lia|intros extracted].
  apply good_bind_emits with "extracting"; [|vm_compute; lia|intros data].
  { destruct (_ || _); [|by apply emits_silent, silent_ret].
    apply emits_bind; [apply emits_on_progress|intros _].
    apply emits_fill_gaps. }
  apply good_bind_progress; [vm_compute; lia|intros _].
  apply good_bind_emits with "generating";
    [apply emits_generate|vm_compute; lia|intros site].
  apply good_bind_progress; [vm_compute; lia|intros _].
  apply good_ret.
Qed.

Lemma same_core_refl j : same_core j j.
Proof. by repeat split. Qed.

Lemma same_core_trans j1 j2 j3 :
  same_core j1 j2 → same_core j2 j3 → same_core j1 j3.
Proof.
  intros (?&?&?&?&?&?&?&?) (?&?&?&?&?&?&?&?). repeat split; congruence.
Qed.

(** One call of the progress callback: the job gets the stage tag and a
    log entry, is written back to the store and pushed. *)
Lemma on_progress_spec job_id job stage message percent st j :
  heap st !! job = Some j →
  ∃ j' st',
    Main.on_progress job_id job stage message percent st = (Ok tt, st')
    ∧ heap st' !! job = Some j'
    ∧ notified st' = notified st ++ [(job_id, j')]
    ∧ jobs st' = <[Job.id j := job]> (jobs st)
    ∧ same_core j j'
    ∧ Job.current_stage j' = Some stage.
Proof.
  intros Hj. unfold Main.on_progress.
  unfold bind at 1. rewrite setattr_eq.
  unfold bind at 1, utcnow at 1. cbn [fst snd].
  unfold bind at 1. rewrite setattr_eq.
  unfold bind at 1, utcnow at 1. cbn [fst snd].
  unfold bind at 1. rewrite setattr_eq.
  set (j1 := Job.set_updated_at (clock st + 1)
               (Job.set_progress
                  (Job.progress j
                   ++ [JobProgress.mk stage message percent (clock st)])
                  (Job.set_current_stage (Some stage) j))).
  unfold bind at 1.
  rewrite (update_eq job j1) by (subst j1; heap_lookup).
  set (j2 := Job.set_updated_at (clock st + 1 + 1) j1).
  rewrite (notify_eq job_id job j2) by (subst j2 j1; heap_lookup).
  exists j2. eexists. split; [reflexivity|].
  split; [subst j2 j1; heap_lookup|].
  split; [done|]. split; [done|]. split; [by repeat split|done].
Qed.

(** The callback of [process_job] returns on every call. *)
Lemma on_progress_returns job_id job : returns (Main.on_progress job_id job).
Proof.
  intros stage message percent st.
  unfold Main.on_progress, JobStore.update, Main.notify_job_update, bind,
    setattr, utcnow, deref.
  by eexists.
Qed.

Lemma trace_step_spec job_id job l st st' :
  trace_step job_id job l st st' →
  ∀ j, heap st !! job = Some j →
  ∃ snaps j',
    notified st' = notified st ++ map (pair job_id) snaps
    ∧ stages snaps = l
    ∧ Forall (same_core j) snaps
    ∧ heap st' !! job = Some j'
    ∧ same_core j j'
    ∧ (∀ k, jobs st !! k = Some job → jobs st' !! k = Some job).
Proof.
  induction 1 as [st|st st' st'' l (Hh & Hjb & Hn) _ IH
                 |st stage m p st'' l _ IH]; intros j Hj.
  - exists [], j. rewrite app_nil_r. by repeat split.
  - destruct (IH j) as (snaps & j' & Hn' & Hs & Hc & Hj' & Hcore & Hk);
      [by rewrite Hh|].
    exists snaps, j'. rewrite Hn', Hn.
    split; [done|]. split; [done|]. split; [done|]. split; [done|].
    split; [done|]. intros k Hkj. apply Hk. by rewrite Hjb.
  - destruct (on_progress_spec job_id job stage m p st j Hj)
      as (j1 & st1 & Hrun & Hj1 & Hn1 & Hjb1 & Hcore1 & Hstage).
    rewrite Hrun in IH. simpl in IH.
    destruct (IH j1 Hj1) as (snaps & j' & Hn' & Hs & Hc & Hj' & Hcore & Hk).
    exists (j1 :: snaps), j'. split.
    { rewrite Hn', Hn1. simpl. by rewrite <- app_assoc. }
    split. { unfold stages in *. rewrite <- Hs. cbn. by rewrite Hstage. }
    split.
    { apply Forall_cons. split; [done|].
      eapply Forall_impl; [exact Hc|].
      intros x Hx. by eapply same_core_trans. }
    split; [done|]. split; [by eapply same_core_trans|].
    intros k Hkj. apply Hk. rewrite Hjb1. by apply lookup_insert_same.
Qed.

(** What [create_job] leaves: a new object in the pending state, stored
    under its id; nothing is pushed. *)
Lemma create_job_eq request job_id st :
  let j0 := Job.mk job_id PENDING (clock st) (clock st) request [] None
                   None None None None None None in
  ∃ st1,
    Main.create_job request job_id st
    = (Ok (JobResponse.mk j0 "Job created successfully"), st1)
    ∧ heap st1 !! next_ref st = Some j0
    ∧ jobs st1 !! job_id = Some (next_ref st)
    ∧ notified st1 = notified st.
Proof.
  intros j0. unfold Main.create_job, JobStore.create, utcnow, new_job,
    deref, ret, bind.
  cbn [heap jobs notified clock next_ref set_clock set_jobs].
  rewrite lookup_insert_eq.
  change (default blank_job (Some ?x)) with x.
  eexists. split; [reflexivity|].
  cbn [heap jobs notified clock next_ref set_clock set_jobs Job.id].
  by rewrite !lookup_insert_eq.
Qed.

(** The stage tags reported between two states are determined by the
    states. *)
Lemma trace_step_unique job_id job l l' st st' j :
  heap st !! job = Some j →
  trace_step job_id job l st st' →
  trace_step job_id job l' st st' →
  l = l'.
Proof.
  intros Hj H1 H2.
  destruct (trace_step_spec _ _ _ _ _ H1 j Hj) as (s1 & j1 & Hn1 & Hs1 & _).
  destruct (trace_step_spec _ _ _ _ _ H2 j Hj) as (s2 & j2 & Hn2 & Hs2 & _).
  rewrite Hn1 in Hn2. apply app_inv_head in Hn2.
  rewrite <- Hs1, <- Hs2. f_equal. clear -Hn2.
  revert s2 Hn2. induction s1 as [|x s1 IH]; intros [|y s2]; simpl; try done.
  intros [= -> Hrest]. f_equal. by apply IH.
Qed.

(** The stage tag of the job after a trace is the last tag reported. *)
Lemma trace_step_stage job_id job l st st' :
  trace_step job_id job l st st' →
  ∀ j, heap st !! job = Some j →
  ∃ j',
    heap st' !! job = Some j'
    ∧ Job.current_stage j'
      = match last l with
        | Some s => Some s
        | None => Job.current_stage j
        end.
Proof.
  induction 1 as [st|st st' st'' l (Hh & Hjb & Hn) _ IH
                 |st stage m p st'' l _ IH]; intros j Hj.
  - by exists j.
  - apply IH. by rewrite Hh.
  - destruct (on_progress_spec job_id job stage m p st j Hj)
      as (j1 & st1 & Hrun & Hj1 & _ & _ & _ & Hstage).
    rewrite Hrun in IH. cbn [snd] in IH.
    destruct (IH j1 Hj1) as (j' & Hj' & Hlast).
    exists j'. split; [done|]. rewrite Hlast, last_cons, Hstage.
    by destruct (last l).
Qed.

Lemma emits_among_emits {A} job_id job tags s (c : M A) :
  s ∈ tags → emits job_id job s c → emits_among job_id job tags c.
Proof.
  intros Hs Hc st. destruct (Hc st) as (l & Ht & Hl).
  exists l. split; [done|]. eapply Forall_impl; [exact Hl|]. by intros ? <-.
Qed.

Lemma emits_among_bind {A B} job_id job tags (c : M A) (k : A → M B) :
  emits_among job_id job tags c →
  (∀ a, emits_among job_id job tags (k a)) →
  emits_among job_id job tags (bind c k).
Proof.
  intros Hc Hk st. unfold bind. destruct (Hc st) as (l1 & Ht1 & Hl1).
  destruct (c st) as [[a|e] st1]; simpl in *; [|by exists l1].
  destruct (Hk a st1) as (l2 & Ht2 & Hl2).
  exists (l1 ++ l2). split; [by eapply trace_step_app|by apply Forall_app].
Qed.

(** The orchestrator reports no other tag than the four stage tags. *)
Lemma run_stage_tags `{Runtime} job_id job w request :
  emits_among job_id job pipeline_stages
    (WebsiteGeneratorOrchestrator.run w request
       (Some (Main.on_progress job_id job))).
Proof.
  unfold WebsiteGeneratorOrchestrator.run. cbv zeta.
  apply emits_among_bind;
    [apply (emits_among_emits _ _ _ "scraping");
     [solve [repeat constructor]|apply emits_on_progress]|intros _].
  apply emits_among_bind;
    [apply (emits_among_emits _ _ _ "scraping");
     [solve [repeat constructor]|apply emits_scrape_all]|intros scrape_result].
  apply emits_among_bind;
    [apply (emits_among_emits _ _ _ "extracting");
     [solve [repeat constructor]|apply emits_on_progress]|intros _].
  apply emits_among_bind;
    [apply (emits_among_emits _ _ _ "extracting");
     [solve [repeat constructor]|apply emits_extract]|intros extracted].
  apply emits_among_bind;
    [apply (emits_among_emits _ _ _ "extracting");
     [solve [repeat constructor]|]|intros data].
  { destruct (_ || _); [|by apply emits_silent, silent_ret].
    apply emits_bind; [apply emits_on_progress|intros _].
    apply emits_fill_gaps. }
  apply emits_among_bind;
    [apply (emits_among_emits _ _ _ "generating");
     [solve [repeat constructor]|apply emits_on_progress]|intros _].
  apply emits_among_bind;
    [apply (emits_among_emits _ _ _ "generating");
     [solve [repeat constructor]|apply emits_generate]|intros site].
  apply emits_among_bind;
    [apply (emits_among_emits _ _ _ "completed");
     [solve [repeat constructor]|apply emits_on_progress]|intros _].
  apply (emits_among_emits _ _ _ "completed");
    [solve [repeat constructor]|apply emits_silent, silent_ret].
Qed.

Lemma forward_last l s :
  forward l → last l = Some s → Forall (λ x, (rank x <= rank s)%nat) l.
Proof.
  induction l as [|x l IH]; [done|]. intros [Hx Hl]. rewrite last_cons.
  destruct (last l) as [y|] eqn:Hy.
  - intros [= ->]. apply Forall_cons. split; [|by apply IH].
    apply last_Some in Hy as [l' ->]. apply Forall_app in Hx as [_ Hx].
    apply Forall_cons in Hx as [Hx _]. exact Hx.
  - intros [= ->]. apply last_None in Hy as ->. by repeat constructor.
Qed.

Lemma forward_app_same s l l2 :
  forward l → Forall (λ x, (rank x <= rank s)%nat) l → Forall (eq s) l2 →
  forward (l ++ l2).
Proof.
  intros Hl Hr H2. induction l as [|x l IH]; [by eapply forward_block|].
  destruct Hl as [Hx Hl]. apply Forall_cons in Hr as [Hxs Hr].
  cbn [app forward]. split; [|by apply IH].
  apply Forall_app. split; [done|].
  eapply Forall_impl; [exact H2|]. by intros ? <-.
Qed.

(** One run of [process_job] on a stored job that is pending, without
    error, deployment and stage tag: what is pushed, and how the end
    depends on the outcome of the orchestrator. *)
Lemma process_job_run `{Runtime}
    (w : PipelineWorld) (job_id : string) (st1 : State) (job : nat)
    (j0 : Job.t) :
  jobs st1 !! job_id = Some job →
  heap st1 !! job = Some j0 →
  Job.status j0 = PENDING →
  Job.error j0 = None →
  Job.deployment j0 = None →
  Job.current_stage j0 = None →
  ∃ st2 running finished,
    Main.process_job w job_id st1 = (Ok tt, st2)
    ∧ notified st2 = notified st1 ++ map (pair job_id) (running ++ finished)
    ∧ Forall (λ j, Job.status j = PENDING ∧ Job.error j = None) running
    ∧ forward (stages (running ++ finished))
    ∧ jobs st2 !! job_id = Some job
    ∧ match (WebsiteGeneratorOrchestrator.run w (Job.request j0)
               (Some (Main.on_progress job_id job)) st1).1 with
      | Ok result =>
          ∃ a b,
            finished = [a; b]
            ∧ Job.status a = COMPLETED ∧ Job.status b = COMPLETED
            ∧ Job.error b = None
            ∧ Job.scrape_result b
              = Some (OrchestrationResult.scrape_result result)
            ∧ Job.extracted_data b
              = Some (OrchestrationResult.extracted_data result)
            ∧ Job.generated_site b
              = Some (OrchestrationResult.generated_site result)
            ∧ Job.deployment b = None
            ∧ heap st2 !! job = Some b
            ∧ Forall (λ s, s ∈ stages running) pipeline_stages
      | Raise e =>
          ∃ a,
            finished = [a]
            ∧ Job.status a = FAILED
            ∧ Job.error a = Some (exn_msg e)
            ∧ heap st2 !! job = Some a
      end.
Proof.
  intros Hjobs Hj0 Hst0 Herr0 Hdep0 Hcur0.
  unfold Main.process_job, bind at 1, JobStore.get. rewrite Hjobs.
  unfold bind at 1, try_except, bind at 1, deref. rewrite Hj0.
  change (default blank_job (Some j0)) with j0.
  unfold bind at 1.
  destruct (good_run job_id job w (Job.request j0) st1)
    as (l & Htrace & Hfwd & _ & Hneed).
  destruct (run_stage_tags job_id job w (Job.request j0) st1)
    as (l' & Htrace' & Htags).
  assert (l' = l) as -> by (by eapply trace_step_unique).
  destruct (trace_step_spec _ _ _ _ _ Htrace j0 Hj0)
    as (running & jR & HnR & Hstages & Hcores & HjR & HcoreR & HjobsR).
  destruct (trace_step_stage _ _ _ _ _ Htrace j0 Hj0) as (jR' & HjR' & HstageR).
  rewrite HjR in HjR'. injection HjR' as <-. rewrite Hcur0 in HstageR.
  assert (Forall (λ j, Job.status j = PENDING ∧ Job.error j = None) running)
    as Hpending.
  { eapply Forall_impl; [exact Hcores|].
    intros x (_ & Hs & _ & _ & _ & _ & _ & He).
    cbv beta in Hs, He |- *. rewrite Hs, He. by split. }
  assert (Forall (λ s, (rank s <= rank "completed")%nat) l) as Hrank.
  { eapply Forall_impl; [exact Htags|]. intros s Hs. cbv beta.
    unfold pipeline_stages in Hs.
    repeat (apply elem_of_cons in Hs as [->|Hs]; [vm_compute; lia|]).
    destruct (proj1 (elem_of_nil s) Hs). }
  destruct HcoreR as (HidR & HstR & _ & _ & _ & HsiteR & HdepR & HerrR).
  simpl in HidR, HstR, HsiteR, HdepR, HerrR.
  destruct (WebsiteGeneratorOrchestrator.run w (Job.request j0) _ st1)
    as [[result|e] stR]; cbn [fst snd] in *.
  - (* the orchestrator returned *)
    unfold bind at 1. rewrite setattr_eq.
    unfold bind at 1. rewrite setattr_eq.
    unfold bind at 1. rewrite setattr_eq.
    unfold bind at 1. rewrite setattr_eq.
    unfold bind at 1, utcnow at 1. cbn [fst snd].
    unfold bind at 1. rewrite setattr_eq.
    set (jC := Job.set_updated_at (clock stR)
                 (Job.set_status COMPLETED
                    (Job.set_generated_site
                       (Some (OrchestrationResult.generated_site result))
                       (Job.set_extracted_data
                          (Some (OrchestrationResult.extracted_data result))
                          (Job.set_scrape_result
                             (Some (OrchestrationResult.scrape_result result))
                             jR))))).
    match goal with
    | |- context [Main.on_progress job_id job ?s ?m ?p ?st] =>
        destruct (on_progress_spec job_id job s m p st jC)
          as (a & stA & HrunA & HjA & HnA & HjobsA & HcoreA & HstageA);
          [subst jC; heap_lookup|]
    end.
    rewrite HrunA. unfold bind at 1.
    rewrite (update_eq job a) by done.
    set (b := Job.set_updated_at (clock stA) a).
    rewrite (notify_eq job_id job b) by (subst b; heap_lookup).
    destruct HcoreA
      as (HidA & HstA & _ & HscrapeA & HdataA & HsiteA & HdepA & HerrA).
    simpl in HidA, HstA, HscrapeA, HdataA, HsiteA, HdepA, HerrA.
    assert (jobs stA !! job_id = Some job) as HjobsA'.
    { rewrite HjobsA. apply lookup_insert_same. simpl. by apply HjobsR. }
    assert (stages [a; b] = ["completed"; "completed"]) as Hfin.
    { unfold stages. subst b. cbn. by rewrite HstageA. }
    eexists _, running, [a; b]. split; [reflexivity|]. split.
    { cbn [notified set_notified updated set_jobs set_heap set_clock].
      rewrite HnA.
      cbn [notified set_notified updated set_jobs set_heap set_clock].
      rewrite HnR, map_app. simpl. by rewrite <- !app_assoc. }
    split; [done|]. split.
    { unfold stages. rewrite omap_app. fold (stages running).
      fold (stages [a; b]). rewrite Hstages, Hfin.
      apply (forward_app_same "completed"); [done|done|by repeat constructor]. }
    split. { simpl. by apply lookup_insert_same. }
    exists a, b.
    split; [done|]. split; [done|]. split; [done|].
    split. { simpl. rewrite HerrA. simpl. congruence. }
    split. { simpl. by rewrite HscrapeA. }
    split. { simpl. by rewrite HdataA. }
    split. { simpl. by rewrite HsiteA. }
    split. { simpl. rewrite HdepA. simpl. congruence. }
    split. { subst b. heap_lookup. }
    rewrite Hstages. by apply (Hneed result).
  - (* a stage raised *)
    unfold bind at 1. rewrite setattr_eq.
    unfold bind at 1. rewrite setattr_eq.
    unfold bind at 1, utcnow at 1. cbn [fst snd].
    rewrite setattr_eq. unfold bind at 1.
    set (jF := Job.set_updated_at (clock stR)
                 (Job.set_error (Some (exn_msg e))
                    (Job.set_status FAILED jR))).
    rewrite (update_eq job jF) by (subst jF; heap_lookup).
    set (a := Job.set_updated_at (clock stR + 1) jF).
    rewrite (notify_eq job_id job a) by (subst a jF; heap_lookup).
    assert (stages [a] = match last l with Some s => [s] | None => [] end)
      as Hfin.
    { unfold stages. subst a jF. cbn. rewrite HstageR.
      by destruct (last l). }
    eexists _, running, [a]. split; [reflexivity|]. split.
    { cbn [notified set_notified updated set_jobs set_heap set_clock].
      rewrite HnR, map_app. simpl. by rewrite <- !app_assoc. }
    split; [done|]. split.
    { unfold stages. rewrite omap_app. fold (stages running).
      fold (stages [a]). rewrite Hstages, Hfin.
      destruct (last l) as [s|] eqn:Hlast; [|by rewrite app_nil_r].
      apply (forward_app_same s);
        [done|by apply forward_last|by repeat constructor]. }
    split. { simpl. by apply lookup_insert_same, HjobsR. }
    exists a. split; [done|]. split; [done|]. split; [done|].
    subst a jF. heap_lookup.
Qed.

(** C1, as amended. For every job created by [create_job] and driven by
    [process_job]: the stored status is pending after creation; every
    snapshot pushed while the orchestrator runs has status pending and no
    error; and the stage tags of all pushed snapshots, the final ones
    included, never step back in the order scraping, extracting,
    generating, completed. The end is decided by the outcome of the
    orchestrator. When it returns a result, two more snapshots are
    pushed, both with status completed, the stored job is the last of
    them and carries the site of that result and no error, and each of
    the four stage tags was reported during the run; a deploy request on
    that job then pushes a snapshot with status deploying followed by one
    with status completed or failed. When it raises an exception, one more
    snapshot is pushed, with status failed and the message of that
    exception as its error, and it is the stored job. *)
Theorem process_job_status_trace `{Runtime}
    (w : PipelineWorld) (request : JobCreateRequest.t) (job_id : string)
    (st0 : State) :
  let st1 := (Main.create_job request job_id st0).2 in
  let st2 := (Main.process_job w job_id st1).2 in
  Job.status <$> stored st1 job_id = Some PENDING
  ∧ ∃ job running finished,
      jobs st1 !! job_id = Some job
      ∧ notified st2 = notified st0 ++ map (pair job_id) (running ++ finished)
      ∧ Forall (λ j, Job.status j = PENDING ∧ Job.error j = None) running
      ∧ forward (stages (running ++ finished))
      ∧ match (WebsiteGeneratorOrchestrator.run w request
                 (Some (Main.on_progress job_id job)) st1).1 with
        | Ok result =>
            ∃ a b,
              finished = [a; b]
              ∧ Job.status a = COMPLETED ∧ Job.status b = COMPLETED
              ∧ Job.error b = None
              ∧ Job.generated_site b
                = Some (OrchestrationResult.generated_site result)
              ∧ stored st2 job_id = Some b
              ∧ Forall (λ s, s ∈ stages running)
                  ["scraping"; "extracting"; "generating"; "completed"]
              ∧ ∀ dw deploy_request,
                  ∃ c d,
                    notified (Main.deploy_job dw job_id deploy_request st2).2
                    = notified st2 ++ [(job_id, c); (job_id, d)]
                    ∧ Job.status c = DEPLOYING
                    ∧ (Job.status d = COMPLETED ∨ Job.status d = FAILED)
        | Raise e =>
            ∃ a,
              finished = [a]
              ∧ Job.status a = FAILED
              ∧ Job.error a = Some (exn_msg e)
              ∧ stored st2 job_id = Some a
        end.
Proof.
  intros st1 st2. subst st2 st1.
  destruct (create_job_eq request job_id st0)
    as (st1 & Hcreate & Hj0 & Hjobs & Hn0).
  rewrite Hcreate. cbn [snd].
  split. { unfold stored. rewrite Hjobs. by rewrite Hj0. }
  destruct (process_job_run w job_id st1 _ _ Hjobs Hj0)
    as (st2 & running & finished & Hrun & Hn & Hpending & Hfwd & Hjobs2 & Hend);
    [done|done|done|done|].
  rewrite Hrun. cbn [snd].
  exists (next_ref st0), running, finished. rewrite Hn, Hn0.
  split; [done|]. split; [done|]. split; [done|]. split; [done|].
  cbn [Job.request] in Hend.
  destruct (WebsiteGeneratorOrchestrator.run w request _ st1).1 as [result|e].
  - destruct Hend as (a & b & -> & Ha & Hb & Herr & _ & _ & Hsite & Hdep
                      & Hheap & Hall).
    exists a, b. split; [done|]. split; [done|]. split; [done|].
    split; [done|]. split; [done|].
    split. { unfold stored. by rewrite Hjobs2, Hheap. }
    split; [done|].
    intros dw deploy_request.
    destruct (deploy_job_transition dw job_id deploy_request st2 _ b _
                Hjobs2 Hheap Hsite Hdep)
      as (reply & st' & c & d & Hdrun & Hn' & _ & _ & Hc & _ & _ & Hd).
    rewrite Hdrun. cbn [snd]. exists c, d.
    split; [by rewrite Hn', Hn, Hn0|]. split; [done|].
    destruct Hd as [(? & _ & ? & _)|(? & _ & ? & _)]; [by left|by right].
  - destruct Hend as (a & -> & Ha & Herr & Hheap).
    exists a. split; [done|]. split; [done|]. split; [done|].
    unfold stored. by rewrite Hjobs2, Hheap.
Qed.

(** C1 as stated fails: in this run the pipeline succeeds and the stored
    status ends as completed, but the fifteen snapshots pushed on the way
    carry the status pending thirteen times and then completed twice,
    while the stage tags go from scraping to completed: the statuses
    scraping, extracting and generating are never taken. *)
Lemma successful_run_skips_intermediate_statuses :
  Job.status <$> stored fresh_state "job-1" = Some PENDING
  ∧ Job.status <$> stored generated_state "job-1" = Some COMPLETED
  ∧ map Job.status (pushed "job-1" (notified generated_state))
    = replicate 13 PENDING ++ [COMPLETED; COMPLETED]
  ∧ stages (pushed "job-1" (notified generated_state))
    = replicate 3 "scraping" ++ replicate 6 "extracting"
      ++ replicate 3 "generating" ++ replicate 3 "completed".
Proof. repeat split; vm_compute; reflexivity. Qed.

(** ** Custom domain *)

(** The case the code handles: the registration is answered with a JSON
    body and a status other than 200 and 201. The deployment result is the
    one obtained without a custom domain, [dns_records] absent. *)
Lemma deploy_domain_rejection_is_absorbed `{Runtime}
    (dw : DeployWorld) (html name domain : string) (st st1 : State)
    (r : DeploymentResult.t) (code : Z) (text : string) (body : json) :
  VercelDeployer.deploy dw html name None st = (Ok r, st1) →
  d_add_domain dw = Response code text (Some body) →
  (code =? 200) || (code =? 201) = false →
  ∃ st2, VercelDeployer.deploy dw html name (Some domain) st = (Ok r, st2).
Proof.
  intros Hok Hw Hcode. unfold VercelDeployer.deploy in *.
  unfold bind at 1 in Hok. unfold bind at 1.
  destruct (VercelDeployer._ensure_project dw _ st) as [[pid|?] s1]; [|done].
  unfold bind at 1 in Hok. unfold bind at 1.
  destruct (VercelDeployer._create_deployment dw _ pid _ s1) as [[dep|?] s2];
    [|done].
  unfold bind at 1 in Hok. unfold bind at 1.
  destruct (lift (getitem dep "id") s2) as [[dep_id|?] s3]; [|done].
  unfold bind at 1 in Hok. unfold bind at 1.
  destruct (VercelDeployer._wait_for_ready dw dep_id 60 s3) as [[ready|?] s4];
    [|done].
  unfold bind at 1 in Hok. unfold bind at 1.
  destruct (truthy_opt_str (Some domain)); [|by eexists].
  unfold VercelDeployer._configure_domain, bind at 1, VercelDeployer.request,
    bind at 1, issue. rewrite Hw.
  unfold ret at 1. unfold bind at 1, VercelDeployer.json_of, ret at 1.
  rewrite Hcode. cbn [negb]. unfold ret at 1.
  simpl (truthy_opt_str None) in Hok. unfold ret at 1 in Hok.
  unfold bind, lift, ret in *.
  repeat match goal with
         | |- context [match ?x with Ok _ => _ | Raise _ => _ end] =>
             destruct x; try done
         end.
  injection Hok as <- _. by eexists.
Qed.

(** C9, evaluated in general. Take any hosting answers under which the
    deployment without a custom domain succeeds (steps 1 to 5 succeed), and
    let the domain registration request fail in transport (a timeout, a
    reset connection). With a custom domain the same deployment raises that
    error: the failure of step 6 fails the deployment. *)
Theorem deploy_domain_transport_error_is_fatal `{Runtime}
    (dw : DeployWorld) (html name domain : string) (st st1 : State)
    (r : DeploymentResult.t) (e : exn) :
  VercelDeployer.deploy dw html name None st = (Ok r, st1) →
  truthy_opt_str (Some domain) = true →
  d_add_domain dw = TransportError e →
  ∃ st2, VercelDeployer.deploy dw html name (Some domain) st = (Raise e, st2).
Proof.
  intros Hok Hdom Hw. unfold VercelDeployer.deploy in *.
  unfold bind at 1 in Hok. unfold bind at 1.
  destruct (VercelDeployer._ensure_project dw _ st) as [[pid|?] s1]; [|done].
  unfold bind at 1 in Hok. unfold bind at 1.
  destruct (VercelDeployer._create_deployment dw _ pid _ s1) as [[dep|?] s2];
    [|done].
  unfold bind at 1 in Hok. unfold bind at 1.
  destruct (lift (getitem dep "id") s2) as [[dep_id|?] s3]; [|done].
  unfold bind at 1 in Hok. unfold bind at 1.
  destruct (VercelDeployer._wait_for_ready dw dep_id 60 s3) as [[ready|?] s4];
    [|done].
  unfold bind at 1. rewrite Hdom.
  unfold VercelDeployer._configure_domain, bind at 1, VercelDeployer.request,
    bind at 1, issue. rewrite Hw. by eexists.
Qed.

Lemma deploy_domain_transport_error_is_fatal_witness :
  ∃ st2,
    VercelDeployer.deploy (H := reference_runtime)
      (healthy_hosting connection_reset) "<html></html>" "Acme Coffee"
      (Some "acme.example") init_state
    = (Raise (Exn "ConnectError" "connection reset"), st2).
Proof.
  eapply (deploy_domain_transport_error_is_fatal (H := reference_runtime)
            (healthy_hosting connection_reset) "<html></html>" "Acme Coffee"
            "acme.example" init_state).
  - vm_compute. reflexivity.
  - reflexivity.
  - reflexivity.
Defined.

(** The same at the level of the job: the site of the sample job deploys
    when no custom domain is asked for; with a custom domain and a reset
    connection at the registration, the request is answered with status 500
    and the job is left failed, without deployment. *)
Lemma deploy_job_domain_failure_fails_job :
  (∃ response,
     (Main.deploy_job (H := reference_runtime) (healthy_hosting connection_reset)
        "job-1" (DeployRequest.mk None) generated_state).1
     = Ok (Replied response))
  ∧ (Main.deploy_job (H := reference_runtime) (healthy_hosting connection_reset)
       "job-1" (DeployRequest.mk (Some "acme.example")) generated_state).1
    = Ok (HTTPException 500 "connection reset")
  ∧ let st := (Main.deploy_job (H := reference_runtime)
                 (healthy_hosting connection_reset) "job-1"
                 (DeployRequest.mk (Some "acme.example")) generated_state).2 in
    Job.status <$> stored st "job-1" = Some FAILED
    ∧ Job.error <$> stored st "job-1"
      = Some (Some "Deployment failed: connection reset")
    ∧ Job.deployment <$> stored st "job-1" = Some None.
Proof.
  split; [vm_compute; eexists; reflexivity|].
  split; [vm_compute; reflexivity|].
  cbv zeta. repeat split; vm_compute; reflexivity.
Qed.

(** ** The error field *)

(** C4, evaluated in general. Take a stored job in the state a failed
    deploy leaves: a site, no deployment, status failed and an error
    message. A further deploy request is accepted; it pushes a snapshot
    whose status is deploying while the error is still set, and when the
    hosting API succeeds the stored job ends with status completed and the
    same error message. *)
Theorem redeploy_keeps_stale_error `{Runtime}
    (dw : DeployWorld) (job_id : string) (request : DeployRequest.t)
    (st : State) (job : nat) (j : Job.t) (site : GeneratedSite.t)
    (msg : string) :
  jobs st !! job_id = Some job →
  heap st !! job = Some j →
  Job.generated_site j = Some site →
  Job.deployment j = None →
  Job.status j = FAILED →
  Job.error j = Some msg →
  let st' := (Main.deploy_job dw job_id request st).2 in
  (∃ c, (job_id, c) ∈ notified st'
        ∧ Job.status c = DEPLOYING ∧ Job.error c = Some msg)
  ∧ (∀ response,
       (Main.deploy_job dw job_id request st).1 = Ok (Replied response) →
       ∃ d, stored st' job_id = Some d
            ∧ Job.status d = COMPLETED ∧ Job.error d = Some msg).
Proof.
  intros Hjobs Hj Hsite Hdep Hst Herr st'. subst st'.
  destruct (deploy_job_transition dw job_id request st job j site
              Hjobs Hj Hsite Hdep)
    as (reply & st' & c & d & Hrun & Hn & Hheap & Hjobs' & Hc & Hce & _ & Hd).
  rewrite Hrun. cbn [fst snd]. split.
  - exists c. split; [|by rewrite Hce, Herr].
    rewrite Hn. apply elem_of_app. right. by left.
  - intros response [= ->].
    destruct Hd as [(d0 & _ & Hds & _ & Hde)|(detail & [=] & _)].
    exists d. split; [|by rewrite Hde, Herr].
    unfold stored. by rewrite Hjobs', Hheap.
Qed.

Lemma redeploy_keeps_stale_error_witness :
  let st' := (Main.deploy_job (H := reference_runtime)
                (healthy_hosting (vercel_ok [])) "job-1"
                (DeployRequest.mk None) failed_deploy_state).2 in
  (∃ c, ("job-1", c) ∈ notified st'
        ∧ Job.status c = DEPLOYING
        ∧ Job.error c
          = Some "Deployment failed: Deployment failed: Build failed")
  ∧ (∀ response,
       (Main.deploy_job (H := reference_runtime)
          (healthy_hosting (vercel_ok [])) "job-1"
          (DeployRequest.mk None) failed_deploy_state).1
       = Ok (Replied response) →
       ∃ d, stored st' "job-1" = Some d
            ∧ Job.status d = COMPLETED
            ∧ Job.error d
              = Some "Deployment failed: Deployment failed: Build failed").
Proof.
  eapply (redeploy_keeps_stale_error (H := reference_runtime)
            (healthy_hosting (vercel_ok [])) "job-1" (DeployRequest.mk None)
            failed_deploy_state 0%nat).
  - vm_compute. reflexivity.
  - vm_compute. reflexivity.
  - vm_compute. reflexivity.
  - vm_compute. reflexivity.
  - vm_compute. reflexivity.
  - vm_compute. reflexivity.
Defined.

(** The run behind the witness, step by step: create, pipeline, a deploy
    whose build fails, a second deploy that succeeds. After the last step
    the stored job has status completed and a non-null error. *)
Lemma create_run_deploy_twice :
  Job.status <$> stored generated_state "job-1" = Some COMPLETED
  ∧ Job.error <$> stored generated_state "job-1" = Some None
  ∧ Job.status <$> stored failed_deploy_state "job-1" = Some FAILED
  ∧ Job.error <$> stored failed_deploy_state "job-1"
    = Some (Some "Deployment failed: Deployment failed: Build failed")
  ∧ Job.status <$> stored redeployed_state "job-1" = Some COMPLETED
  ∧ Job.error <$> stored redeployed_state "job-1"
    = Some (Some "Deployment failed: Deployment failed: Build failed")
  ∧ map Job.status (pushed "job-1" (notified redeployed_state))
    = replicate 13 PENDING
      ++ [COMPLETED; COMPLETED; DEPLOYING; FAILED; DEPLOYING; COMPLETED].
Proof. repeat split; vm_compute; reflexivity. Qed.

(** * Further properties of the code *)

(** ** Job store: delete, update, count *)

(** X1. [JobStore.delete] reports whether a record existed under the id;
    afterwards [get] finds nothing under it, every other id is as before
    and no job object has changed. *)
Theorem JobStore_delete_removes (st : State) (job_id : string) :
  ∃ st',
    JobStore.delete job_id st
    = (Ok (bool_decide (is_Some (jobs st !! job_id))), st')
    ∧ JobStore.get job_id st' = (Ok None, st')
    ∧ stored st' job_id = None
    ∧ heap st' = heap st
    ∧ (∀ k, k ≠ job_id → jobs st' !! k = jobs st !! k).
Proof.
  unfold JobStore.delete, JobStore.get, stored.
  destruct (jobs st !! job_id) as [r|] eqn:Hr.
  - eexists. split; [reflexivity|]. simpl. rewrite lookup_delete_eq.
    split; [done|]. split; [done|]. split; [done|].
    intros k Hk. by rewrite lookup_delete_ne.
  - exists st. rewrite Hr. by repeat split.
Qed.

(** X2. [JobStore.update] does not check that the id is known: it stamps
    the object with the current time and stores it under its id, so that
    [get] returns it, also when the record had been deleted. *)
Theorem JobStore_update_upserts (st : State) (job : nat) (j : Job.t) :
  heap st !! job = Some j →
  ∃ st',
    JobStore.update job st = (Ok job, st')
    ∧ JobStore.get (Job.id j) st' = (Ok (Some job), st')
    ∧ stored st' (Job.id j) = Some (Job.set_updated_at (clock st) j)
    ∧ (clock st < clock st')
    ∧ (∀ k, k ≠ Job.id j → jobs st' !! k = jobs st !! k).
Proof.
  intros Hj. exists (updated job j st). rewrite (update_eq job j st Hj).
  unfold JobStore.get, stored, updated. simpl. rewrite lookup_insert_eq.
  rewrite lookup_alter_eq, Hj. simpl.
  split; [done|]. split; [done|]. split; [done|]. split; [lia|].
  intros k Hk. by rewrite lookup_insert_ne.
Qed.

Lemma JobStore_update_upserts_witness :
  let st := (bind (new_job (sample_job 0)) (λ a,
             bind (JobStore.create a) (λ _, JobStore.delete "job-1"))
               init_state).2 in
  ∃ st',
    JobStore.update 0%nat st = (Ok 0%nat, st')
    ∧ JobStore.get (Job.id (sample_job 0)) st' = (Ok (Some 0%nat), st')
    ∧ stored st' (Job.id (sample_job 0))
      = Some (Job.set_updated_at (clock st) (sample_job 0))
    ∧ (clock st < clock st')
    ∧ (∀ k, k ≠ Job.id (sample_job 0) → jobs st' !! k = jobs st !! k).
Proof.
  apply (JobStore_update_upserts _ 0%nat (sample_job 0)). reflexivity.
Defined.

Lemma filter_status_partition (l : list Job.t) :
  length l
  = sum_list (map (λ s, length (List.filter
                                  (λ j, JobStatus_eqb (Job.status j) s) l))
                  all_statuses).
Proof.
  induction l as [|j l IH]; [done|].
  unfold all_statuses in *. simpl in *. rewrite IH.
  destruct (Job.status j); simpl; lia.
Qed.

(** X3. Counting changes nothing, and the counts per status add up: the
    count without a filter is the sum of the seven counts that [count]
    returns for the seven statuses (each stored job is counted under
    exactly one status), so each of them lies between 0 and the total. *)
Theorem JobStore_count_partition (st : State) :
  ∃ total counts,
    JobStore.count None st = (Ok total, st)
    ∧ Forall2 (λ s n, JobStore.count (Some s) st = (Ok n, st))
        all_statuses counts
    ∧ total = foldr Z.add 0 counts
    ∧ Forall (λ n, 0 ≤ n ≤ total) counts.
Proof.
  assert (size (jobs st) = length (JobStore.values st)) as Hsize.
  { unfold JobStore.values. by rewrite length_map, length_map_to_list. }
  pose proof (filter_status_partition (JobStore.values st)) as Hsum.
  eexists _, _. split; [reflexivity|]. split.
  { unfold all_statuses. repeat (apply Forall2_cons; split; [reflexivity|]).
    apply Forall2_nil_2. }
  rewrite Hsize. unfold all_statuses in Hsum. cbn [map sum_list] in Hsum.
  unfold id in Hsum.
  cbn [foldr]. split; [lia|].
  repeat (apply Forall_cons; split; [lia|]). apply Forall_nil_2.
Qed.

(** ** Scrape stage: absent inputs, calls issued, full success *)

(** The result of [scrape_all] is the fan-in of the four slot outcomes. *)
Lemma scrape_all_eq (w : PipelineWorld) (request : JobCreateRequest.t)
    (cb : option ProgressCallback) (st : State) :
  quiet cb →
  ∃ st',
    ScraperService.scrape_all w request cb st
    = (Ok (ScrapeResult.mk
             (ScraperService.fan_in (outcomes w request)).1
             (ScraperService.fan_in (outcomes w request)).2), st').
Proof.
  intros Hq. unfold ScraperService.scrape_all.
  unfold bind at 1.
  destruct (report_quiet cb Hq "scraping" "Scraping data sources..." 10 st)
    as [st1 ->].
  unfold bind at 1.
  pose proof (gather_yields _ _ (w_schedule w) st1 (tasks_yield w request)) as Hg.
  destruct (ScraperService.gather _ _ st1) as [results st2]. simpl in Hg. subst.
  destruct (ScraperService.fan_in (outcomes w request)) as [sources raw_data].
  unfold bind.
  destruct (report_quiet cb Hq "scraping"
              ("Scraped " +:+ pretty (ScraperService.count_successful sources)
               +:+ "/" +:+ pretty (length sources) +:+ " sources") 30 st2)
    as [st3 ->].
  by eexists.
Qed.

Lemma NoDup_fst_zip {A B} (l : list A) (k : list B) :
  NoDup l → NoDup (map fst (zip l k)).
Proof.
  revert k. induction l as [|x l IH]; intros [|y k] Hnd; simpl;
    try apply NoDup_nil_2.
  apply NoDup_cons in Hnd as [Hx Hnd]. apply NoDup_cons. split; [|by apply IH].
  intros Hin. apply Hx. apply list_elem_of_fmap in Hin as ([a b] & -> & Hin).
  apply list_elem_of_lookup in Hin as [i Hi].
  apply lookup_zip_with_Some in Hi as (? & ? & [= <- <-] & Ha & _).
  simpl. apply list_elem_of_lookup. by exists i.
Qed.

Lemma written_fst item n d : written item = Some (n, d) → n = item.1.
Proof.
  destruct item as [n' [s|e]]; unfold written; simpl; [|done].
  destruct (ScrapedSource.data s) as [[|? ?]|]; try done.
  destruct (ScrapedSource.success s); [|done]. by intros [= <- _].
Qed.

Lemma fan_in_raw_data_absent (rs : list (result ScrapedSource.t)) tag i :
  ScraperService.source_names !! i = Some tag →
  rs !! i = Some (Ok (not_provided tag)) →
  dict_get tag (ScraperService.fan_in rs).2 = None.
Proof.
  intros Htag Hrs. unfold ScraperService.fan_in.
  destruct (dict_get tag _) as [d|] eqn:Hd; [exfalso|done].
  apply fan_in_raw_data in Hd.
  - destruct Hd as [(item & Hin & Hw)|[_ ?]]; [|done].
    pose proof (written_fst _ _ _ Hw) as Hfst.
    apply list_elem_of_lookup in Hin as [k Hk].
    apply lookup_zip_with_Some in Hk as (n & r & -> & Hn & Hr).
    simpl in Hfst. subst n.
    assert (k = i) as ->.
    { eapply NoDup_lookup; [|exact Hn|exact Htag].
      apply (bool_decide_unpack _). by vm_compute. }
    rewrite Hrs in Hr. injection Hr as <-. by vm_compute in Hw.
  - apply NoDup_fst_zip. apply (bool_decide_unpack _). by vm_compute.
Qed.

(** X4. When the request lacks the input of a source, the entry of that
    source is the failure record "Not provided" and the source is absent
    from [raw_data], whatever the connectors of the other sources do;
    [scrape_all] returns all the same. *)
Theorem scrape_all_absent_input
    (w : PipelineWorld) (request : JobCreateRequest.t)
    (cb : option ProgressCallback) (st : State) (i : nat) (tag : string) :
  quiet cb →
  ScraperService.source_names !! i = Some tag →
  provided request tag = false →
  ∃ r st',
    ScraperService.scrape_all w request cb st = (Ok r, st')
    ∧ ScrapeResult.sources r !! i = Some (not_provided tag)
    ∧ dict_get tag (ScrapeResult.raw_data r) = None.
Proof.
  intros Hq Htag Hprov.
  destruct (scrape_all_eq w request cb st Hq) as [st' ->].
  eexists _, _. split; [reflexivity|].
  cbn [ScrapeResult.sources ScrapeResult.raw_data].
  assert (outcomes w request !! i = Some (Ok (not_provided tag))) as Hout.
  { unfold ScraperService.source_names, outcomes in *.
    destruct i as [|[|[|[|i]]]]; simpl in Htag; try done;
      injection Htag as <-; unfold provided in Hprov; simpl in Hprov;
      simpl; by rewrite Hprov. }
  split; [|by eapply fan_in_raw_data_absent].
  unfold ScraperService.fan_in. rewrite fan_in_sources. cbn [fst app].
  rewrite list_lookup_fmap.
  assert (zip ScraperService.source_names (outcomes w request) !! i
          = Some (tag, Ok (not_provided tag))) as ->; [|done].
  apply lookup_zip_with_Some. by eexists _, _.
Qed.

Lemma scrape_all_absent_input_witness :
  ∃ r st',
    ScraperService.scrape_all mixed_world sample_request None init_state
    = (Ok r, st')
    ∧ ScrapeResult.sources r !! 2%nat = Some (not_provided "facebook")
    ∧ dict_get "facebook" (ScrapeResult.raw_data r) = None.
Proof.
  apply (scrape_all_absent_input mixed_world sample_request None init_state
           2%nat "facebook"); [exact I|reflexivity|reflexivity].
Defined.

Section GatherCalls.
Context {A : Type}.

Lemma run_scheduled_calls (tasks : list (M A)) (css : list (list Call))
    (order : list nat) :
  Forall2 issues tasks css →
  ∀ done st,
    ∃ ran,
      NoDup ran
      ∧ (∀ i, i ∈ ran → done !! i = None ∧ (i < length tasks)%nat)
      ∧ (∀ i, is_Some ((ScraperService.run_scheduled tasks order done st).1 !! i)
              ↔ is_Some (done !! i) ∨ i ∈ ran)
      ∧ (∀ i, i ∈ order → (i < length tasks)%nat →
              is_Some ((ScraperService.run_scheduled tasks order done st).1 !! i))
      ∧ calls (ScraperService.run_scheduled tasks order done st).2
        = calls st ++ concat (map (λ i, default [] (css !! i)) ran).
Proof.
  intros Hy. induction order as [|i order IH]; intros done st; simpl.
  - exists []. split; [apply NoDup_nil_2|]. split.
    { intros i Hi. by apply elem_of_nil in Hi. }
    split. { intros i. split; [by left|]. intros [?|Hi]; [done|].
             by apply elem_of_nil in Hi. }
    split. { intros i Hi. by apply elem_of_nil in Hi. }
    simpl. by rewrite app_nil_r.
  - destruct (done !! i) as [r0|] eqn:Hi.
    + destruct (IH done st) as (ran & Hnd & Hran & Hdom & Hord & Hcalls).
      exists ran. split; [done|]. split; [done|]. split; [done|].
      split; [|done]. intros k Hk Hlt.
      apply elem_of_cons in Hk as [->|Hk]; [|by apply Hord].
      apply Hdom. left. by rewrite Hi.
    + destruct (tasks !! i) as [t|] eqn:Ht.
      * destruct (Forall2_lookup_l _ _ _ _ _ Hy Ht) as (cs & Hcs & Hiss).
        specialize (Hiss st). destruct (t st) as [r st1]. simpl in Hiss.
        destruct (IH (<[i := r]> done) st1)
          as (ran & Hnd & Hran & Hdom & Hord & Hcalls).
        exists (i :: ran). split.
        { apply NoDup_cons. split; [|done]. intros Hin.
          destruct (Hran i Hin) as [Hnone _].
          by rewrite lookup_insert_eq in Hnone. }
        split.
        { intros k Hk. apply elem_of_cons in Hk as [->|Hk].
          - split; [done|]. by eapply lookup_lt_Some.
          - destruct (Hran k Hk) as [Hnone Hlt]. split; [|done].
            destruct (decide (i = k)) as [->|Hne].
            + by rewrite lookup_insert_eq in Hnone.
            + by rewrite lookup_insert_ne in Hnone. }
        split.
        { intros k. rewrite Hdom. destruct (decide (i = k)) as [->|Hne].
          - rewrite lookup_insert_eq. split; [intros _; right; by left|].
            intros _. left. by eexists.
          - rewrite lookup_insert_ne by done. split.
            + intros [?|?]; [by left|right; by right].
            + intros [?|Hk]; [by left|].
              apply elem_of_cons in Hk as [->|Hk]; [done|by right]. }
        split.
        { intros k Hk Hlt. apply elem_of_cons in Hk as [->|Hk]; [|by apply Hord].
          apply Hdom. left. rewrite lookup_insert_eq. by eexists. }
        rewrite Hcalls, Hiss. simpl. rewrite Hcs. simpl.
        by rewrite <- app_assoc.
      * destruct (IH done st) as (ran & Hnd & Hran & Hdom & Hord & Hcalls).
        exists ran. split; [done|]. split; [done|]. split; [done|].
        split; [|done]. intros k Hk Hlt.
        apply elem_of_cons in Hk as [->|Hk]; [|by apply Hord].
        apply lookup_ge_None in Ht. exfalso.
        exact (proj1 (Nat.lt_nge _ _) Hlt Ht).
Qed.

Lemma map_lookup_seq {B} (l : list (list B)) :
  map (λ i, default [] (l !! i)) (seq 0 (length l)) = l.
Proof.
  assert (∀ pre : list (list B),
            map (λ i, default [] ((pre ++ l) !! i))
                (seq (length pre) (length l)) = l) as Hgen.
  { induction l as [|x l IH]; intros pre; [done|]. simpl. f_equal.
    - rewrite lookup_app_r by lia. by rewrite Nat.sub_diag.
    - specialize (IH (pre ++ [x])). rewrite length_app in IH. simpl in IH.
      rewrite Nat.add_1_r in IH. rewrite <- app_assoc in IH. done. }
  apply (Hgen []).
Qed.

(** Whatever the schedule, [gather] runs every task exactly once: the
    calls it logs are those of the tasks, in some order. *)
Lemma gather_calls (tasks : list (M A)) (css : list (list Call))
    (order : list nat) (st : State) :
  Forall2 issues tasks css →
  ∃ extra,
    calls (ScraperService.gather tasks order st).2 = calls st ++ extra
    ∧ extra ≡ₚ concat css.
Proof.
  intros Hy. unfold ScraperService.gather.
  destruct (run_scheduled_calls tasks css (order ++ seq 0 (length tasks)) Hy ∅ st)
    as (ran & Hnd & Hran & Hdom & Hord & Hcalls).
  destruct (ScraperService.run_scheduled tasks _ ∅ st) as [done' st'].
  simpl in *. eexists. split; [done|].
  assert (ran ≡ₚ seq 0 (length css)) as ->.
  { apply NoDup_Permutation; [done|apply NoDup_seq|]. intros i.
    rewrite elem_of_seq, <- (Forall2_length _ _ _ Hy). split.
    - intros Hi. destruct (Hran i Hi). lia.
    - intros [_ Hi]. simpl in Hi.
      destruct (proj1 (Hdom i)) as [[? Hd]|?]; [|by rewrite lookup_empty in Hd|done].
      apply Hord; [|done]. apply elem_of_app. right. apply elem_of_seq. lia. }
  by rewrite map_lookup_seq.
Qed.

End GatherCalls.

Lemma connector_issues tag o :
  issues (ScraperService.connector tag o) [CallConnector tag].
Proof. intros st. unfold ScraperService.connector, bind, issue. by destruct o. Qed.

Lemma empty_result_issues tag : issues (ScraperService._empty_result tag) [].
Proof. intros st. simpl. by rewrite app_nil_r. Qed.

(** The calls [scrape_all] adds to the log are the connector calls of
    the provided sources, in some order. *)
Lemma scrape_all_call_log
    (w : PipelineWorld) (request : JobCreateRequest.t)
    (cb : option ProgressCallback) (st : State) :
  quiet cb →
  call_free cb →
  ∃ extra,
    calls (ScraperService.scrape_all w request cb st).2 = calls st ++ extra
    ∧ extra ≡ₚ map CallConnector
                 (List.filter (provided request) ScraperService.source_names).
Proof.
  intros Hq Hfree. unfold ScraperService.scrape_all.
  unfold bind at 1.
  pose proof (Hfree "scraping" "Scraping data sources..." 10 st) as Hc1.
  destruct (report_quiet cb Hq "scraping" "Scraping data sources..." 10 st)
    as [st1 Hr1]. rewrite Hr1 in Hc1 |- *. simpl in Hc1.
  unfold bind at 1.
  match goal with
  | |- context [ScraperService.gather ?tasks ?order st1] =>
      destruct (gather_calls tasks
                  [ if provided request "google" then [CallConnector "google"] else [];
                    if provided request "website" then [CallConnector "website"] else [];
                    if provided request "facebook" then [CallConnector "facebook"] else [];
                    if provided request "instagram" then [CallConnector "instagram"] else [] ]
                  order st1) as (extra & Hcalls & Hperm);
      [|destruct (ScraperService.gather tasks order st1) as [[results|e] st2]]
  end.
  { unfold provided. simpl.
    repeat (constructor;
            [match goal with
             | |- issues (if ?b then _ else _) _ =>
                 destruct b; [apply connector_issues|apply empty_result_issues]
             end|]).
    constructor. }
  - simpl in Hcalls. destruct (ScraperService.fan_in results) as [sources raw].
    unfold bind.
    match goal with
    | |- context [report cb ?s ?m ?p st2] =>
        pose proof (Hfree s m p st2) as Hc2;
        destruct (report cb s m p st2) as [[[]|e] st3]
    end; simpl in *; exists extra; (split; [congruence|]);
      rewrite Hperm; unfold ScraperService.source_names; simpl;
      destruct (provided request "google"), (provided request "website"),
        (provided request "facebook"), (provided request "instagram"); done.
  - simpl in *. exists extra. split; [congruence|].
    rewrite Hperm. unfold ScraperService.source_names. simpl.
    destruct (provided request "google"), (provided request "website"),
      (provided request "facebook"), (provided request "instagram"); done.
Qed.

(** X5. In every schedule, [scrape_all] returns after running the
    connector of each source whose input the request provides exactly
    once, and no other: the calls it adds to the log are the connector
    calls of the provided sources, in some order. *)
Theorem scrape_all_runs_provided_connectors
    (w : PipelineWorld) (request : JobCreateRequest.t)
    (cb : option ProgressCallback) (st : State) :
  quiet cb →
  call_free cb →
  ∃ r st' extra,
    ScraperService.scrape_all w request cb st = (Ok r, st')
    ∧ calls st' = calls st ++ extra
    ∧ extra ≡ₚ map CallConnector
                 (List.filter (provided request) ScraperService.source_names).
Proof.
  intros Hq Hfree.
  destruct (scrape_all_eq w request cb st Hq) as [st' Hrun].
  destruct (scrape_all_call_log w request cb st Hq Hfree)
    as (extra & Hcalls & Hperm).
  rewrite Hrun in Hcalls. cbn [snd] in Hcalls.
  eexists _, st', extra. split; [exact Hrun|by split].
Qed.

Lemma scrape_all_runs_provided_connectors_witness :
  ∃ r st' extra,
    ScraperService.scrape_all mixed_world sample_request None init_state
    = (Ok r, st')
    ∧ calls st' = calls init_state ++ extra
    ∧ extra ≡ₚ map CallConnector
                 (List.filter (provided sample_request)
                    ScraperService.source_names).
Proof.
  apply (scrape_all_runs_provided_connectors mixed_world sample_request None
           init_state); [exact I|by intros ? ? ? ?].
Defined.

(** ** Gap filling and extraction, on every path *)

Section GapFillFacts.
Context `{Runtime}.

Lemma run_steps_preserves
    (R : ExtractedBusinessData.t → ExtractedBusinessData.t → Prop)
    (steps : list (ExtractedBusinessData.t → result ExtractedBusinessData.t)) :
  (∀ x, R x x) →
  (∀ x y z, R x y → R y z → R x z) →
  Forall (λ step, ∀ x x', step x = Ok x' → R x x') steps →
  ∀ d, R d (AIEngineService.run_steps steps d).1.
Proof.
  intros Hrefl Htrans. induction 1 as [|step steps Hstep _ IH]; intros d.
  - apply Hrefl.
  - cbn [AIEngineService.run_steps].
    destruct (step d) as [d1|e] eqn:E; [|apply Hrefl].
    eapply Htrans; [by apply Hstep|apply IH].
Qed.

Lemma fill_if_missing_preserves
    (R : ExtractedBusinessData.t → ExtractedBusinessData.t → Prop)
    key current assign gap_data :
  (∀ x, R x x) →
  (∀ v x, truthy (current x) = false → R x (assign v x)) →
  ∀ x x', AIEngineService.fill_if_missing key current assign gap_data x = Ok x' →
          R x x'.
Proof.
  intros Hrefl Hassign x x'. unfold AIEngineService.fill_if_missing, rbind.
  destruct (get gap_data key) as [v|]; [|done].
  destruct (truthy v); cbn [andb]; [|by intros [= <-]].
  destruct (truthy (current x)) eqn:Hc; cbn [negb]; [by intros [= <-]|].
  destruct (getitem gap_data key) as [v'|]; [|done].
  intros [= <-]. by apply Hassign.
Qed.

Lemma merge_steps_preserve
    (R : ExtractedBusinessData.t → ExtractedBusinessData.t → Prop) gap_data :
  (∀ x, R x x) →
  (∀ v x, truthy (ExtractedBusinessData.tagline x) = false →
          R x (ExtractedBusinessData.set_tagline v x)) →
  (∀ v x, truthy (ExtractedBusinessData.description_short x) = false →
          R x (ExtractedBusinessData.set_description_short v x)) →
  (∀ v x, truthy (ExtractedBusinessData.description_long x) = false →
          R x (ExtractedBusinessData.set_description_long v x)) →
  (∀ v x, truthy (ExtractedBusinessData.unique_selling_points x) = false →
          R x (ExtractedBusinessData.set_unique_selling_points v x)) →
  (∀ l x, (length (ExtractedBusinessData.services x) < length l)%nat →
          R x (ExtractedBusinessData.set_services l x)) →
  (∀ x, R x (AIEngineService.bump_score x)) →
  (∀ x, R x (AIEngineService.recompute_missing x)) →
  Forall (λ step, ∀ x x', step x = Ok x' → R x x')
    (AIEngineService.merge_steps gap_data).
Proof.
  intros Hrefl Ht Hs Hl Hu Hsv Hb Hm. unfold AIEngineService.merge_steps.
  repeat apply Forall_cons_2; try apply Forall_nil_2;
    try (by apply fill_if_missing_preserves).
  - intros x x'. unfold AIEngineService.merge_services, rbind.
    destruct (get gap_data "services") as [v|]; [|done].
    destruct (truthy v); [|by intros [= <-]].
    destruct (getitem gap_data "services") as [v'|]; [|done].
    destruct (iter v') as [items|]; [|done].
    destruct (AIEngineService.gap_services_of items) as [gs|]; [|done].
    destruct (_ <? _)%nat eqn:Hlt; intros [= <-]; [|done].
    apply Hsv. by apply Nat.ltb_lt.
  - intros x x' [= <-]. apply Hb.
  - intros x x' [= <-]. apply Hm.
Qed.

Lemma same_facts_refl d : same_facts d d.
Proof. by repeat split. Qed.

Lemma same_facts_trans d1 d2 d3 :
  same_facts d1 d2 → same_facts d2 d3 → same_facts d1 d3.
Proof.
  unfold same_facts. intros (?&?&?&?&?&?&?&?&?&?&?&?) (?&?&?&?&?&?&?&?&?&?&?&?).
  repeat split; congruence.
Qed.

Lemma keeps_content_refl d : keeps_content d d.
Proof. by repeat split. Qed.

Lemma keeps_content_trans d1 d2 d3 :
  keeps_content d1 d2 → keeps_content d2 d3 → keeps_content d1 d3.
Proof.
  unfold keeps_content. intros (A1&A2&A3&A4&A5) (B1&B2&B3&B4&B5).
  repeat split.
  - intros Ht. rewrite <- (A1 Ht). apply B1. by rewrite (A1 Ht).
  - intros Ht. rewrite <- (A2 Ht). apply B2. by rewrite (A2 Ht).
  - intros Ht. rewrite <- (A3 Ht). apply B3. by rewrite (A3 Ht).
  - intros Ht. rewrite <- (A4 Ht). apply B4. by rewrite (A4 Ht).
  - etrans; [apply A5|apply B5].
Qed.

Lemma merge_gap_data_same_facts data gap_data :
  same_facts data (AIEngineService._merge_gap_data data gap_data).1.
Proof.
  unfold AIEngineService._merge_gap_data.
  apply run_steps_preserves;
    [apply same_facts_refl|apply same_facts_trans|].
  apply merge_steps_preserve; intros; by repeat split.
Qed.

Lemma merge_gap_data_keeps_content data gap_data :
  keeps_content data (AIEngineService._merge_gap_data data gap_data).1.
Proof.
  unfold AIEngineService._merge_gap_data.
  apply run_steps_preserves;
    [apply keeps_content_refl|apply keeps_content_trans|].
  apply merge_steps_preserve; try (intros; by repeat split).
  - intros v x Hx. repeat split; try done. cbn. by rewrite Hx.
  - intros v x Hx. repeat split; try done. cbn. by rewrite Hx.
  - intros v x Hx. repeat split; try done. cbn. by rewrite Hx.
  - intros v x Hx. repeat split; try done. cbn. by rewrite Hx.
  - intros l x Hx. repeat split; try done. cbn. lia.
Qed.

(** However a gap-filling round ends, it returns, and what it returns is
    its argument or the object the merge left. *)
Lemma fill_gaps_cases w data cb st :
  quiet cb →
  ∃ d' st',
    AIEngineService.fill_gaps w data cb st = (Ok d', st')
    ∧ (d' = data
       ∨ ∃ content,
           w_gap_fill w = Ok content
           ∧ d' = (AIEngineService._merge_gap_data data
                     (AIEngineService._parse_json_response content)).1).
Proof.
  intros Hq. unfold AIEngineService.fill_gaps.
  destruct (_ && _); [exists data, st; split; [done|by left]|].
  unfold bind at 1.
  destruct (report_quiet cb Hq "extracting" "Filling data gaps with AI..." 55 st)
    as [st1 ->].
  unfold try_except at 1, bind, issue, lift.
  destruct (w_gap_fill w) as [content|e]; [|eexists _, _; split; [done|by left]].
  destruct (AIEngineService._merge_gap_data data _) as [d' outcome] eqn:Hm.
  destruct outcome as [[]|e].
  - unfold try_except.
    destruct (report_quiet cb Hq "extracting" "Data gaps filled" 60
                (set_calls (calls st1 ++ [CallAnthropic "gap_fill"]) st1))
      as [st2 ->].
    eexists _, _; split; [done|]. right. exists content. by rewrite Hm.
  - eexists _, _; split; [done|]. right. exists content. by rewrite Hm.
Qed.

End GapFillFacts.

(** X6. Gap filling never touches the facts of a profile: whatever the AI
    backend answers, [fill_gaps] returns a profile with the same business
    name and type, year, contact details, social links, opening hours,
    testimonials, rating, review count, images, logo and sources as its
    argument, and every name in its [missing_fields] was already there. *)
Theorem fill_gaps_keeps_facts `{Runtime}
    (w : PipelineWorld) (data : ExtractedBusinessData.t)
    (cb : option ProgressCallback) (st : State) :
  quiet cb →
  ∃ d' st',
    AIEngineService.fill_gaps w data cb st = (Ok d', st')
    ∧ same_facts data d'
    ∧ ∀ f, In f (ExtractedBusinessData.missing_fields d') →
           In f (ExtractedBusinessData.missing_fields data).
Proof.
  intros Hq.
  destruct (fill_gaps_cases w data cb st Hq) as (d' & st' & Hrun & Hd).
  exists d', st'. split; [done|].
  destruct Hd as [->|(content & _ & ->)].
  - split; [apply same_facts_refl|done].
  - split; [apply merge_gap_data_same_facts|].
    intros f. eapply merge_gap_data_subset. apply surjective_pairing.
Qed.

Lemma fill_gaps_keeps_facts_witness :
  ∃ d' st',
    AIEngineService.fill_gaps (H := reference_runtime)
      (sample_world (Ok apology) (Ok "{}")) weak_profile None init_state
    = (Ok d', st')
    ∧ same_facts weak_profile d'
    ∧ ∀ f, In f (ExtractedBusinessData.missing_fields d') →
           In f (ExtractedBusinessData.missing_fields weak_profile).
Proof.
  apply (fill_gaps_keeps_facts (H := reference_runtime)
           (sample_world (Ok apology) (Ok "{}")) weak_profile None init_state).
  exact I.
Defined.

(** X7. Gap filling only fills what is empty: a tagline, a short or long
    description or a list of selling points that is present (truthy) in the
    argument of [fill_gaps] is the same in its result, and the result never
    lists fewer services. *)
Theorem fill_gaps_never_overwrites `{Runtime}
    (w : PipelineWorld) (data : ExtractedBusinessData.t)
    (cb : option ProgressCallback) (st : State) :
  quiet cb →
  ∃ d' st',
    AIEngineService.fill_gaps w data cb st = (Ok d', st')
    ∧ keeps_content data d'.
Proof.
  intros Hq.
  destruct (fill_gaps_cases w data cb st Hq) as (d' & st' & Hrun & Hd).
  exists d', st'. split; [done|].
  destruct Hd as [->|(content & _ & ->)].
  - apply keeps_content_refl.
  - apply merge_gap_data_keeps_content.
Qed.

Lemma fill_gaps_never_overwrites_witness :
  ∃ d' st',
    AIEngineService.fill_gaps (H := reference_runtime)
      (sample_world (Ok apology) (Ok "{}"))
      (ExtractedBusinessData.set_tagline (JStr "Fresh coffee daily") weak_profile)
      None init_state
    = (Ok d', st')
    ∧ keeps_content
        (ExtractedBusinessData.set_tagline (JStr "Fresh coffee daily") weak_profile)
        d'.
Proof.
  apply (fill_gaps_never_overwrites (H := reference_runtime)
           (sample_world (Ok apology) (Ok "{}"))
           (ExtractedBusinessData.set_tagline (JStr "Fresh coffee daily")
              weak_profile)
           None init_state).
  exact I.
Defined.

(** X8. A failing AI backend cannot damage a profile: when the gap-fill
    call raises, [fill_gaps] returns its argument as it was, whatever the
    exception. *)
Theorem fill_gaps_backend_failure `{Runtime}
    (w : PipelineWorld) (data : ExtractedBusinessData.t)
    (cb : option ProgressCallback) (st : State) (e : exn) :
  w_gap_fill w = Raise e →
  quiet cb →
  ∃ st', AIEngineService.fill_gaps w data cb st = (Ok data, st').
Proof.
  intros Hw Hq.
  destruct (fill_gaps_cases w data cb st Hq) as (d' & st' & Hrun & Hd).
  exists st'. destruct Hd as [->|(content & Hc & _)]; [done|congruence].
Qed.

Lemma fill_gaps_backend_failure_witness :
  ∃ st',
    AIEngineService.fill_gaps (H := reference_runtime)
      (sample_world (Ok apology) (Raise (Exn "APIError" "overloaded")))
      weak_profile None init_state
    = (Ok weak_profile, st').
Proof.
  apply (fill_gaps_backend_failure (H := reference_runtime)
           (sample_world (Ok apology) (Raise (Exn "APIError" "overloaded")))
           weak_profile None init_state (Exn "APIError" "overloaded"));
    [reflexivity|exact I].
Defined.

(** X9. The quality score is raised although nothing was filled: when
    the profile needs gap filling and the answer of the AI backend decodes
    to the empty dict (as every answer without usable JSON does), the
    result has the texts and services of the argument and a score that is
    15 higher, capped at 100. *)
Theorem fill_gaps_empty_answer_raises_score `{Runtime}
    (w : PipelineWorld) (data : ExtractedBusinessData.t)
    (cb : option ProgressCallback) (st : State) (content : string) :
  w_gap_fill w = Ok content →
  AIEngineService._parse_json_response content = JObj [] →
  ExtractedBusinessData.data_quality_score data < 70
  ∨ ExtractedBusinessData.missing_fields data ≠ [] →
  quiet cb →
  ∃ d' st',
    AIEngineService.fill_gaps w data cb st = (Ok d', st')
    ∧ ExtractedBusinessData.data_quality_score d'
      = Z.min 100 (ExtractedBusinessData.data_quality_score data + 15)
    ∧ ExtractedBusinessData.tagline d' = ExtractedBusinessData.tagline data
    ∧ ExtractedBusinessData.description_short d'
      = ExtractedBusinessData.description_short data
    ∧ ExtractedBusinessData.description_long d'
      = ExtractedBusinessData.description_long data
    ∧ ExtractedBusinessData.services d' = ExtractedBusinessData.services data
    ∧ ExtractedBusinessData.unique_selling_points d'
      = ExtractedBusinessData.unique_selling_points data.
Proof.
  intros Hw Hparse Hneed Hq. unfold AIEngineService.fill_gaps.
  assert ((70 <=? ExtractedBusinessData.data_quality_score data)
          && match ExtractedBusinessData.missing_fields data with
             | [] => true | _ => false end = false) as ->.
  { destruct Hneed as [Hs|Hm].
    - apply andb_false_iff. left. apply Z.leb_gt. exact Hs.
    - apply andb_false_iff. right.
      by destruct (ExtractedBusinessData.missing_fields data). }
  unfold bind at 1.
  destruct (report_quiet cb Hq "extracting" "Filling data gaps with AI..." 55 st)
    as [st1 ->].
  unfold try_except at 1, bind, issue, lift. rewrite Hw, Hparse.
  cbn [AIEngineService._merge_gap_data AIEngineService.merge_steps
       AIEngineService.run_steps AIEngineService.fill_if_missing
       AIEngineService.merge_services rbind get get_or assoc truthy andb].
  unfold try_except.
  destruct (report_quiet cb Hq "extracting" "Data gaps filled" 60
              (set_calls (calls st1 ++ [CallAnthropic "gap_fill"]) st1))
    as [st2 ->].
  eexists _, _. split; [done|]. by repeat split.
Qed.

Lemma fill_gaps_empty_answer_raises_score_witness :
  ∃ d' st',
    AIEngineService.fill_gaps (H := reference_runtime)
      (sample_world (Ok apology) (Ok apology)) weak_profile None init_state
    = (Ok d', st')
    ∧ ExtractedBusinessData.data_quality_score d'
      = Z.min 100 (ExtractedBusinessData.data_quality_score weak_profile + 15)
    ∧ ExtractedBusinessData.tagline d'
      = ExtractedBusinessData.tagline weak_profile
    ∧ ExtractedBusinessData.description_short d'
      = ExtractedBusinessData.description_short weak_profile
    ∧ ExtractedBusinessData.description_long d'
      = ExtractedBusinessData.description_long weak_profile
    ∧ ExtractedBusinessData.services d'
      = ExtractedBusinessData.services weak_profile
    ∧ ExtractedBusinessData.unique_selling_points d'
      = ExtractedBusinessData.unique_selling_points weak_profile.
Proof.
  apply (fill_gaps_empty_answer_raises_score (H := reference_runtime)
           (sample_world (Ok apology) (Ok apology)) weak_profile None
           init_state apology).
  - reflexivity.
  - vm_compute. reflexivity.
  - left. simpl. lia.
  - exact I.
Defined.

(** X10. [extract_business_data] never raises and asks the AI backend
    exactly once. Its result is the converted answer when the call returns
    and the conversion accepts the decoded answer; in every other case
    (the call raises, or the conversion raises, as it does for every
    answer that is not a dict) it is the minimal profile with the
    requested name, score 0 and [missing_fields = ["all"]]. *)
Theorem extract_business_data_outcome `{Runtime}
    (w : PipelineWorld) (scrape_result : ScrapeResult.t) (name : string)
    (cb : option ProgressCallback) (st : State) :
  quiet cb →
  call_free cb →
  ∃ st',
    AIEngineService.extract_business_data w scrape_result name cb st
    = (Ok match w_extract w with
          | Ok content =>
              match AIEngineService._to_business_data
                      (AIEngineService._parse_json_response content)
                      scrape_result with
              | Ok d => d
              | Raise _ => ExtractedBusinessData.minimal name 0 ["all"]
              end
          | Raise _ => ExtractedBusinessData.minimal name 0 ["all"]
          end, st')
    ∧ calls st' = calls st ++ [CallAnthropic "extract"].
Proof.
  intros Hq Hfree. unfold AIEngineService.extract_business_data, bind at 1.
  pose proof (Hfree "extracting" "Analyzing scraped data with AI..." 40 st)
    as Hc1.
  destruct (report_quiet cb Hq "extracting"
              "Analyzing scraped data with AI..." 40 st) as [st1 Hr1].
  rewrite Hr1 in Hc1 |- *. cbn [snd] in Hc1.
  unfold try_except, bind, issue, lift.
  destruct (w_extract w) as [content|e].
  - pose proof (Hfree "extracting" "Data extracted successfully" 50
                  (set_calls (calls st1 ++ [CallAnthropic "extract"]) st1))
      as Hc2.
    destruct (report_quiet cb Hq "extracting" "Data extracted successfully" 50
                (set_calls (calls st1 ++ [CallAnthropic "extract"]) st1))
      as [st2 Hr2].
    rewrite Hr2 in Hc2 |- *. cbn [snd] in Hc2.
    destruct (AIEngineService._to_business_data _ _) as [d|e];
      (eexists; split; [done|]); unfold ret; cbn [snd];
      rewrite Hc2; simpl; by rewrite Hc1.
  - eexists; split; [done|]. simpl. by rewrite Hc1.
Qed.

Lemma extract_business_data_outcome_witness :
  ∃ st',
    AIEngineService.extract_business_data (H := reference_runtime)
      (sample_world (Raise (Exn "APIError" "overloaded")) (Ok "{}"))
      sample_scrape "Acme Coffee" None init_state
    = (Ok match w_extract
                  (sample_world (Raise (Exn "APIError" "overloaded")) (Ok "{}"))
          with
          | Ok content =>
              match AIEngineService._to_business_data (H := reference_runtime)
                      (AIEngineService._parse_json_response
                         (H := reference_runtime) content)
                      sample_scrape with
              | Ok d => d
              | Raise _ => ExtractedBusinessData.minimal "Acme Coffee" 0 ["all"]
              end
          | Raise _ => ExtractedBusinessData.minimal "Acme Coffee" 0 ["all"]
          end, st')
    ∧ calls st' = calls init_state ++ [CallAnthropic "extract"].
Proof.
  apply (extract_business_data_outcome (H := reference_runtime)
           (sample_world (Raise (Exn "APIError" "overloaded")) (Ok "{}"))
           sample_scrape "Acme Coffee" None init_state);
    [exact I|by intros ? ? ? ?].
Defined.

Section ConversionFacts.
Context `{Runtime}.

Ltac step_rbind :=
  match goal with
  | |- rbind ?r _ = Ok _ → _ =>
      let E := fresh "E" in
      destruct r eqn:E; cbn [rbind]; [|discriminate]
  end.

Lemma service_of_dict_price s x :
  AIEngineService.service_of_dict s = Ok x → Service.price x = None.
Proof.
  unfold AIEngineService.service_of_dict. repeat step_rbind. by intros [= <-].
Qed.

Lemma parse_services_price items :
  ∀ l, AIEngineService.parse_services items = Ok l →
       Forall (λ s, Service.price s = None) l.
Proof.
  induction items as [|s items IH]; intros l; cbn [AIEngineService.parse_services].
  - intros [= <-]. constructor.
  - destruct s; try apply IH.
    + destruct (AIEngineService.parse_services items) as [xs|]; cbn [rbind];
        [|discriminate].
      intros [= <-]. constructor; [done|by apply IH].
    + destruct (AIEngineService.service_of_dict _) as [x|] eqn:Ex; cbn [rbind];
        [|discriminate].
      destruct (AIEngineService.parse_services items) as [xs|]; cbn [rbind];
        [|discriminate].
      intros [= <-]. constructor; [by eapply service_of_dict_price|by apply IH].
Qed.

Lemma testimonial_of_dict_date t x :
  AIEngineService.testimonial_of_dict t = Ok x → Testimonial.date x = None.
Proof.
  unfold AIEngineService.testimonial_of_dict. repeat step_rbind.
  by intros [= <-].
Qed.

Lemma parse_testimonials_date items :
  ∀ l, AIEngineService.parse_testimonials items = Ok l →
       Forall (λ t, Testimonial.date t = None) l.
Proof.
  induction items as [|t items IH]; intros l;
    cbn [AIEngineService.parse_testimonials].
  - intros [= <-]. constructor.
  - destruct t; try apply IH.
    destruct (AIEngineService.testimonial_of_dict _) as [x|] eqn:Ex; cbn [rbind];
      [|discriminate].
    destruct (AIEngineService.parse_testimonials items) as [xs|]; cbn [rbind];
      [|discriminate].
    intros [= <-]. constructor; [by eapply testimonial_of_dict_date|by apply IH].
Qed.

(** X11. What the conversion of the AI answer never fills, whatever the
    answer holds: a profile built by [_to_business_data] has no images and
    no logo, no YouTube link, no price on any service and no date on any
    testimonial. *)
Theorem to_business_data_never_fills
    (extracted : json) (scrape_result : ScrapeResult.t)
    (d : ExtractedBusinessData.t) :
  AIEngineService._to_business_data extracted scrape_result = Ok d →
  ExtractedBusinessData.images d = []
  ∧ ExtractedBusinessData.logo_url d = None
  ∧ SocialMedia.youtube (ExtractedBusinessData.social_media d) = None
  ∧ Forall (λ s, Service.price s = None) (ExtractedBusinessData.services d)
  ∧ Forall (λ t, Testimonial.date t = None)
      (ExtractedBusinessData.testimonials d).
Proof.
  unfold AIEngineService._to_business_data. repeat step_rbind.
  intros [= <-]. cbn.
  repeat split; [by eapply parse_services_price
                |by eapply parse_testimonials_date].
Qed.

End ConversionFacts.

Lemma to_business_data_never_fills_witness :
  ∃ d,
    AIEngineService._to_business_data (H := reference_runtime)
      rich_answer sample_scrape = Ok d
    ∧ ExtractedBusinessData.images d = []
    ∧ ExtractedBusinessData.logo_url d = None
    ∧ SocialMedia.youtube (ExtractedBusinessData.social_media d) = None
    ∧ Forall (λ s, Service.price s = None) (ExtractedBusinessData.services d)
    ∧ Forall (λ t, Testimonial.date t = None)
        (ExtractedBusinessData.testimonials d).
Proof.
  eexists. split; [vm_compute; reflexivity|].
  apply (to_business_data_never_fills (H := reference_runtime)
           rich_answer sample_scrape).
  vm_compute. reflexivity.
Defined.

(** ** Order of the scraped payloads *)

Lemma dict_keys_set_new {V} (k : string) (v : V) (d : pydict V) :
  k ∉ dict_keys d → dict_keys (dict_set k v d) = dict_keys d ++ [k].
Proof.
  induction d as [|[k' v'] d IH]; intros Hk; [done|].
  simpl. destruct (String.eqb_spec k k') as [->|Hne].
  - exfalso. apply Hk. by left.
  - simpl. f_equal. apply IH. intros Hin. apply Hk. by right.
Qed.

Lemma omap_cons_eq {A B} (f : A → option B) (x : A) (l : list A) :
  omap f (x :: l)
  = match f x with Some y => y :: omap f l | None => omap f l end.
Proof. done. Qed.

Lemma fan_in_keys items :
  NoDup (map fst items) →
  ∀ acc,
    (∀ item, item ∈ items → item.1 ∉ dict_keys acc.2) →
    dict_keys (fold_left ScraperService.fan_in_step items acc).2
    = dict_keys acc.2 ++ map fst (omap written items).
Proof.
  induction items as [|item items IH]; intros Hnd acc Hfresh.
  - simpl. by rewrite app_nil_r.
  - simpl in Hnd. apply NoDup_cons in Hnd as [Hitem Hnd].
    cbn [fold_left]. rewrite omap_cons_eq, (IH Hnd).
    + rewrite fan_in_step_raw. destruct (written item) as [[n d]|] eqn:Hw.
      * apply written_fst in Hw as Hn. subst n.
        rewrite dict_keys_set_new by (apply Hfresh; by left).
        cbn [map fst]. by rewrite <- app_assoc.
      * done.
    + intros item' Hin. rewrite fan_in_step_raw.
      destruct (written item) as [[n d]|] eqn:Hw.
      * apply written_fst in Hw. subst n.
        rewrite dict_keys_set_new by (apply Hfresh; by left).
        intros Hk. apply elem_of_app in Hk as [Hk|Hk].
        -- revert Hk. apply Hfresh. by right.
        -- apply list_elem_of_singleton in Hk. apply Hitem.
           rewrite <- Hk. apply list_elem_of_fmap. by exists item'.
      * apply Hfresh. by right.
Qed.

(** X12. The keys of [raw_data] follow the fixed order of the sources
    (google, website, facebook, instagram), whatever the order in which
    the connectors complete: they are the names of the slots that report
    success with a non-empty payload, in slot order. With no usable
    payload at all, [raw_data] is empty. *)
Theorem scrape_all_raw_data_order
    (w : PipelineWorld) (request : JobCreateRequest.t)
    (cb : option ProgressCallback) (st : State) :
  quiet cb →
  ∃ r st',
    ScraperService.scrape_all w request cb st = (Ok r, st')
    ∧ dict_keys (ScrapeResult.raw_data r)
      = map fst (omap written
                   (zip ScraperService.source_names (outcomes w request))).
Proof.
  intros Hq. destruct (scrape_all_eq w request cb st Hq) as [st' Hrun].
  eexists _, st'. split; [exact Hrun|]. cbn [ScrapeResult.raw_data].
  unfold ScraperService.fan_in. rewrite fan_in_keys; [done| |].
  - apply NoDup_fst_zip. apply (bool_decide_unpack _). by vm_compute.
  - intros item _ Hin. by apply elem_of_nil in Hin.
Qed.

Lemma scrape_all_raw_data_order_witness :
  ∃ r st',
    ScraperService.scrape_all rich_world full_request None init_state
    = (Ok r, st')
    ∧ dict_keys (ScrapeResult.raw_data r)
      = map fst (omap written
                   (zip ScraperService.source_names
                      (outcomes rich_world full_request))).
Proof.
  apply (scrape_all_raw_data_order rich_world full_request None init_state).
  exact I.
Defined.

(** ** Site renderer *)

(** X13. The sections of a page are the sections the profile calls for,
    in page order: navigation, hero, services, about, contact and footer
    always; features, between hero and services, exactly when the profile
    has selling points; testimonials, between about and contact, exactly
    when it has testimonials. *)
Theorem determine_sections_in_page_order (data : ExtractedBusinessData.t) :
  WebsiteGeneratorService._determine_sections data
  = List.filter (section_wanted data) page_order.
Proof.
  unfold WebsiteGeneratorService._determine_sections, section_wanted,
    page_order.
  cbn [List.filter String.eqb Ascii.eqb Bool.eqb].
  by destruct (AIEngineService.nonempty _), (truthy _).
Qed.

Lemma build_generation_prompt_raise data e :
  WebsiteGeneratorService._build_generation_prompt data = Raise e →
  e = TypeError.
Proof.
  unfold WebsiteGeneratorService._build_generation_prompt.
  destruct (truthy _); [|done].
  destruct (ExtractedBusinessData.unique_selling_points data); cbn;
    congruence.
Qed.

Lemma generate_with_claude_cases w data sections st :
  (∃ html,
      w_template w = Ok html
      ∧ WebsiteGeneratorService._generate_with_claude w data sections st
        = (Ok (WebsiteGeneratorService.clean_html html),
           set_calls (calls st ++ [CallAnthropic "template"]) st))
  ∨ (∃ e st',
        WebsiteGeneratorService._generate_with_claude w data sections st
        = (Raise e, st')
        ∧ (w_template w = Raise e
           ∨ WebsiteGeneratorService._build_generation_prompt data = Raise e)).
Proof.
  unfold WebsiteGeneratorService._generate_with_claude, bind, lift, issue, ret.
  destruct (WebsiteGeneratorService._build_generation_prompt data) as [[]|e].
  - destruct (w_template w) as [html|e].
    + left. by exists html.
    + right. eexists _, _. split; [done|by left].
  - right. eexists _, _. split; [done|by right].
Qed.

(** An exception that leaves [generate] is the one of the template
    backend or the one of the template prompt. *)
Lemma generate_raise w data cb st e st' :
  quiet cb →
  WebsiteGeneratorService.generate w data cb st = (Raise e, st') →
  w_template w = Raise e
  ∨ WebsiteGeneratorService._build_generation_prompt data = Raise e.
Proof.
  intros Hq. unfold WebsiteGeneratorService.generate.
  unfold bind at 1, utcnow at 1. cbn [fst snd].
  unfold bind at 1.
  destruct (report_quiet cb Hq "generating" "Generating website design..." 65
              (set_clock (clock st + 1) st)) as [st1 ->].
  cbv zeta. unfold bind at 1.
  match goal with
  | |- context [(if ?b then ?c1 else ?c2) st1] =>
      assert ((∃ html st2, (if b then c1 else c2) st1 = (Ok html, st2))
              ∨ (∃ e0 st2, (if b then c1 else c2) st1 = (Raise e0, st2)
                           ∧ (w_template w = Raise e0
                              ∨ WebsiteGeneratorService._build_generation_prompt
                                  data = Raise e0))) as Hhtml
  end.
  { destruct (truthy_opt_str (twentyfirst_api_key w)).
    - unfold WebsiteGeneratorService._generate_with_21st_dev, try_except,
        bind, issue, lift, ret.
      destruct (w_21st_dev w) as [h|e0]; cbv beta iota;
        [left; by eexists _, _|].
      destruct (generate_with_claude_cases w data
                  (WebsiteGeneratorService._determine_sections data)
                  (set_calls (calls st1 ++ [CallAnthropic "21st_dev"]) st1))
        as [(html & _ & ->)|(e1 & st2 & -> & He)].
      + left. by eexists _, _.
      + right. eexists _, _. split; [reflexivity|exact He].
    - destruct (generate_with_claude_cases w data
                  (WebsiteGeneratorService._determine_sections data) st1)
        as [(html & _ & ->)|(e1 & st2 & -> & He)].
      + left. by eexists _, _.
      + right. eexists _, _. split; [reflexivity|exact He]. }
  destruct Hhtml as [(html & st2 & ->)|(e0 & st2 & -> & He)].
  - unfold bind at 1.
    destruct (report_quiet cb Hq "generating" "Website generated!" 90 st2)
      as [st3 ->].
    unfold bind, utcnow, ret. done.
  - by intros [= <- _].
Qed.

(** X14. When the premium backend is configured and its call fails,
    [generate] falls back to the template path: it returns the cleaned
    answer of the template backend, after one call to each backend, and
    still labels the site with [template_used = "21st_dev"]. *)
Theorem generate_fallback_keeps_premium_label
    (w : PipelineWorld) (data : ExtractedBusinessData.t)
    (cb : option ProgressCallback) (st : State) (e : exn) (html : string) :
  truthy_opt_str (twentyfirst_api_key w) = true →
  w_21st_dev w = Raise e →
  w_template w = Ok html →
  WebsiteGeneratorService._build_generation_prompt data = Ok tt →
  quiet cb →
  call_free cb →
  ∃ site st',
    WebsiteGeneratorService.generate w data cb st = (Ok site, st')
    ∧ GeneratedSite.html site = WebsiteGeneratorService.clean_html html
    ∧ GeneratedSite.template_used site = "21st_dev"
    ∧ GeneratedSite.sections_included site
      = WebsiteGeneratorService._determine_sections data
    ∧ calls st' = calls st ++ [CallAnthropic "21st_dev"; CallAnthropic "template"].
Proof.
  intros Hkey Hpremium Htemplate Hprompt Hq Hfree.
  unfold WebsiteGeneratorService.generate.
  unfold bind at 1, utcnow at 1. cbn [fst snd].
  unfold bind at 1.
  pose proof (Hfree "generating" "Generating website design..." 65
                (set_clock (clock st + 1) st)) as Hc1.
  destruct (report_quiet cb Hq "generating" "Generating website design..." 65
              (set_clock (clock st + 1) st)) as [st1 Hr1].
  rewrite Hr1 in Hc1 |- *. cbn [snd calls set_clock] in Hc1.
  cbv zeta. rewrite Hkey. unfold bind at 1.
  unfold WebsiteGeneratorService._generate_with_21st_dev, try_except,
    bind at 1, issue, bind at 1, lift.
  rewrite Hpremium.
  unfold WebsiteGeneratorService._generate_with_claude, bind at 1, lift.
  rewrite Hprompt. unfold bind at 1, issue, bind at 1, lift.
  rewrite Htemplate. unfold ret at 1.
  unfold bind at 1.
  match goal with
  | |- context [report cb ?s ?m ?p ?st2] =>
      pose proof (Hfree s m p st2) as Hc2;
      destruct (report_quiet cb Hq s m p st2) as [st3 Hr3]
  end.
  rewrite Hr3 in Hc2 |- *. cbn [snd calls set_calls] in Hc2.
  unfold bind, utcnow, ret. eexists _, _. split; [reflexivity|].
  cbn [GeneratedSite.html GeneratedSite.template_used
       GeneratedSite.sections_included calls set_clock].
  repeat split. rewrite Hc2, Hc1. by rewrite <- app_assoc.
Qed.

Lemma generate_fallback_keeps_premium_label_witness :
  ∃ site st',
    WebsiteGeneratorService.generate premium_down_world complete_profile
      None init_state = (Ok site, st')
    ∧ GeneratedSite.html site
      = WebsiteGeneratorService.clean_html
          "<html><body>Acme Coffee</body></html>"
    ∧ GeneratedSite.template_used site = "21st_dev"
    ∧ GeneratedSite.sections_included site
      = WebsiteGeneratorService._determine_sections complete_profile
    ∧ calls st'
      = calls init_state ++ [CallAnthropic "21st_dev"; CallAnthropic "template"].
Proof.
  apply (generate_fallback_keeps_premium_label
           premium_down_world complete_profile None init_state
           (Exn "APIError" "overloaded")
           "<html><body>Acme Coffee</body></html>");
    [reflexivity|reflexivity|reflexivity|reflexivity|exact I
    |by intros ? ? ? ?].
Defined.

(** X15. Scraping, extraction and gap filling cannot fail a pipeline
    run. With a progress callback that returns, an exception that leaves
    [WebsiteGeneratorOrchestrator.run] comes from the generation stage: it
    is the exception raised by the call to the template backend, or the
    TypeError raised while the template prompt is built, when the selling
    points of the profile are not iterable. *)
Theorem run_fails_only_in_generation `{Runtime}
    (w : PipelineWorld) (request : JobCreateRequest.t)
    (cb : option ProgressCallback) (st st' : State) (e : exn) :
  quiet cb →
  WebsiteGeneratorOrchestrator.run w request cb st = (Raise e, st') →
  w_template w = Raise e ∨ e = TypeError.
Proof.
  intros Hq. unfold WebsiteGeneratorOrchestrator.run.
  set (f := match cb with Some f => f | None => λ _ _ _, ret tt end).
  assert (returns f) as Hf.
  { subst f. destruct cb as [g|]; [exact Hq|]. intros ? ? ? st0. by exists st0. }
  assert (quiet (Some f)) as Hqf by exact Hf.
  clearbody f. cbv zeta.
  unfold bind at 1.
  destruct (Hf "scraping" "Starting data collection..." 5 st) as [st1 ->].
  unfold bind at 1.
  destruct (scrape_all_eq w request (Some f) st1 Hqf) as [st2 ->].
  unfold bind at 1.
  destruct (Hf "extracting" "Analyzing data with AI..." 35 st2) as [st3 ->].
  unfold bind at 1.
  match goal with
  | |- context [AIEngineService.extract_business_data w ?sr ?n (Some f) st3] =>
      destruct (extract_business_data_returns w sr n (Some f) st3 Hqf)
        as (d & st4 & ->)
  end.
  unfold bind at 1.
  match goal with
  | |- context [(if ?b then ?c1 else ?c2) st4] =>
      assert (∃ d' st5, (if b then c1 else c2) st4 = (Ok d', st5))
        as (d' & st5 & ->)
  end.
  { destruct (_ || _); [|by eexists _, _].
    unfold bind.
    destruct (Hf "extracting" "Enhancing data..." 55 st4) as [st5 ->].
    destruct (fill_gaps_cases w d (Some f) st5 Hqf) as (d' & st6 & -> & _).
    by eexists _, _. }
  unfold bind at 1.
  destruct (Hf "generating" "Creating website design..." 65 st5) as [st6 ->].
  unfold bind at 1.
  destruct (WebsiteGeneratorService.generate w d' (Some f) st6)
    as [[site|e0] st7] eqn:Hgen.
  - unfold bind.
    destruct (Hf "completed" "Website ready!" 100 st7) as [st8 ->]. done.
  - intros [= <- _].
    destruct (generate_raise w d' (Some f) st6 e0 st7 Hqf Hgen) as [?|Hp];
      [by left|right; by eapply build_generation_prompt_raise].
Qed.

Lemma run_fails_only_in_generation_witness :
  w_template template_down_world = Raise (Exn "APIError" "overloaded")
  ∨ Exn "APIError" "overloaded" = TypeError.
Proof.
  apply (run_fails_only_in_generation (H := reference_runtime)
           template_down_world sample_request None init_state
           (WebsiteGeneratorOrchestrator.run (H := reference_runtime)
              template_down_world sample_request None init_state).2);
    [exact I|vm_compute; reflexivity].
Defined.

(** ** Project slugs *)

Lemma slug_char_not_dash (c : ascii) :
  VercelDeployer.is_slug_char c = true → Ascii.eqb c "-" = false.
Proof. destruct (Ascii.eqb_spec c "-") as [->|]; [by vm_compute|done]. Qed.

Lemma collapse_slug_chars (s : string) :
  ∀ b, slug_chars (VercelDeployer.collapse s b) = true.
Proof.
  induction s as [|c s IH]; intros b; [done|].
  cbn [VercelDeployer.collapse].
  destruct (VercelDeployer.is_slug_char c) eqn:Hc.
  - cbn [slug_chars]. by rewrite Hc, IH.
  - destruct b; [apply IH|]. cbn [slug_chars]. rewrite IH.
    by rewrite Ascii.eqb_refl, orb_true_r.
Qed.

Lemma collapse_dashes_apart (s : string) :
  ∀ b, dashes_apart b (VercelDeployer.collapse s b) = true.
Proof.
  induction s as [|c s IH]; intros b; [done|].
  cbn [VercelDeployer.collapse].
  destruct (VercelDeployer.is_slug_char c) eqn:Hc.
  - cbn [dashes_apart]. by rewrite (slug_char_not_dash c Hc), IH.
  - destruct b; [apply IH|]. cbn [dashes_apart].
    by rewrite Ascii.eqb_refl, IH.
Qed.

Lemma dashes_apart_weaken (s : string) :
  dashes_apart true s = true → dashes_apart false s = true.
Proof.
  destruct s as [|c s]; [done|]. cbn [dashes_apart].
  by destruct (Ascii.eqb c "-").
Qed.

Lemma drop_last_dash_slug_chars (s : string) :
  slug_chars s = true → slug_chars (VercelDeployer.drop_last_dash s) = true.
Proof.
  induction s as [|c s IH]; [done|].
  cbn [slug_chars]. intros [Hc Hs]%andb_true_iff.
  destruct s as [|d t].
  - cbn [VercelDeployer.drop_last_dash].
    destruct (Ascii.eqb c "-") eqn:Hd; [done|].
    cbn [slug_chars]. rewrite Hd. by rewrite Hc.
  - change (VercelDeployer.drop_last_dash (String c (String d t)))
      with (String c (VercelDeployer.drop_last_dash (String d t))).
    cbn [slug_chars]. by rewrite Hc, IH.
Qed.

Lemma drop_last_dash_dashes_apart (s : string) :
  ∀ b, dashes_apart b s = true →
       dashes_apart b (VercelDeployer.drop_last_dash s) = true.
Proof.
  induction s as [|c s IH]; intros b; [done|].
  destruct s as [|d t].
  - cbn [VercelDeployer.drop_last_dash].
    by destruct (Ascii.eqb c "-") eqn:Hc.
  - change (VercelDeployer.drop_last_dash (String c (String d t)))
      with (String c (VercelDeployer.drop_last_dash (String d t))).
    cbn [dashes_apart]. destruct (Ascii.eqb c "-").
    + intros [-> Ht]%andb_true_iff. by rewrite (IH true Ht).
    + apply IH.
Qed.

Lemma drop_last_dash_head (c : ascii) (t : string) :
  VercelDeployer.is_slug_char c = true →
  ∃ t', VercelDeployer.drop_last_dash (String c t) = String c t'.
Proof.
  intros Hc. destruct t as [|d t].
  - cbn [VercelDeployer.drop_last_dash].
    rewrite (slug_char_not_dash c Hc). by eexists.
  - by eexists.
Qed.

Lemma take_slug_chars (n : nat) (s : string) :
  slug_chars s = true → slug_chars (take n s) = true.
Proof.
  revert s. induction n as [|n IH]; intros [|c s]; try done.
  cbn [slug_chars take]. intros [-> Hs]%andb_true_iff. by rewrite IH.
Qed.

Lemma take_dashes_apart (n : nat) (s : string) :
  ∀ b, dashes_apart b s = true → dashes_apart b (take n s) = true.
Proof.
  revert s. induction n as [|n IH]; intros [|c s] b; try done.
  cbn [dashes_apart take]. destruct (Ascii.eqb c "-").
  - intros [-> Hs]%andb_true_iff. by rewrite IH.
  - apply IH.
Qed.

Lemma take_length (n : nat) (s : string) :
  (String.length (take n s) <= n)%nat.
Proof.
  revert s. induction n as [|n IH]; intros [|c s]; simpl; try lia.
  specialize (IH s). lia.
Qed.

Lemma take_all (s : string) (n : nat) :
  (String.length s <= n)%nat → take n s = s.
Proof.
  revert n. induction s as [|c s IH]; intros [|n] Hn; simpl in *; try done;
    try lia.
  f_equal. apply IH. lia.
Qed.

Lemma slice_prefix (s : string) (n : nat) : slice s 0 (Z.of_nat n) = take n s.
Proof.
  unfold slice.
  assert (clamp (len s) 0 = 0) as ->.
  { unfold clamp, len. change (0 <? 0) with false. cbv iota. lia. }
  assert (clamp (len s) (Z.of_nat n) = Z.min (len s) (Z.of_nat n)) as ->.
  { unfold clamp, len. destruct (Z.of_nat n <? 0) eqn:Hneg; [|lia].
    apply Z.ltb_lt in Hneg. lia. }
  change (Z.to_nat 0) with 0%nat. cbn [drop]. rewrite Z.sub_0_r. unfold len.
  destruct (Nat.le_gt_cases n (String.length s)) as [Hle|Hgt].
  - rewrite Z.min_r by lia. by rewrite Nat2Z.id.
  - rewrite Z.min_l by lia. rewrite Nat2Z.id.
    rewrite !take_all by lia. done.
Qed.

Lemma has_alnum_lower (s : string) :
  has_alnum s = false →
  ∀ b, VercelDeployer.collapse (VercelDeployer.lower s) b = EmptyString
       ∨ VercelDeployer.collapse (VercelDeployer.lower s) b
         = String "-" EmptyString.
Proof.
  induction s as [|c s IH]; intros Hs b; [by left|].
  cbn [has_alnum] in Hs. apply orb_false_iff in Hs as [Hc Hs].
  cbn [VercelDeployer.lower VercelDeployer.collapse]. rewrite Hc.
  destruct b; [apply (IH Hs)|].
  destruct (IH Hs true) as [->|Hd]; [by right|].
  pose proof (collapse_dashes_apart (VercelDeployer.lower s) true) as Ha.
  by rewrite Hd in Ha.
Qed.

Lemma has_alnum_head (s : string) :
  has_alnum s = true →
  ∀ b, ∃ c t,
    VercelDeployer.is_slug_char c = true
    ∧ (VercelDeployer.collapse (VercelDeployer.lower s) b = String c t
       ∨ (b = false
          ∧ VercelDeployer.collapse (VercelDeployer.lower s) b
            = String "-" (String c t))).
Proof.
  induction s as [|c s IH]; intros Hs b; [done|].
  cbn [has_alnum] in Hs.
  cbn [VercelDeployer.lower VercelDeployer.collapse].
  destruct (VercelDeployer.is_slug_char (VercelDeployer.lower_char c)) eqn:Hc.
  - eexists _, _. split; [exact Hc|by left].
  - cbn [orb] in Hs.
    destruct (IH Hs true) as (c' & t & Hc' & [Hl|[? _]]); [|done].
    destruct b.
    + exists c', t. split; [done|by left].
    + exists c', t. split; [done|]. right. by rewrite Hl.
Qed.

(** X16. The shape of a project slug. For every business name,
    [_slugify] gives at most 50 characters, all of them lower-case
    letters, digits or dashes, with no two dashes next to each other; the
    slug is empty or begins with a letter or a digit, and it is empty
    exactly when the name holds no letter and no digit. *)
Theorem slugify_shape (name : string) :
  (String.length (VercelDeployer._slugify name) <= 50)%nat
  ∧ slug_chars (VercelDeployer._slugify name) = true
  ∧ dashes_apart false (VercelDeployer._slugify name) = true
  ∧ starts_clean (VercelDeployer._slugify name) = true
  ∧ (VercelDeployer._slugify name = EmptyString ↔ has_alnum name = false).
Proof.
  unfold VercelDeployer._slugify. cbv zeta.
  rewrite (slice_prefix _ 50).
  set (r := VercelDeployer.collapse (VercelDeployer.lower name) false).
  assert (slug_chars (VercelDeployer.trim_dashes r) = true) as Hchars.
  { pose proof (collapse_slug_chars (VercelDeployer.lower name) false) as Hr.
    fold r in Hr. destruct r as [|c t]; [done|].
    cbn [VercelDeployer.trim_dashes]. destruct (Ascii.eqb c "-").
    - cbn [slug_chars] in Hr. apply andb_true_iff in Hr as [_ Hr].
      by apply drop_last_dash_slug_chars.
    - by apply drop_last_dash_slug_chars. }
  assert (dashes_apart false (VercelDeployer.trim_dashes r) = true) as Hapart.
  { pose proof (collapse_dashes_apart (VercelDeployer.lower name) false) as Hr.
    fold r in Hr. destruct r as [|c t]; [done|].
    cbn [VercelDeployer.trim_dashes]. destruct (Ascii.eqb c "-") eqn:Hc.
    - cbn [dashes_apart] in Hr. rewrite Hc in Hr.
      apply andb_true_iff in Hr as [_ Hr].
      by apply drop_last_dash_dashes_apart, dashes_apart_weaken.
    - by apply drop_last_dash_dashes_apart. }
  split; [apply take_length|].
  split; [by apply take_slug_chars|].
  split; [by apply take_dashes_apart|].
  destruct (has_alnum name) eqn:Hal.
  - destruct (has_alnum_head name Hal false) as (c & t & Hc & Hr).
    fold r in Hr.
    assert (∃ t', VercelDeployer.trim_dashes r = String c t') as [t' Ht].
    { destruct Hr as [->|[_ ->]]; cbn [VercelDeployer.trim_dashes].
      - rewrite (slug_char_not_dash c Hc). by apply drop_last_dash_head.
      - rewrite Ascii.eqb_refl. by apply drop_last_dash_head. }
    rewrite Ht. cbn [take starts_clean]. split; [done|]. by split.
  - destruct (has_alnum_lower name Hal false) as [Hr|Hr]; fold r in Hr;
      rewrite Hr; by cbn.
Qed.

(** ** Waiting for a deployment *)

Section PollFacts.
Context `{Runtime}.

(** As long as the build goes on, each turn of the loop costs one status
    request and two seconds. *)
Lemma poll_while_building (dw : DeployWorld) (k : nat) :
  ∀ m a st,
    (∀ i, (i < k)%nat → building (d_status dw (a + i))) →
    ∃ st',
      VercelDeployer.poll dw (k + m) a st = VercelDeployer.poll dw m (a + k) st'
      ∧ calls st' = calls st ++ replicate k status_poll
      ∧ clock st' = clock st + 2 * Z.of_nat k
      ∧ quiet_step st st'.
Proof.
  induction k as [|k IH]; intros m a st Hb.
  - exists st. rewrite Nat.add_0_r, app_nil_r. cbn [Nat.add].
    split; [done|]. split; [done|]. split; [lia|by repeat split].
  - destruct (Hb 0%nat) as (text & data & state & Ho & Hget & Hr & He); [lia|].
    rewrite Nat.add_0_r in Ho.
    cbn [Nat.add VercelDeployer.poll].
    unfold bind at 1, VercelDeployer.request, bind at 1, issue. rewrite Ho.
    unfold ret at 1. cbv beta iota. change (200 =? 200) with true. cbn [negb].
    unfold bind at 1, VercelDeployer.json_of, ret at 1.
    unfold bind at 1, lift. rewrite Hget, Hr, He.
    unfold bind at 1, VercelDeployer.sleep.
    match goal with
    | |- context [VercelDeployer.poll dw (k + m) (S a) ?s] =>
        destruct (IH m (S a) s) as (st' & Hrun & Hcalls & Hclock & Hq)
    end.
    { intros i Hi. replace (S a + i)%nat with (a + S i)%nat by lia.
      apply Hb. lia. }
    exists st'. rewrite Hrun. replace (S a + k)%nat with (a + S k)%nat by lia.
    split; [done|]. split.
    { rewrite Hcalls. cbn [calls set_clock set_calls replicate].
      by rewrite <- app_assoc. }
    split.
    { rewrite Hclock. cbn [clock set_clock set_calls]. lia. }
    destruct Hq as (Hh & Hj & Hn). by repeat split.
Qed.

Lemma ready_state (data state : json) :
  get data "readyState" = Ok state →
  eq_str state "READY" = true →
  get_or data "readyState" (JStr "READY") = Ok (JStr "READY").
Proof.
  unfold get. destruct data as [| | | | | |kvs]; try done.
  cbn [get_or]. destruct (assoc "readyState" kvs) as [x|].
  - intros [= ->]. destruct state as [| | | |s| |]; try done.
    cbn [eq_str]. by intros ->%String.eqb_eq.
  - by intros [= <-].
Qed.

(** What the loop returns is an answer that reports READY. *)
Lemma poll_returns_ready (dw : DeployWorld) (n : nat) :
  ∀ a st data st',
    VercelDeployer.poll dw n a st = (Ok data, st') →
    get_or data "readyState" (JStr "READY") = Ok (JStr "READY").
Proof.
  induction n as [|n IH]; intros a st data st'; [done|].
  cbn [VercelDeployer.poll].
  unfold bind at 1, VercelDeployer.request, bind at 1, issue.
  destruct (d_status dw a) as [code text body|e]; [|done].
  unfold ret at 1. cbv beta iota.
  destruct (negb (code =? 200)); [done|].
  unfold bind at 1, VercelDeployer.json_of.
  destruct body as [v|]; [|done]. unfold ret at 1.
  unfold bind at 1, lift. destruct (get v "readyState") as [state|] eqn:Hget;
    [|done].
  destruct (eq_str state "READY") eqn:Hr.
  - intros [= <- _]. by eapply ready_state.
  - destruct (eq_str state "ERROR").
    + unfold bind. by destruct (get_or v "errorMessage" _).
    + unfold bind at 1, VercelDeployer.sleep. apply IH.
Qed.

Lemma configure_domain_result dw project_id domain st x st' :
  VercelDeployer._configure_domain dw project_id domain st = (Ok x, st') →
  x = None ∨ x = Some VercelDeployer.dns_records_for_user.
Proof.
  unfold VercelDeployer._configure_domain, bind at 1, VercelDeployer.request,
    bind at 1, issue.
  destruct (d_add_domain dw) as [code text body|e]; [|done].
  unfold ret at 1. cbv beta iota.
  unfold bind at 1, VercelDeployer.json_of.
  destruct body as [v|]; [|done]. unfold ret at 1.
  destruct (negb _); intros [= <- _]; [by left|by right].
Qed.

End PollFacts.

(** X17. The wait gives up after exactly [max_attempts] polls. When every
    status answer up to [max_attempts] reports a build that is neither
    ready nor failed, [_wait_for_ready] raises "Deployment timed out"
    after [max_attempts] status requests and [2 * max_attempts] seconds
    of sleep (60 requests and 120 seconds with the default), and it
    touches neither the jobs nor the store. *)
Theorem wait_for_ready_times_out `{Runtime}
    (dw : DeployWorld) (deployment_id : json) (max_attempts : nat)
    (st : State) :
  (∀ i, (i < max_attempts)%nat → building (d_status dw i)) →
  ∃ st',
    VercelDeployer._wait_for_ready dw deployment_id max_attempts st
    = (Raise (Exn "Exception" "Deployment timed out"), st')
    ∧ calls st' = calls st ++ replicate max_attempts status_poll
    ∧ clock st' = clock st + 2 * Z.of_nat max_attempts
    ∧ quiet_step st st'.
Proof.
  intros Hb. unfold VercelDeployer._wait_for_ready.
  destruct (poll_while_building dw max_attempts 0 0 st Hb)
    as (st' & Hrun & Hcalls & Hclock & Hq).
  rewrite Nat.add_0_r in Hrun. rewrite Hrun. by exists st'.
Qed.

Lemma wait_for_ready_times_out_witness :
  ∃ st',
    VercelDeployer._wait_for_ready (H := reference_runtime) stuck_build
      (JStr "dpl_1") 60 init_state
    = (Raise (Exn "Exception" "Deployment timed out"), st')
    ∧ calls st' = calls init_state ++ replicate 60 status_poll
    ∧ clock st' = clock init_state + 2 * Z.of_nat 60
    ∧ quiet_step init_state st'.
Proof.
  apply (wait_for_ready_times_out (H := reference_runtime) stuck_build
           (JStr "dpl_1") 60 init_state).
  intros i _. exists "", (JObj [("id", JStr "dpl_1");
                                ("readyState", JStr "BUILDING")]),
    (JStr "BUILDING").
  by repeat split.
Defined.

(** X18. The wait returns the first answer that reports READY. When the
    answers to the polls 0 to [k - 1] report a build in progress and the
    answer to poll [k] reports READY, with [k < max_attempts],
    [_wait_for_ready] returns the data of that answer after [k + 1]
    status requests and [2 * k] seconds of sleep; later answers are never
    asked for. *)
Theorem wait_for_ready_first_ready `{Runtime}
    (dw : DeployWorld) (deployment_id : json) (max_attempts k : nat)
    (data : json) (st : State) :
  (k < max_attempts)%nat →
  (∀ i, (i < k)%nat → building (d_status dw i)) →
  ready (d_status dw k) data →
  ∃ st',
    VercelDeployer._wait_for_ready dw deployment_id max_attempts st
    = (Ok data, st')
    ∧ calls st' = calls st ++ replicate (S k) status_poll
    ∧ clock st' = clock st + 2 * Z.of_nat k.
Proof.
  intros Hk Hb (text & state & Ho & Hget & Hr).
  unfold VercelDeployer._wait_for_ready.
  destruct (poll_while_building dw k (max_attempts - k) 0 st Hb)
    as (st1 & Hrun & Hcalls & Hclock & _).
  replace (k + (max_attempts - k))%nat with max_attempts in Hrun by lia.
  rewrite Hrun. cbn [Nat.add].
  destruct (max_attempts - k)%nat as [|m] eqn:Hm; [lia|].
  cbn [VercelDeployer.poll].
  unfold bind at 1, VercelDeployer.request, bind at 1, issue. rewrite Ho.
  unfold ret at 1. cbv beta iota. change (200 =? 200) with true. cbn [negb].
  unfold bind at 1, VercelDeployer.json_of, ret at 1.
  unfold bind at 1, lift. rewrite Hget, Hr. unfold ret.
  eexists. split; [reflexivity|]. cbn [calls clock set_calls]. split.
  - by rewrite Hcalls, <- app_assoc, replicate_S_end.
  - done.
Qed.

Lemma wait_for_ready_first_ready_witness :
  ∃ st',
    VercelDeployer._wait_for_ready (H := reference_runtime)
      (healthy_hosting (vercel_ok [])) (JStr "dpl_1") 60 init_state
    = (Ok (JObj [("id", JStr "dpl_1");
                 ("url", JStr "acme-coffee-x1.vercel.app");
                 ("readyState", JStr "READY")]), st')
    ∧ calls st' = calls init_state ++ replicate 3 status_poll
    ∧ clock st' = clock init_state + 2 * Z.of_nat 2.
Proof.
  apply (wait_for_ready_first_ready (H := reference_runtime)
           (healthy_hosting (vercel_ok [])) (JStr "dpl_1") 60 2
           (JObj [("id", JStr "dpl_1");
                  ("url", JStr "acme-coffee-x1.vercel.app");
                  ("readyState", JStr "READY")]) init_state).
  - lia.
  - intros i Hi.
    exists "", (JObj [("id", JStr "dpl_1");
                      ("url", JStr "acme-coffee-x1.vercel.app");
                      ("readyState", JStr "BUILDING")]), (JStr "BUILDING").
    destruct i as [|[|i]]; [by repeat split|by repeat split|lia].
  - exists "", (JStr "READY"). by repeat split.
Defined.

(** X19. What a deployment that returns looks like. Whenever [deploy]
    returns a result, its [status] is "READY", its [production_url] is
    "https://<slug>.vercel.app" for the slug of the project name, and its
    [dns_records] are absent or the two fixed records (A @ 76.76.21.21,
    CNAME www cname.vercel-dns.com), and absent whenever no custom domain
    was asked for. *)
Theorem deploy_result_shape `{Runtime}
    (dw : DeployWorld) (html name : string) (custom_domain : option string)
    (st st' : State) (r : DeploymentResult.t) :
  VercelDeployer.deploy dw html name custom_domain st = (Ok r, st') →
  DeploymentResult.status r = "READY"
  ∧ DeploymentResult.production_url r
    = "https://" +:+ VercelDeployer._slugify name +:+ ".vercel.app"
  ∧ (DeploymentResult.dns_records r = None
     ∨ DeploymentResult.dns_records r
       = Some VercelDeployer.dns_records_for_user)
  ∧ (truthy_opt_str custom_domain = false →
     DeploymentResult.dns_records r = None).
Proof.
  unfold VercelDeployer.deploy. cbv zeta.
  unfold bind at 1.
  destruct (VercelDeployer._ensure_project dw _ st) as [[pid|?] s1]; [|done].
  unfold bind at 1.
  destruct (VercelDeployer._create_deployment dw _ pid _ s1) as [[dep|?] s2];
    [|done].
  unfold bind at 1, lift at 1.
  destruct (getitem dep "id") as [dep_id|?]; [|done].
  unfold bind at 1.
  destruct (VercelDeployer._wait_for_ready dw dep_id 60 s2)
    as [[answer|?] s3] eqn:Hwait; [|done].
  apply poll_returns_ready in Hwait.
  unfold bind at 1.
  match goal with
  | |- context [(if ?b then ?c1 else ?c2) s3] =>
      destruct ((if b then c1 else c2) s3) as [[dns|?] s4] eqn:Hdns; [|done]
  end.
  assert ((dns = None ∨ dns = Some VercelDeployer.dns_records_for_user)
          ∧ (truthy_opt_str custom_domain = false → dns = None)) as [Hd1 Hd2].
  { destruct (truthy_opt_str custom_domain).
    - split; [by eapply configure_domain_result|done].
    - injection Hdns as <- _. split; [by left|done]. }
  unfold bind, lift, ret. rewrite Hwait. cbv beta iota.
  change (Validate.str (JStr "READY")) with (Ok "READY").
  repeat match goal with
         | |- context [match ?x with Ok _ => _ | Raise _ => _ end] =>
             destruct x; try done
         end.
  intros [= <- _].
  cbn [DeploymentResult.status DeploymentResult.production_url
       DeploymentResult.dns_records].
  by repeat split.
Qed.

Lemma deploy_result_shape_witness :
  DeploymentResult.status sample_deployment = "READY"
  ∧ DeploymentResult.production_url sample_deployment
    = "https://" +:+ VercelDeployer._slugify "Acme Coffee" +:+ ".vercel.app"
  ∧ (DeploymentResult.dns_records sample_deployment = None
     ∨ DeploymentResult.dns_records sample_deployment
       = Some VercelDeployer.dns_records_for_user)
  ∧ (truthy_opt_str None = false →
     DeploymentResult.dns_records sample_deployment = None).
Proof.
  apply (deploy_result_shape (H := reference_runtime)
           (healthy_hosting (vercel_ok [])) "<html></html>" "Acme Coffee" None
           init_state
           (VercelDeployer.deploy (H := reference_runtime)
              (healthy_hosting (vercel_ok [])) "<html></html>" "Acme Coffee"
              None init_state).2).
  vm_compute. reflexivity.
Defined.

(** ** Routes *)

(** X20. An id the store does not know is answered with 404 "Job not
    found" by the job, preview and deploy routes alike, whatever the
    deploy request asks, and a background run for such an id returns at
    once; none of the four changes the state or issues a call. *)
Theorem unknown_job_is_not_found `{Runtime} (st : State) (job_id : string) :
  jobs st !! job_id = None →
  Main.get_job job_id st = (Ok (HTTPException 404 "Job not found"), st)
  ∧ Main.get_job_preview job_id st
    = (Ok (HTTPException 404 "Job not found"), st)
  ∧ (∀ dw request,
       Main.deploy_job dw job_id request st
       = (Ok (HTTPException 404 "Job not found"), st))
  ∧ (∀ w, Main.process_job w job_id st = (Ok tt, st)).
Proof.
  intros Hnone.
  unfold Main.get_job, Main.get_job_preview, Main.deploy_job,
    Main.process_job, bind, JobStore.get.
  rewrite Hnone. by repeat split.
Qed.

Lemma unknown_job_is_not_found_witness :
  Main.get_job "job-2" fresh_state
  = (Ok (HTTPException 404 "Job not found"), fresh_state)
  ∧ Main.get_job_preview "job-2" fresh_state
    = (Ok (HTTPException 404 "Job not found"), fresh_state)
  ∧ (∀ dw request,
       Main.deploy_job (H := reference_runtime) dw "job-2" request fresh_state
       = (Ok (HTTPException 404 "Job not found"), fresh_state))
  ∧ (∀ w, Main.process_job (H := reference_runtime) w "job-2" fresh_state
          = (Ok tt, fresh_state)).
Proof.
  apply (unknown_job_is_not_found (H := reference_runtime) fresh_state "job-2").
  vm_compute. reflexivity.
Defined.

Lemma get_job_preview_eq (st : State) (job_id : string) (job : nat) (j : Job.t) :
  jobs st !! job_id = Some job →
  heap st !! job = Some j →
  Main.get_job_preview job_id st
  = (Ok match Job.generated_site j with
        | None => HTTPException 400 "Website not yet generated"
        | Some site => Replied (GeneratedSite.html site)
        end, st).
Proof.
  intros Hjobs Hj. unfold Main.get_job_preview, bind, JobStore.get, deref.
  rewrite Hjobs, Hj. change (default blank_job (Some j)) with j.
  by destruct (Job.generated_site j).
Qed.

(** A background run ends with the job completed and a site recorded, or
    with the job failed and its site and deployment as they were. *)
Lemma process_job_site `{Runtime}
    (w : PipelineWorld) (job_id : string) (st1 : State) (job : nat)
    (j0 : Job.t) :
  jobs st1 !! job_id = Some job →
  heap st1 !! job = Some j0 →
  ∃ st2 j2,
    Main.process_job w job_id st1 = (Ok tt, st2)
    ∧ heap st2 !! job = Some j2
    ∧ jobs st2 !! job_id = Some job
    ∧ ((Job.status j2 = COMPLETED ∧ is_Some (Job.generated_site j2))
       ∨ (Job.status j2 = FAILED ∧ is_Some (Job.error j2)
          ∧ Job.generated_site j2 = Job.generated_site j0
          ∧ Job.deployment j2 = Job.deployment j0)).
Proof.
  intros Hjobs Hj0.
  unfold Main.process_job, bind at 1, JobStore.get. rewrite Hjobs.
  unfold bind at 1, try_except, bind at 1, deref. rewrite Hj0.
  change (default blank_job (Some j0)) with j0.
  unfold bind at 1.
  destruct (good_run job_id job w (Job.request j0) st1)
    as (l & Htrace & _ & _ & _).
  destruct (trace_step_spec _ _ _ _ _ Htrace j0 Hj0)
    as (running & jR & _ & _ & _ & HjR & HcoreR & HjobsR).
  destruct HcoreR as (_ & _ & _ & _ & _ & HsiteR & HdepR & _).
  destruct (WebsiteGeneratorOrchestrator.run w (Job.request j0) _ st1)
    as [[result|e] stR]; cbn [fst snd] in *.
  - unfold bind at 1. rewrite setattr_eq.
    unfold bind at 1. rewrite setattr_eq.
    unfold bind at 1. rewrite setattr_eq.
    unfold bind at 1. rewrite setattr_eq.
    unfold bind at 1, utcnow at 1. cbn [fst snd].
    unfold bind at 1. rewrite setattr_eq.
    set (jC := Job.set_updated_at (clock stR)
                 (Job.set_status COMPLETED
                    (Job.set_generated_site
                       (Some (OrchestrationResult.generated_site result))
                       (Job.set_extracted_data
                          (Some (OrchestrationResult.extracted_data result))
                          (Job.set_scrape_result
                             (Some (OrchestrationResult.scrape_result result))
                             jR))))).
    match goal with
    | |- context [Main.on_progress job_id job ?s ?m ?p ?st] =>
        destruct (on_progress_spec job_id job s m p st jC)
          as (a & stA & HrunA & HjA & _ & HjobsA & HcoreA & _);
          [subst jC; heap_lookup|]
    end.
    rewrite HrunA. unfold bind at 1.
    rewrite (update_eq job a) by done.
    set (b := Job.set_updated_at (clock stA) a).
    rewrite (notify_eq job_id job b) by (subst b; heap_lookup).
    destruct HcoreA as (_ & HstA & _ & _ & _ & HsiteA & _ & _).
    simpl in HstA, HsiteA.
    exists (set_notified (notified (updated job a stA) ++ [(job_id, b)])
              (updated job a stA)), b.
    split; [reflexivity|]. split; [subst b; heap_lookup|].
    split.
    { simpl. apply lookup_insert_same. rewrite HjobsA.
      apply lookup_insert_same. simpl. by apply HjobsR. }
    left. split; [done|]. simpl. rewrite HsiteA. by eexists.
  - unfold bind at 1. rewrite setattr_eq.
    unfold bind at 1. rewrite setattr_eq.
    unfold bind at 1, utcnow at 1. cbn [fst snd].
    rewrite setattr_eq. unfold bind at 1.
    set (jF := Job.set_updated_at (clock stR)
                 (Job.set_error (Some (exn_msg e))
                    (Job.set_status FAILED jR))).
    rewrite (update_eq job jF) by (subst jF; heap_lookup).
    set (a := Job.set_updated_at (clock stR + 1) jF).
    rewrite (notify_eq job_id job a) by (subst a jF; heap_lookup).
    eexists _, a. split; [reflexivity|].
    split; [subst a jF; heap_lookup|].
    split. { simpl. by apply lookup_insert_same, HjobsR. }
    right. split; [done|]. split; [by eexists|]. by split.
Qed.

(** X21. A background run never leaves a job half done. For a stored
    job without a site, [process_job] returns, and afterwards either the
    job is completed, has a site, and the preview route serves the HTML
    of that site; or the job is failed with an error message, has no
    site, and both the preview route and the deploy route (before any
    hosting call) answer 400 "Website not yet generated". *)
Theorem process_job_outcome_matches_preview `{Runtime}
    (w : PipelineWorld) (job_id : string) (st1 : State) (job : nat)
    (j0 : Job.t) :
  jobs st1 !! job_id = Some job →
  heap st1 !! job = Some j0 →
  Job.generated_site j0 = None →
  ∃ st2 j2,
    Main.process_job w job_id st1 = (Ok tt, st2)
    ∧ stored st2 job_id = Some j2
    ∧ ((∃ site,
          Job.status j2 = COMPLETED
          ∧ Job.generated_site j2 = Some site
          ∧ Main.get_job_preview job_id st2
            = (Ok (Replied (GeneratedSite.html site)), st2))
       ∨ (Job.status j2 = FAILED
          ∧ is_Some (Job.error j2)
          ∧ Job.generated_site j2 = None
          ∧ Main.get_job_preview job_id st2
            = (Ok (HTTPException 400 "Website not yet generated"), st2)
          ∧ ∀ dw request,
              Main.deploy_job dw job_id request st2
              = (Ok (HTTPException 400 "Website not yet generated"), st2))).
Proof.
  intros Hjobs Hj0 Hnone.
  destruct (process_job_site w job_id st1 job j0 Hjobs Hj0)
    as (st2 & j2 & Hrun & Hj2 & Hjobs2 & Hend).
  exists st2, j2. split; [done|].
  split. { unfold stored. by rewrite Hjobs2, Hj2. }
  pose proof (get_job_preview_eq st2 job_id job j2 Hjobs2 Hj2) as Hpreview.
  destruct Hend as [[Hst [site Hsite]]|(Hst & Herr & Hsite & _)].
  - left. exists site. rewrite Hsite in Hpreview. by repeat split.
  - right. rewrite Hnone in Hsite. rewrite Hsite in Hpreview.
    split; [done|]. split; [done|]. split; [done|]. split; [done|].
    intros dw request. unfold Main.deploy_job, bind, JobStore.get, deref.
    rewrite Hjobs2, Hj2. change (default blank_job (Some j2)) with j2.
    by rewrite Hsite.
Qed.

Lemma process_job_outcome_matches_preview_witness :
  ∃ st2 j2,
    Main.process_job (H := reference_runtime) template_down_world "job-1"
      fresh_state = (Ok tt, st2)
    ∧ stored st2 "job-1" = Some j2
    ∧ ((∃ site,
          Job.status j2 = COMPLETED
          ∧ Job.generated_site j2 = Some site
          ∧ Main.get_job_preview "job-1" st2
            = (Ok (Replied (GeneratedSite.html site)), st2))
       ∨ (Job.status j2 = FAILED
          ∧ is_Some (Job.error j2)
          ∧ Job.generated_site j2 = None
          ∧ Main.get_job_preview "job-1" st2
            = (Ok (HTTPException 400 "Website not yet generated"), st2)
          ∧ ∀ dw request,
              Main.deploy_job (H := reference_runtime) dw "job-1" request st2
              = (Ok (HTTPException 400 "Website not yet generated"), st2))).
Proof.
  apply (process_job_outcome_matches_preview (H := reference_runtime)
           template_down_world "job-1" fresh_state 0%nat (sample_job 0));
    vm_compute; reflexivity.
Defined.

(** ** The progress log *)

Lemma rising_app (mid : Z) (l1 l2 : list Z) :
  rising l1 → rising l2 →
  Forall (λ p, p ≤ mid) l1 → Forall (λ p, mid ≤ p) l2 →
  rising (l1 ++ l2).
Proof.
  intros H1 H2 Hlo Hhi. induction l1 as [|p l1 IH]; [done|].
  destruct H1 as [Hp H1]. apply Forall_cons in Hlo as [Hpm Hlo].
  cbn [app rising]. split; [|by apply IH].
  apply Forall_app. split; [done|].
  eapply Forall_impl; [exact Hhi|]. intros q Hq. cbv beta in *. lia.
Qed.

Lemma log_step_app job_id job l1 l2 st1 st2 st3 :
  log_step job_id job l1 st1 st2 →
  log_step job_id job l2 st2 st3 →
  log_step job_id job (l1 ++ l2) st1 st3.
Proof.
  induction 1 as [st|st st' st'' l Hq _ IH|st stage m p st'' l _ IH];
    intros H2; simpl.
  - done.
  - eapply log_quiet; [done|by apply IH].
  - apply log_progress with stage m. by apply IH.
Qed.

Section ReportFacts.
Context {A B : Type} (job_id : string) (job : nat).

Lemma reports_silent lo hi (c : M A) : silent c → reports job_id job lo hi c.
Proof.
  intros Hc st. exists []. split; [|done].
  eapply log_quiet; [apply Hc|apply log_done].
Qed.

Lemma reports_bind lo mid hi (c : M A) (k : A → M B) :
  lo ≤ mid → mid ≤ hi →
  reports job_id job lo mid c →
  (∀ a, reports job_id job mid hi (k a)) →
  reports job_id job lo hi (bind c k).
Proof.
  intros Hlo Hhi Hc Hk st. unfold bind.
  destruct (Hc st) as (l1 & Ht1 & Hr1 & Hw1).
  destruct (c st) as [[a|e] st1]; cbn [fst snd] in *.
  - destruct (Hk a st1) as (l2 & Ht2 & Hr2 & Hw2).
    exists (l1 ++ l2). split; [by eapply log_step_app|]. split.
    + apply (rising_app mid); [done|done| |].
      * eapply Forall_impl; [exact Hw1|]. intros p Hp. cbv beta in *. lia.
      * eapply Forall_impl; [exact Hw2|]. intros p Hp. cbv beta in *. lia.
    + apply Forall_app. split.
      * eapply Forall_impl; [exact Hw1|]. intros p Hp. cbv beta in *. lia.
      * eapply Forall_impl; [exact Hw2|]. intros p Hp. cbv beta in *. lia.
  - exists l1. split; [done|]. split; [done|].
    eapply Forall_impl; [exact Hw1|]. intros p Hp. cbv beta in *. lia.
Qed.

Lemma reports_bind_silent lo hi (c : M A) (k : A → M B) :
  silent c →
  (∀ a, reports job_id job lo hi (k a)) →
  reports job_id job lo hi (bind c k).
Proof.
  intros Hc Hk st. unfold bind. pose proof (Hc st) as Hq.
  destruct (c st) as [[a|e] st1]; cbn [fst snd] in *.
  - destruct (Hk a st1) as (l & Ht & Hr & Hw).
    exists l. split; [by eapply log_quiet|done].
  - exists []. split; [|done]. eapply log_quiet; [done|apply log_done].
Qed.

Lemma reports_bind_progress lo hi stage message percent (k : unit → M B) :
  lo ≤ percent → percent ≤ hi →
  (∀ a, reports job_id job percent hi (k a)) →
  reports job_id job lo hi
    (bind (Main.on_progress job_id job stage message percent) k).
Proof.
  intros Hlo Hhi Hk st. unfold bind.
  destruct (Main.on_progress job_id job stage message percent st)
    as [[[]|e] st1] eqn:Hrun.
  - destruct (Hk tt st1) as (l & Ht & Hr & Hw).
    exists (percent :: l). split.
    { apply log_progress with stage message. by rewrite Hrun. }
    split.
    + split; [|done]. eapply Forall_impl; [exact Hw|].
      intros p Hp. cbv beta in *. lia.
    + apply Forall_cons. split; [lia|].
      eapply Forall_impl; [exact Hw|]. intros p Hp. cbv beta in *. lia.
  - exists [percent]. split.
    { apply log_progress with stage message. rewrite Hrun. apply log_done. }
    split; [by split|]. apply Forall_cons. split; [lia|done].
Qed.

Lemma reports_try_silent lo hi (c : M A) (h : exn → M A) :
  reports job_id job lo hi c →
  (∀ e, silent (h e)) →
  reports job_id job lo hi (try_except c h).
Proof.
  intros Hc Hh st. unfold try_except.
  destruct (Hc st) as (l & Ht & Hr & Hw).
  destruct (c st) as [[a|e] st1]; cbn [fst snd] in *; [by exists l|].
  exists l. split; [|done].
  rewrite <- (app_nil_r l). eapply log_step_app; [done|].
  eapply log_quiet; [apply Hh|apply log_done].
Qed.

End ReportFacts.

Ltac reports_step :=
  first
    [ solve [apply reports_silent; repeat silent_step]
    | match goal with
      | |- reports _ _ _ _ (bind (report (Some _) _ _ _) _) =>
          cbn [report]; apply reports_bind_progress; [lia|lia|intros _]
      | |- reports _ _ _ _ (bind (Main.on_progress _ _ _ _ _) _) =>
          apply reports_bind_progress; [lia|lia|intros _]
      | |- reports _ _ _ _ (bind _ _) =>
          apply reports_bind_silent; [solve [repeat silent_step]|intros ?]
      | |- reports _ _ _ _ (try_except _ _) =>
          apply reports_try_silent; [|intros ?; solve [repeat silent_step]]
      | |- reports _ _ _ _ (match ?x with _ => _ end) => destruct x
      | |- reports _ _ _ _ (if ?b then _ else _) => destruct b
      | |- reports _ _ _ _ (let _ := _ in _) => cbv zeta
      end ].

Section StageReports.
Context `{Runtime}.
Variables (job_id : string) (job : nat).

Lemma reports_scrape_all w request :
  reports job_id job 10 30
    (ScraperService.scrape_all w request (Some (Main.on_progress job_id job))).
Proof.
  unfold ScraperService.scrape_all. cbv zeta. reports_step.
  apply reports_bind_silent.
  - apply silent_gather.
    repeat (apply Forall_cons; split;
            [destruct (_ : bool);
             [apply silent_connector|apply silent_empty_result]|]).
    apply Forall_nil_2.
  - intros results. destruct (ScraperService.fan_in results).
    repeat reports_step.
Qed.

Lemma reports_extract w scrape_result name :
  reports job_id job 40 50
    (AIEngineService.extract_business_data w scrape_result name
       (Some (Main.on_progress job_id job))).
Proof. unfold AIEngineService.extract_business_data. repeat reports_step. Qed.

Lemma reports_fill_gaps w data :
  reports job_id job 55 60
    (AIEngineService.fill_gaps w data (Some (Main.on_progress job_id job))).
Proof. unfold AIEngineService.fill_gaps. repeat reports_step. Qed.

Lemma reports_generate w data :
  reports job_id job 65 90
    (WebsiteGeneratorService.generate w data
       (Some (Main.on_progress job_id job))).
Proof.
  unfold WebsiteGeneratorService.generate,
    WebsiteGeneratorService._generate_with_21st_dev,
    WebsiteGeneratorService._generate_with_claude.
  repeat reports_step.
Qed.

(** The orchestrator reports percentages that never go back, from 5 to
    100. *)
Lemma reports_run w request :
  reports job_id job 5 100
    (WebsiteGeneratorOrchestrator.run w request
       (Some (Main.on_progress job_id job))).
Proof.
  unfold WebsiteGeneratorOrchestrator.run. cbv zeta.
  apply reports_bind_progress; [lia|lia|intros _].
  apply (reports_bind _ _ 5 30 100); [lia|lia| |intros scrape_result].
  { intros st. destruct (reports_scrape_all w request st) as (l & ? & ? & Hw).
    exists l. split; [done|]. split; [done|].
    eapply Forall_impl; [exact Hw|]. intros p Hp. cbv beta in *. lia. }
  apply reports_bind_progress; [lia|lia|intros _].
  apply (reports_bind _ _ 35 50 100); [lia|lia| |intros extracted].
  { intros st.
    destruct (reports_extract w scrape_result
                (JobCreateRequest.business_name request) st)
      as (l & ? & ? & Hw).
    exists l. split; [done|]. split; [done|].
    eapply Forall_impl; [exact Hw|]. intros p Hp. cbv beta in *. lia. }
  apply (reports_bind _ _ 50 60 100); [lia|lia| |intros data].
  { destruct (_ || _); [|by apply reports_silent, silent_ret].
    apply reports_bind_progress; [lia|lia|intros _].
    intros st. destruct (reports_fill_gaps w extracted st) as (l & ? & ? & Hw).
    exists l. split; [done|]. split; [done|].
    eapply Forall_impl; [exact Hw|]. intros p Hp. cbv beta in *. lia. }
  apply reports_bind_progress; [lia|lia|intros _].
  apply (reports_bind _ _ 65 90 100); [lia|lia| |intros site].
  { apply reports_generate. }
  apply reports_bind_progress; [lia|lia|intros _].
  apply reports_silent, silent_ret.
Qed.

End StageReports.

(** One call of the progress callback appends one entry to the log of
    the job and changes nothing else in it but the stage tag and the
    update time. *)
Lemma on_progress_log job_id job stage message percent st j :
  heap st !! job = Some j →
  ∃ j' st',
    Main.on_progress job_id job stage message percent st = (Ok tt, st')
    ∧ heap st' !! job = Some j'
    ∧ jobs st' = <[Job.id j := job]> (jobs st)
    ∧ same_core j j'
    ∧ Job.progress j'
      = Job.progress j ++ [JobProgress.mk stage message percent (clock st)].
Proof.
  intros Hj. unfold Main.on_progress.
  unfold bind at 1. rewrite setattr_eq.
  unfold bind at 1, utcnow at 1. cbn [fst snd].
  unfold bind at 1. rewrite setattr_eq.
  unfold bind at 1, utcnow at 1. cbn [fst snd].
  unfold bind at 1. rewrite setattr_eq.
  set (j1 := Job.set_updated_at (clock st + 1)
               (Job.set_progress
                  (Job.progress j
                   ++ [JobProgress.mk stage message percent (clock st)])
                  (Job.set_current_stage (Some stage) j))).
  unfold bind at 1.
  rewrite (update_eq job j1) by (subst j1; heap_lookup).
  set (j2 := Job.set_updated_at (clock st + 1 + 1) j1).
  rewrite (notify_eq job_id job j2) by (subst j2 j1; heap_lookup).
  exists j2. eexists. split; [reflexivity|].
  split; [subst j2 j1; heap_lookup|].
  split; [done|]. split; [by repeat split|done].
Qed.

Lemma log_step_spec job_id job l st st' :
  log_step job_id job l st st' →
  ∀ j, heap st !! job = Some j →
  ∃ added j',
    heap st' !! job = Some j'
    ∧ same_core j j'
    ∧ Job.progress j' = Job.progress j ++ added
    ∧ map JobProgress.progress_percent added = l
    ∧ (∀ k, jobs st !! k = Some job → jobs st' !! k = Some job).
Proof.
  induction 1 as [st|st st' st'' l (Hh & Hjb & Hn) _ IH
                 |st stage m p st'' l _ IH]; intros j Hj.
  - exists [], j. rewrite app_nil_r. split; [done|].
    split; [apply same_core_refl|done].
  - destruct (IH j) as (added & j' & Hj' & Hcore & Hlog & Hp & Hk);
      [by rewrite Hh|].
    exists added, j'. split; [done|]. split; [done|]. split; [done|].
    split; [done|]. intros k Hkj. apply Hk. by rewrite Hjb.
  - destruct (on_progress_log job_id job stage m p st j Hj)
      as (j1 & st1 & Hrun & Hj1 & Hjb1 & Hcore1 & Hlog1).
    rewrite Hrun in IH. cbn [snd] in IH.
    destruct (IH j1 Hj1) as (added & j' & Hj' & Hcore & Hlog & Hp & Hk).
    exists (JobProgress.mk stage m p (clock st) :: added), j'.
    split; [done|]. split; [by eapply same_core_trans|].
    split. { rewrite Hlog, Hlog1. by rewrite <- app_assoc. }
    split. { cbn [map JobProgress.progress_percent]. by rewrite Hp. }
    intros k Hkj. apply Hk. rewrite Hjb1. by apply lookup_insert_same.
Qed.

(** X22. The progress log only grows and its percentages never go back.
    For every stored job, [process_job] returns; the progress log of the
    stored job afterwards is the log before the run followed by the
    entries of this run; their percentages are non-decreasing and lie
    between 5 and 100; and when the job ends completed, the last entry
    says 100. *)
Theorem process_job_progress_never_goes_back `{Runtime}
    (w : PipelineWorld) (job_id : string) (st1 : State) (job : nat)
    (j0 : Job.t) :
  jobs st1 !! job_id = Some job →
  heap st1 !! job = Some j0 →
  ∃ st2 j2 added,
    Main.process_job w job_id st1 = (Ok tt, st2)
    ∧ stored st2 job_id = Some j2
    ∧ Job.progress j2 = Job.progress j0 ++ added
    ∧ rising (map JobProgress.progress_percent added)
    ∧ Forall (λ p, 5 ≤ JobProgress.progress_percent p ≤ 100) added
    ∧ (Job.status j2 = COMPLETED →
       last (map JobProgress.progress_percent added) = Some 100).
Proof.
  intros Hjobs Hj0.
  unfold Main.process_job, bind at 1, JobStore.get. rewrite Hjobs.
  unfold bind at 1, try_except, bind at 1, deref. rewrite Hj0.
  change (default blank_job (Some j0)) with j0.
  unfold bind at 1.
  destruct (reports_run job_id job w (Job.request j0) st1)
    as (l & Hlog & Hrising & Hwindow).
  destruct (log_step_spec _ _ _ _ _ Hlog j0 Hj0)
    as (added & jR & HjR & _ & HlogR & Hpercent & HjobsR).
  assert (Forall (λ p, 5 ≤ JobProgress.progress_percent p ≤ 100) added)
    as Hadded.
  { rewrite <- Hpercent in Hwindow. by apply Forall_fmap in Hwindow. }
  destruct (WebsiteGeneratorOrchestrator.run w (Job.request j0) _ st1)
    as [[result|e] stR]; cbn [fst snd] in *.
  - unfold bind at 1. rewrite setattr_eq.
    unfold bind at 1. rewrite setattr_eq.
    unfold bind at 1. rewrite setattr_eq.
    unfold bind at 1. rewrite setattr_eq.
    unfold bind at 1, utcnow at 1. cbn [fst snd].
    unfold bind at 1. rewrite setattr_eq.
    set (jC := Job.set_updated_at (clock stR)
                 (Job.set_status COMPLETED
                    (Job.set_generated_site
                       (Some (OrchestrationResult.generated_site result))
                       (Job.set_extracted_data
                          (Some (OrchestrationResult.extracted_data result))
                          (Job.set_scrape_result
                             (Some (OrchestrationResult.scrape_result result))
                             jR))))).
    match goal with
    | |- context [Main.on_progress job_id job ?s ?m ?p ?st] =>
        destruct (on_progress_log job_id job s m p st jC)
          as (a & stA & HrunA & HjA & HjobsA & _ & HlogA);
          [subst jC; heap_lookup|]
    end.
    rewrite HrunA. unfold bind at 1.
    rewrite (update_eq job a) by done.
    set (b := Job.set_updated_at (clock stA) a).
    rewrite (notify_eq job_id job b) by (subst b; heap_lookup).
    eexists _, b, (added ++ [_]). split; [reflexivity|].
    split.
    { unfold stored. cbn [jobs heap set_notified updated set_jobs set_heap
                          set_clock].
      rewrite (lookup_insert_same _ job_id (Job.id a) job).
      - subst b. heap_lookup.
      - rewrite HjobsA. apply lookup_insert_same. simpl. by apply HjobsR. }
    split.
    { subst b. cbn [Job.progress Job.set_updated_at]. rewrite HlogA.
      subst jC. cbn [Job.progress Job.set_updated_at Job.set_status
                     Job.set_generated_site Job.set_extracted_data
                     Job.set_scrape_result].
      rewrite HlogR. by rewrite <- app_assoc. }
    split.
    { rewrite map_app. apply (rising_app 100).
      - by rewrite Hpercent.
      - by split.
      - rewrite Hpercent. eapply Forall_impl; [exact Hwindow|].
        intros p Hp. cbv beta in *. lia.
      - by repeat constructor. }
    split.
    { apply Forall_app. split; [done|]. apply Forall_cons.
      split; [simpl; lia|done]. }
    intros _. rewrite map_app. cbn [map]. by rewrite last_snoc.
  - unfold bind at 1. rewrite setattr_eq.
    unfold bind at 1. rewrite setattr_eq.
    unfold bind at 1, utcnow at 1. cbn [fst snd].
    rewrite setattr_eq. unfold bind at 1.
    set (jF := Job.set_updated_at (clock stR)
                 (Job.set_error (Some (exn_msg e))
                    (Job.set_status FAILED jR))).
    rewrite (update_eq job jF) by (subst jF; heap_lookup).
    set (a := Job.set_updated_at (clock stR + 1) jF).
    rewrite (notify_eq job_id job a) by (subst a jF; heap_lookup).
    eexists _, a, added. split; [reflexivity|].
    split.
    { unfold stored. cbn [jobs heap set_notified updated set_jobs set_heap
                          set_clock].
      rewrite (lookup_insert_same _ job_id (Job.id jF) job)
        by (by apply HjobsR).
      subst a jF. heap_lookup. }
    split. { subst a jF. simpl. exact HlogR. }
    split; [by rewrite Hpercent|]. split; [done|].
    subst a jF. simpl. done.
Qed.

Lemma process_job_progress_never_goes_back_witness :
  ∃ st2 j2 added,
    Main.process_job (H := reference_runtime)
      (sample_world (Ok "{}") (Ok "{}")) "job-1" fresh_state = (Ok tt, st2)
    ∧ stored st2 "job-1" = Some j2
    ∧ Job.progress j2 = Job.progress (sample_job 0) ++ added
    ∧ rising (map JobProgress.progress_percent added)
    ∧ Forall (λ p, 5 ≤ JobProgress.progress_percent p ≤ 100) added
    ∧ (Job.status j2 = COMPLETED →
       last (map JobProgress.progress_percent added) = Some 100).
Proof.
  apply (process_job_progress_never_goes_back (H := reference_runtime)
           (sample_world (Ok "{}") (Ok "{}")) "job-1" fresh_state 0%nat
           (sample_job 0));
    vm_compute; reflexivity.
Defined.

(** ** Markdown fences *)

Lemma prefix_app (p s : string) : prefix p (p +:+ s) = true.
Proof. induction p as [|c p IH]; [done|]. simpl. by rewrite Ascii.eqb_refl. Qed.

Lemma find_from_here (pat s : string) (i : Z) :
  prefix pat s = true → find_from pat s i = i.
Proof. intros Hp. destruct s; simpl; by rewrite Hp. Qed.

(** A pattern is absent from every start index, or found at a fixed
    offset from it. *)
Lemma find_from_shift (pat s : string) :
  (∀ j, find_from pat s j = -1)
  ∨ (∃ n, 0 ≤ n ∧ ∀ j, find_from pat s j = j + n).
Proof.
  induction s as [|c s IH]; cbn [find_from].
  - destruct (prefix pat EmptyString); [right|by left].
    exists 0. split; [lia|]. intros j. lia.
  - destruct (prefix pat (String c s)).
    + right. exists 0. split; [lia|]. intros j. lia.
    + destruct IH as [Hnone|(n & Hn & Hat)]; [by left|].
      right. exists (n + 1). split; [lia|]. intros j. rewrite Hat. lia.
Qed.

Lemma find_absent (s pat : string) (i : Z) :
  contains s pat = false → find_from pat s i = -1.
Proof.
  unfold contains, find. change (Z.to_nat 0) with 0%nat. cbn [drop].
  intros Hc. apply Z.leb_gt in Hc.
  destruct (find_from_shift pat s) as [Hnone|(n & Hn & Hat)]; [done|].
  rewrite Hat in Hc. lia.
Qed.

Lemma drop_app (p s : string) : drop (String.length p) (p +:+ s) = s.
Proof. induction p as [|c p IH]; [done|]. simpl. exact IH. Qed.

Lemma length_append (p s : string) :
  String.length (p +:+ s) = (String.length p + String.length s)%nat.
Proof. induction p as [|c p IH]; [done|]. simpl. by rewrite IH. Qed.

Lemma unfence_unclosed (fence body : string) :
  contains body "```" = false →
  AIEngineService.unfence fence (fence +:+ body)
  = strip (take (String.length body - 1) body).
Proof.
  intros Hbody. unfold AIEngineService.unfence.
  assert (find (fence +:+ body) fence 0 = 0) as Hstart.
  { unfold find. change (Z.to_nat 0) with 0%nat. cbn [drop].
    apply find_from_here, prefix_app. }
  unfold contains at 1. rewrite Hstart. change (0 <=? 0) with true. cbv iota zeta.
  assert (find (fence +:+ body) "```" (0 + len fence) = -1) as ->.
  { unfold find, len. rewrite Z.add_0_l, Nat2Z.id, drop_app.
    by apply find_absent. }
  f_equal. unfold slice, clamp, len. rewrite length_append.
  change (-1 <? 0) with true. cbv iota.
  destruct (0 + Z.of_nat (String.length fence) <? 0) eqn:Hneg;
    [apply Z.ltb_lt in Hneg; lia|].
  rewrite (Z.max_r 0 (Z.min _ (0 + _))) by lia.
  rewrite (Z.min_r _ (0 + _)) by lia.
  rewrite Z.add_0_l, Nat2Z.id, drop_app. f_equal. lia.
Qed.

(** X23. An opening fence that is never closed costs the last character.
    When an answer starts with the fence marker and holds no closing
    fence (an answer cut off by the token limit does), the clean-up of
    [_parse_json_response] and the clean-up of the generated HTML both
    keep the text after the marker without its last character, stripped:
    [str.find] gives -1 and the slice ends one character early. *)
Theorem unclosed_fence_drops_last_character (body : string) :
  contains body "```" = false →
  AIEngineService.unfence "```json" ("```json" +:+ body)
  = strip (take (String.length body - 1) body)
  ∧ WebsiteGeneratorService.clean_html ("```html" +:+ body)
    = strip (take (String.length body - 1) body).
Proof.
  intros Hbody. split; [by apply unfence_unclosed|].
  unfold WebsiteGeneratorService.clean_html. by apply unfence_unclosed.
Qed.

Lemma unclosed_fence_drops_last_character_witness :
  AIEngineService.unfence "```json" ("```json" +:+ "{}")
  = strip (take (String.length "{}" - 1) "{}")
  ∧ WebsiteGeneratorService.clean_html ("```html" +:+ "{}")
    = strip (take (String.length "{}" - 1) "{}").
Proof.
  apply (unclosed_fence_drops_last_character "{}"). vm_compute. reflexivity.
Defined.

(** ** Outbound calls of a pipeline run *)

Section CallFacts.
Context `{Runtime}.

Lemma extract_business_data_calls w scrape_result name cb st :
  quiet cb →
  call_free cb →
  ∃ d st',
    AIEngineService.extract_business_data w scrape_result name cb st
    = (Ok d, st')
    ∧ calls st' = calls st ++ [CallAnthropic "extract"].
Proof.
  intros Hq Hfree. unfold AIEngineService.extract_business_data, bind at 1.
  pose proof (Hfree "extracting" "Analyzing scraped data with AI..." 40 st)
    as Hc1.
  destruct (report_quiet cb Hq "extracting"
              "Analyzing scraped data with AI..." 40 st) as [st1 Hr1].
  rewrite Hr1 in Hc1 |- *. cbn [snd] in Hc1.
  unfold try_except, bind, issue, lift.
  destruct (w_extract w) as [content|e].
  - pose proof (Hfree "extracting" "Data extracted successfully" 50
                  (set_calls (calls st1 ++ [CallAnthropic "extract"]) st1))
      as Hc2.
    destruct (report_quiet cb Hq "extracting" "Data extracted successfully" 50
                (set_calls (calls st1 ++ [CallAnthropic "extract"]) st1))
      as [st2 Hr2].
    rewrite Hr2 in Hc2 |- *. cbn [snd] in Hc2.
    destruct (AIEngineService._to_business_data _ _) as [d|e];
      (eexists _, _; split; [done|]); unfold ret; cbn [snd];
      rewrite Hc2; simpl; by rewrite Hc1.
  - eexists _, _; split; [done|]. simpl. by rewrite Hc1.
Qed.

Lemma fill_gaps_calls w data cb st :
  quiet cb →
  call_free cb →
  ∃ d' st' extra,
    AIEngineService.fill_gaps w data cb st = (Ok d', st')
    ∧ calls st' = calls st ++ extra
    ∧ extra `sublist_of` [CallAnthropic "gap_fill"].
Proof.
  intros Hq Hfree. unfold AIEngineService.fill_gaps.
  destruct (_ && _).
  { exists data, st, []. split; [done|]. rewrite app_nil_r.
    split; [done|apply sublist_nil_l]. }
  unfold bind at 1.
  pose proof (Hfree "extracting" "Filling data gaps with AI..." 55 st) as Hc1.
  destruct (report_quiet cb Hq "extracting" "Filling data gaps with AI..." 55 st)
    as [st1 Hr1].
  rewrite Hr1 in Hc1 |- *. cbn [snd] in Hc1.
  unfold try_except at 1, bind, issue, lift.
  destruct (w_gap_fill w) as [content|e].
  - destruct (AIEngineService._merge_gap_data data _) as [d' outcome].
    destruct outcome as [[]|e].
    + unfold try_except.
      pose proof (Hfree "extracting" "Data gaps filled" 60
                    (set_calls (calls st1 ++ [CallAnthropic "gap_fill"]) st1))
        as Hc2.
      destruct (report_quiet cb Hq "extracting" "Data gaps filled" 60
                  (set_calls (calls st1 ++ [CallAnthropic "gap_fill"]) st1))
        as [st2 Hr2].
      rewrite Hr2 in Hc2 |- *. cbn [snd] in Hc2.
      eexists _, _, [CallAnthropic "gap_fill"]. split; [done|].
      split; [|done]. unfold ret. cbn [snd]. rewrite Hc2. simpl.
      by rewrite Hc1.
    + eexists _, _, [CallAnthropic "gap_fill"]. split; [done|].
      split; [|done]. simpl. by rewrite Hc1.
  - eexists _, _, [CallAnthropic "gap_fill"]. split; [done|].
    split; [|done]. simpl. by rewrite Hc1.
Qed.

Lemma generate_with_claude_calls w data sections st :
  ∃ extra,
    calls (WebsiteGeneratorService._generate_with_claude w data sections st).2
    = calls st ++ extra
    ∧ extra `sublist_of` [CallAnthropic "template"].
Proof.
  unfold WebsiteGeneratorService._generate_with_claude, bind, lift, issue, ret.
  destruct (WebsiteGeneratorService._build_generation_prompt data) as [[]|e].
  - exists [CallAnthropic "template"]. split; [|done].
    by destruct (w_template w).
  - exists []. split; [by rewrite app_nil_r|apply sublist_nil_l].
Qed.

Lemma generate_calls w data cb st :
  quiet cb →
  call_free cb →
  ∃ extra,
    calls (WebsiteGeneratorService.generate w data cb st).2
    = calls st ++ extra
    ∧ extra `sublist_of` [CallAnthropic "21st_dev"; CallAnthropic "template"].
Proof.
  intros Hq Hfree. unfold WebsiteGeneratorService.generate.
  unfold bind at 1, utcnow at 1. cbn [fst snd].
  unfold bind at 1.
  pose proof (Hfree "generating" "Generating website design..." 65
                (set_clock (clock st + 1) st)) as Hc1.
  destruct (report_quiet cb Hq "generating" "Generating website design..." 65
              (set_clock (clock st + 1) st)) as [st1 Hr1].
  rewrite Hr1 in Hc1 |- *. cbn [snd calls set_clock] in Hc1.
  cbv zeta. unfold bind at 1.
  match goal with
  | |- context [(if ?b then ?c1 else ?c2) st1] =>
      assert (∃ extra,
                calls ((if b then c1 else c2) st1).2 = calls st1 ++ extra
                ∧ extra `sublist_of`
                    [CallAnthropic "21st_dev"; CallAnthropic "template"])
        as (extra & Hcalls & Hsub);
      [|destruct ((if b then c1 else c2) st1) as [[html|e] st2]]
  end.
  { destruct (truthy_opt_str (twentyfirst_api_key w)).
    - unfold WebsiteGeneratorService._generate_with_21st_dev, try_except,
        bind, issue, lift, ret.
      destruct (w_21st_dev w) as [h|e0]; cbv beta iota.
      + exists [CallAnthropic "21st_dev"]. split; [done|].
        by repeat constructor.
      + destruct (generate_with_claude_calls w data
                    (WebsiteGeneratorService._determine_sections data)
                    (set_calls (calls st1 ++ [CallAnthropic "21st_dev"]) st1))
          as (extra & Hcalls & Hsub).
        exists (CallAnthropic "21st_dev" :: extra). split.
        * rewrite Hcalls. cbn [calls set_calls]. by rewrite <- app_assoc.
        * by apply sublist_skip.
    - destruct (generate_with_claude_calls w data
                  (WebsiteGeneratorService._determine_sections data) st1)
        as (extra & Hcalls & Hsub).
      exists extra. split; [done|]. by apply sublist_cons. }
  - cbn [snd] in Hcalls. unfold bind at 1.
    pose proof (Hfree "generating" "Website generated!" 90 st2) as Hc2.
    destruct (report_quiet cb Hq "generating" "Website generated!" 90 st2)
      as [st3 Hr3].
    rewrite Hr3 in Hc2 |- *. cbn [snd] in Hc2.
    unfold bind, utcnow, ret. cbn [snd calls set_clock].
    exists extra. split; [|done]. by rewrite Hc2, Hcalls, Hc1.
  - cbn [snd] in Hcalls |- *. exists extra. split; [|done].
    by rewrite Hcalls, Hc1.
Qed.

End CallFacts.

(** X24. The outbound calls of a pipeline run are bounded and ordered.
    With a progress callback that returns and issues no call, a run of
    the orchestrator first runs the connector of each provided source
    once (at most four), then asks the AI backend for the extraction
    exactly once, and after that issues at most one gap-fill call, at
    most one premium call and at most one template call, in this order;
    it issues no other call, whether it returns or raises. *)
Theorem run_call_budget `{Runtime}
    (w : PipelineWorld) (request : JobCreateRequest.t)
    (cb : option ProgressCallback) (st : State) :
  quiet cb →
  call_free cb →
  ∃ conn ai,
    calls (WebsiteGeneratorOrchestrator.run w request cb st).2
    = calls st ++ conn ++ CallAnthropic "extract" :: ai
    ∧ conn ≡ₚ map CallConnector
                (List.filter (provided request) ScraperService.source_names)
    ∧ ai `sublist_of` [CallAnthropic "gap_fill"; CallAnthropic "21st_dev";
                       CallAnthropic "template"].
Proof.
  intros Hq Hfree. unfold WebsiteGeneratorOrchestrator.run.
  set (f := match cb with Some f => f | None => λ _ _ _, ret tt end).
  assert (returns f) as Hf.
  { subst f. destruct cb as [g|]; [exact Hq|]. intros ? ? ? st0. by exists st0. }
  assert (∀ stage message percent st0,
            calls (f stage message percent st0).2 = calls st0) as Hfc.
  { subst f. destruct cb as [g|]; [exact Hfree|done]. }
  assert (quiet (Some f)) as Hqf by exact Hf.
  assert (call_free (Some f)) as Hff by exact Hfc.
  clearbody f. cbv zeta.
  unfold bind at 1.
  pose proof (Hfc "scraping" "Starting data collection..." 5 st) as Hc1.
  destruct (Hf "scraping" "Starting data collection..." 5 st) as [st1 Hr1].
  rewrite Hr1 in Hc1 |- *. cbn [snd] in Hc1.
  unfold bind at 1.
  destruct (scrape_all_eq w request (Some f) st1 Hqf) as [st2 Hrun2].
  destruct (scrape_all_call_log w request (Some f) st1 Hqf Hff)
    as (conn & Hc2 & Hperm).
  rewrite Hrun2 in Hc2 |- *. cbn [snd] in Hc2.
  unfold bind at 1.
  match goal with
  | |- context [f ?s ?m ?p st2] =>
      pose proof (Hfc s m p st2) as Hc3;
      destruct (Hf s m p st2) as [st3 Hr3]
  end.
  rewrite Hr3 in Hc3 |- *. cbn [snd] in Hc3.
  unfold bind at 1.
  match goal with
  | |- context [AIEngineService.extract_business_data w ?sr ?n (Some f) st3] =>
      destruct (extract_business_data_calls w sr n (Some f) st3 Hqf Hff)
        as (d & st4 & Hrun4 & Hc4)
  end.
  rewrite Hrun4. unfold bind at 1.
  match goal with
  | |- context [(if ?b then ?c1 else ?c2) st4] =>
      assert (∃ d' st5 gap,
                (if b then c1 else c2) st4 = (Ok d', st5)
                ∧ calls st5 = calls st4 ++ gap
                ∧ gap `sublist_of` [CallAnthropic "gap_fill"])
        as (d' & st5 & gap & Hrun5 & Hc5 & Hgap)
  end.
  { destruct (_ || _).
    - unfold bind.
      pose proof (Hfc "extracting" "Enhancing data..." 55 st4) as Hc.
      destruct (Hf "extracting" "Enhancing data..." 55 st4) as [st5 Hr5].
      rewrite Hr5 in Hc |- *. cbn [snd] in Hc.
      destruct (fill_gaps_calls w d (Some f) st5 Hqf Hff)
        as (d' & st6 & gap & Hrun6 & Hc6 & Hgap).
      exists d', st6, gap. split; [done|]. split; [|done].
      by rewrite Hc6, Hc.
    - exists d, st4, []. split; [done|]. rewrite app_nil_r.
      split; [done|apply sublist_nil_l]. }
  rewrite Hrun5. unfold bind at 1.
  pose proof (Hfc "generating" "Creating website design..." 65 st5) as Hc6.
  destruct (Hf "generating" "Creating website design..." 65 st5) as [st6 Hr6].
  rewrite Hr6 in Hc6 |- *. cbn [snd] in Hc6.
  unfold bind at 1.
  destruct (generate_calls w d' (Some f) st6 Hqf Hff) as (gen & Hc7 & Hgen).
  assert (calls st6 ++ gen
          = calls st ++ conn ++ CallAnthropic "extract" :: gap ++ gen) as Hall.
  { rewrite Hc6, Hc5, Hc4, Hc3, Hc2, Hc1. rewrite <- !app_assoc. done. }
  assert ((gap ++ gen) `sublist_of`
            ([CallAnthropic "gap_fill"]
             ++ [CallAnthropic "21st_dev"; CallAnthropic "template"]))
    as Hai by (by apply sublist_app).
  destruct (WebsiteGeneratorService.generate w d' (Some f) st6)
    as [[site|e] st7]; cbn [snd] in Hc7.
  - unfold bind.
    pose proof (Hfc "completed" "Website ready!" 100 st7) as Hc8.
    destruct (Hf "completed" "Website ready!" 100 st7) as [st8 Hr8].
    rewrite Hr8 in Hc8 |- *. cbn [snd] in Hc8 |- *. unfold ret. cbn [snd].
    exists conn, (gap ++ gen). split; [by rewrite Hc8, Hc7|by split].
  - cbn [snd]. exists conn, (gap ++ gen). split; [by rewrite Hc7|by split].
Qed.

Lemma run_call_budget_witness :
  ∃ conn ai,
    calls (WebsiteGeneratorOrchestrator.run (H := reference_runtime)
             premium_down_world full_request None init_state).2
    = calls init_state ++ conn ++ CallAnthropic "extract" :: ai
    ∧ conn ≡ₚ map CallConnector
                (List.filter (provided full_request)
                   ScraperService.source_names)
    ∧ ai `sublist_of` [CallAnthropic "gap_fill"; CallAnthropic "21st_dev";
                       CallAnthropic "template"].
Proof.
  apply (run_call_budget (H := reference_runtime) premium_down_world
           full_request None init_state); [exact I|by intros ? ? ? ?].
Defined.
